(** * The Hashcat rule engine of [PasswordGuesser]

    A shallow embedding of the class [PasswordGuesser] (file
    "Attack on Rules/hashcat规则攻击.py") and the properties of its
    rule-mutation interpreter and of the generator around it.

    The engine is embedded twice.

    The ASCII engine ([load_hashcat_rules], [apply_hashcat_rule],
    [exec_part]) holds words, rules and rule files as strings over
    [ascii] and gives the string methods of Python ([isspace],
    [islower], [upper], [lower], [int]) their ASCII tables; on ASCII
    text these send one character to one character, so the list
    [output] is a [list ascii].  The code points above 127 of [ascii]
    are carried through as caseless, non-blank, non-digit characters.

    The engine of the module [Uni] holds a string as the list of its
    code points and [output] as a list of strings, and takes the string
    methods and [int] as a record of tables, so that what is proved of
    it holds whatever Python's tables are; [Uni.agrees_on_ascii] says
    of the tables what Python gives to the ASCII characters.  On ASCII
    words and rules it is the ASCII engine ([bridge_apply]). *)

From Stdlib Require Import List String Ascii Bool Arith NArith ZArith Lia.
Import ListNotations.

Local Open Scope string_scope.
Local Open Scope list_scope.

(** ** Python outcomes: a call returns a value or raises *)

Inductive exn : Type :=
| ValueError
| IndexError
| OSError.

Inductive outcome (A : Type) : Type :=
| Returns (a : A)
| Raises (e : exn).

Arguments Returns {A} a.
Arguments Raises {A} e.

Definition bind {A B : Type} (m : outcome A) (k : A -> outcome B) : outcome B :=
  match m with
  | Returns a => k a
  | Raises e => Raises e
  end.

Notation "x <- m ;; k" := (bind m (fun x => k))
  (at level 61, m at next level, right associativity).

(** [try: body / except (ValueError, IndexError): pass] around a body
    that assigns to [output] only in its last statement: when the body
    raises one of the two listed exceptions the list is the one the
    instruction started from. *)
Definition try_except_ValueError_IndexError {A : Type}
    (body : outcome A) (unchanged : A) : outcome A :=
  match body with
  | Returns a => Returns a
  | Raises ValueError => Returns unchanged
  | Raises IndexError => Returns unchanged
  | Raises e => Raises e
  end.

(** ** The string and list primitives of Python the engine calls *)

Module Py.

(** [str.isspace] on one ASCII character: tab, line feed, vertical tab,
    form feed, carriage return, the four separators 28 to 31, space.
    [str.split()] and [str.strip()] use this set. *)
Definition isspace (c : ascii) : bool :=
  let n := nat_of_ascii c in
  ((9 <=? n) && (n <=? 13) || (28 <=? n) && (n <=? 32))%nat.

Definition islower (c : ascii) : bool :=
  let n := nat_of_ascii c in ((97 <=? n) && (n <=? 122))%nat.

Definition isupper (c : ascii) : bool :=
  let n := nat_of_ascii c in ((65 <=? n) && (n <=? 90))%nat.

Definition upper (c : ascii) : ascii :=
  if islower c then ascii_of_nat (nat_of_ascii c - 32) else c.

Definition lower (c : ascii) : ascii :=
  if isupper c then ascii_of_nat (nat_of_ascii c + 32) else c.

(** The value of a character as a digit: 0 to 9, then the letters of
    either case from 10 on. *)
Definition digit_value (c : ascii) : option Z :=
  let n := nat_of_ascii c in
  if ((48 <=? n) && (n <=? 57))%nat then Some (Z.of_nat (n - 48))
  else if ((97 <=? n) && (n <=? 122))%nat then Some (Z.of_nat (n - 87))
  else if ((65 <=? n) && (n <=? 90))%nat then Some (Z.of_nat (n - 55))
  else None.

(** [int(s, base)] on a one-character string [s]: the digit when it is
    below the base, [ValueError] otherwise (a sign, an underscore or a
    blank alone is not a number). *)
Definition int (c : ascii) (base : Z) : outcome Z :=
  match digit_value c with
  | Some d => if (d <? base)%Z then Returns d else Raises ValueError
  | None => Raises ValueError
  end.

Definition len {A : Type} (l : list A) : Z := Z.of_nat (List.length l).

(** A subscript [i] resolved against a sequence of [n] items: negative
    subscripts count from the end; out of range is [IndexError]. *)
Definition resolve_index (n i : Z) : outcome nat :=
  let j := if (i <? 0)%Z then (i + n)%Z else i in
  if ((j <? 0)%Z || (n <=? j)%Z) then Raises IndexError
  else Returns (Z.to_nat j).

(** [l[i]] *)
Definition getitem {A : Type} (l : list A) (i : Z) : outcome A :=
  j <- resolve_index (len l) i ;;
  match nth_error l j with
  | Some x => Returns x
  | None => Raises IndexError
  end.

Fixpoint replace_nth {A : Type} (l : list A) (j : nat) (x : A) : list A :=
  match l, j with
  | [], _ => []
  | _ :: t, O => x :: t
  | h :: t, S j' => h :: replace_nth t j' x
  end.

(** [l[i] = x] *)
Definition setitem {A : Type} (l : list A) (i : Z) (x : A) : outcome (list A) :=
  j <- resolve_index (len l) i ;;
  Returns (replace_nth l j x).

(** [l.insert(i, x)]: never raises, the position is clamped. *)
Definition insert {A : Type} (l : list A) (i : Z) (x : A) : list A :=
  let n := len l in
  let j := if (i <? 0)%Z then Z.max 0 (i + n) else Z.min i n in
  firstn (Z.to_nat j) l ++ x :: skipn (Z.to_nat j) l.

(** [l.append(x)] *)
Definition append {A : Type} (l : list A) (x : A) : list A := l ++ [x].

(** [l.pop(0)] and [l.pop()], keeping the list that is left. *)
Definition pop_first {A : Type} (l : list A) : outcome (list A) :=
  match l with
  | [] => Raises IndexError
  | _ :: t => Returns t
  end.

Definition pop_last {A : Type} (l : list A) : outcome (list A) :=
  match l with
  | [] => Raises IndexError
  | _ => Returns (removelast l)
  end.

(** [s[0]] on a string *)
Definition str_first (s : string) : outcome ascii :=
  match s with
  | EmptyString => Raises IndexError
  | String c _ => Returns c
  end.

(** Truth value of a string or of a list: non-empty. *)
Definition truthy (s : string) : bool :=
  match s with EmptyString => false | String _ _ => true end.

Definition nonempty {A : Type} (l : list A) : bool :=
  match l with [] => false | _ :: _ => true end.

(** [s.split()]: maximal runs of non-blank characters, in order. *)
Fixpoint split_from (cur : string) (s : string) : list string :=
  match s with
  | EmptyString => if truthy cur then [cur] else []
  | String c s' =>
      if isspace c
      then (if truthy cur then cur :: split_from EmptyString s'
            else split_from EmptyString s')
      else split_from (cur ++ String c EmptyString) s'
  end.

Definition split (s : string) : list string := split_from EmptyString s.

(** [s.lstrip()], [s.rstrip()], [s.strip()] *)
Fixpoint lstrip (s : string) : string :=
  match s with
  | EmptyString => EmptyString
  | String c s' => if isspace c then lstrip s' else s
  end.

Fixpoint rstrip (s : string) : string :=
  match s with
  | EmptyString => EmptyString
  | String c s' =>
      let r := rstrip s' in
      if isspace c && negb (truthy r) then EmptyString else String c r
  end.

Definition strip (s : string) : string := rstrip (lstrip s).

(** [s.startswith(c)] for a one-character prefix *)
Definition startswith (s : string) (c : ascii) : bool :=
  match s with
  | EmptyString => false
  | String d _ => Ascii.eqb d c
  end.

(** [list(s)] and ["".join(l)] *)
Definition list_of (s : string) : list ascii := list_ascii_of_string s.
Definition join (l : list ascii) : string := string_of_list_ascii l.

(** The lines a text file yields when it is iterated in text mode with
    universal newlines: a line ends after a line feed, a carriage return
    or the pair of them, each delivered as one line feed; a last line
    without terminator is delivered as it is. *)
Fixpoint lines_from (cur : string) (s : string) : list string :=
  match s with
  | EmptyString => if truthy cur then [cur] else []
  | String c s' =>
      if Ascii.eqb c "010" then (cur ++ String "010" EmptyString)%string :: lines_from EmptyString s'
      else if Ascii.eqb c "013" then
        match s' with
        | String d s'' =>
            if Ascii.eqb d "010"
            then (cur ++ String "010" EmptyString)%string :: lines_from EmptyString s''
            else (cur ++ String "010" EmptyString)%string :: lines_from EmptyString s'
        | EmptyString => [(cur ++ String "010" EmptyString)%string]
        end
      else lines_from (cur ++ String c EmptyString) s'
  end.

Definition lines (s : string) : list string := lines_from EmptyString s.

End Py.

(** ** The rule file and its loader *)

(** What lies behind a path that exists: a file that cannot be opened,
    a text file that reads to its end, or one whose read fails after
    the text [delivered] has been handed out. *)
Inductive node : Type :=
| Unopenable
| Readable (contents : string)
| Failing (delivered : string).

(** The file system the loader sees: no node, the path does not exist. *)
Definition filesystem : Type := string -> option node.

Definition os_path_exists (fs : filesystem) (path : string) : bool :=
  match fs path with
  | Some _ => true
  | None => false
  end.

(** [open(path, 'r', encoding='utf-8', errors='ignore')] followed by the
    iteration over the file object: the lines handed out, and the
    exception that ends the iteration early, if any. *)
Definition open_lines (fs : filesystem) (path : string)
  : outcome (list string * option exn) :=
  match fs path with
  | None => Raises OSError
  | Some Unopenable => Raises OSError
  | Some (Readable contents) => Returns (Py.lines contents, None)
  | Some (Failing delivered) => Returns (Py.lines delivered, Some OSError)
  end.

(** What the loader prints. *)
Inductive message : Type :=
| ReadErrorMessage (e : exn).

(** The body of [for line in f], threading the list [rules]. *)
Fixpoint read_loop (file_lines : list string) (rules : list string) : list string :=
  match file_lines with
  | [] => rules
  | line :: rest =>
      let line := Py.strip line in
      if Py.truthy line && negb (Py.startswith line "#")
      then read_loop rest (Py.append rules line)
      else read_loop rest rules
  end.

(** [load_hashcat_rules(self, rule_file)]: what is printed, and the
    outcome of the call. *)
Definition load_hashcat_rules (fs : filesystem) (rule_file : string)
  : list message * outcome (list string) :=
  if negb (os_path_exists fs rule_file) then ([], Returns [])
  else
    let rules := [] in
    match open_lines fs rule_file with
    | Raises e => ([ReadErrorMessage e], Returns rules)
    | Returns (file_lines, None) => ([], Returns (read_loop file_lines rules))
    | Returns (file_lines, Some e) =>
        ([ReadErrorMessage e], Returns (read_loop file_lines rules))
    end.

(** ** The rule executor *)

(** [c.upper() if c.islower() else c.lower()] *)
Definition toggle_case (c : ascii) : ascii :=
  if Py.islower c then Py.upper c else Py.lower c.

(** One turn of [for part in parts]: the instruction [part] applied to
    the list [output]. *)
Definition exec_part (output : list ascii) (part : string) : outcome (list ascii) :=
  match part with
  | EmptyString => Returns output
  | String cmd arg =>
      if Ascii.eqb cmd ":" then Returns output
      else if Ascii.eqb cmd "l" then Returns (map Py.lower output)
      else if Ascii.eqb cmd "u" then Returns (map Py.upper output)
      else if Ascii.eqb cmd "c" then
        if Py.nonempty output then
          let output := map Py.lower output in
          x <- Py.getitem output 0 ;;
          Py.setitem output 0 (Py.upper x)
        else Returns output
      else if Ascii.eqb cmd "C" then
        if Py.nonempty output then
          let output := map Py.upper output in
          x <- Py.getitem output 0 ;;
          Py.setitem output 0 (Py.lower x)
        else Returns output
      else if Ascii.eqb cmd "t" then Returns (map toggle_case output)
      else if Ascii.eqb cmd "r" then Returns (rev output)
      else if Ascii.eqb cmd "[" then
        if Py.nonempty output then Py.pop_first output else Returns output
      else if Ascii.eqb cmd "]" then
        if Py.nonempty output then Py.pop_last output else Returns output
      else if Ascii.eqb cmd "$" then
        if Py.truthy arg
        then (x <- Py.str_first arg ;; Returns (Py.append output x))
        else Returns output
      else if Ascii.eqb cmd "^" then
        if Py.truthy arg
        then (x <- Py.str_first arg ;; Returns (Py.insert output 0 x))
        else Returns output
      else if Ascii.eqb cmd "T" then
        try_except_ValueError_IndexError
          (d <- Py.str_first arg ;;
           pos <- Py.int d 16 ;;
           if (pos <? Py.len output)%Z then
             x <- Py.getitem output pos ;;
             Py.setitem output pos (toggle_case x)
           else Returns output)
          output
      else if Ascii.eqb cmd "D" then
        try_except_ValueError_IndexError
          (d <- Py.str_first arg ;;
           n <- Py.int d 10 ;;
           let pos := (n - 1)%Z in
           if ((0 <=? pos)%Z && (pos <? Py.len output)%Z) then
             x <- Py.getitem output pos ;;
             Returns (Py.insert output (pos + 1) x)
           else Returns output)
          output
      else if Ascii.eqb cmd "+" then
        if Py.truthy arg
        then (x <- Py.str_first arg ;; Returns (Py.append output x))
        else Returns output
      else if Ascii.eqb cmd "-" then
        if Py.truthy arg
        then (x <- Py.str_first arg ;; Returns (Py.insert output 0 x))
        else Returns output
      else Returns output
  end.

(** [for part in parts: ...] *)
Fixpoint run_parts (parts : list string) (output : list ascii) : outcome (list ascii) :=
  match parts with
  | [] => Returns output
  | part :: rest =>
      output' <- exec_part output part ;;
      run_parts rest output'
  end.

(** [apply_hashcat_rule(self, word, rule)] *)
Definition apply_hashcat_rule (word rule : string) : outcome string :=
  if negb (Py.truthy word) then Returns EmptyString
  else
    let output := Py.list_of word in
    let parts := Py.split rule in
    output' <- run_parts parts output ;;
    Returns (Py.join output').

(** ** The words of the specification, for the loader *)

(** A blank line holds blank characters only. *)
Definition is_blank_line (line : string) : bool :=
  forallb Py.isspace (Py.list_of line).

(** The first character of a line that is not blank. *)
Fixpoint first_nonblank (line : string) : option ascii :=
  match line with
  | EmptyString => None
  | String c rest => if Py.isspace c then first_nonblank rest else Some c
  end.

(** A comment line is one whose first non-blank character is [#]. *)
Definition is_comment_line (line : string) : bool :=
  match first_nonblank line with
  | Some c => Ascii.eqb c "#"
  | None => false
  end.

Definition is_rule_line (line : string) : bool :=
  negb (is_blank_line line) && negb (is_comment_line line).

(** The rule set as the specification words it: one rule per line that
    is neither blank nor a comment, in file order. *)
Definition ruleset_of_text (contents : string) : list string :=
  map Py.strip (filter is_rule_line (Py.lines contents)).

(** The opcodes of the instruction table. *)
Definition known_opcode (cmd : ascii) : bool :=
  existsb (Ascii.eqb cmd) (Py.list_of ":lucCtr[]$^TD+-").

(** ** The words of the specification, for the instructions *)

(** The place of a character in a table of digits, counted from 0. *)
Fixpoint place_in (c : ascii) (table : string) : option nat :=
  match table with
  | EmptyString => None
  | String d rest =>
      if Ascii.eqb c d then Some 0 else option_map S (place_in c rest)
  end.

(** One decimal digit. *)
Definition decimal_digit (c : ascii) : option nat :=
  place_in c "0123456789".

(** One hexadecimal digit, its letters in either case. *)
Definition hex_digit (c : ascii) : option nat :=
  match place_in c "0123456789abcdef" with
  | Some n => Some n
  | None => option_map (Nat.add 10) (place_in c "ABCDEF")
  end.

(** The opcodes that take a position. *)
Definition takes_position (cmd : ascii) : bool :=
  existsb (Ascii.eqb cmd) (Py.list_of "TD").

(** A loader that reports an unopenable rule file by raising. *)
Definition raises_when_unopenable
    (load : filesystem -> string -> list message * outcome (list string)) : Prop :=
  forall fs path,
    open_lines fs path = Raises OSError ->
    exists e, snd (load fs path) = Raises e.

(** Two file systems for the examples: an empty one, and one holding a
    rule file with blank lines, comments and an unknown opcode. *)
Definition no_files : filesystem := fun _ => None.

Definition sample_rules : string :=
  String.concat (String "010" EmptyString)
    ["# case"; ""; "u $1"; "   "; "  # indented comment"; "@ $X"; "T0 D1 "].

Definition one_rule_file : filesystem :=
  fun path => if String.eqb path "Unicorn3k.rule"
              then Some (Readable sample_rules) else None.

Definition locked_rule_file : filesystem :=
  fun path => if String.eqb path "Unicorn3k.rule" then Some Unopenable else None.

(** ** Further string primitives, for the generator around the engine *)

Module PyText.

(** [len(s)] *)
Definition len (s : string) : Z := Z.of_nat (String.length s).

(** A character of the class [0-9] of a regular expression. *)
Definition isdigit (c : ascii) : bool :=
  let n := nat_of_ascii c in ((48 <=? n) && (n <=? 57))%nat.

(** [re.sub(r'[^0-9]', '', s)] *)
Fixpoint digits_only (s : string) : string :=
  match s with
  | EmptyString => EmptyString
  | String c rest =>
      if isdigit c then String c (digits_only rest) else digits_only rest
  end.

(** A bound of a slice against a sequence of [n] items: a missing bound
    takes its default, a negative one counts from the end, and both are
    clamped into the sequence. *)
Definition clamp (n : Z) (bound : option Z) (default : Z) : Z :=
  match bound with
  | None => default
  | Some i => if (i <? 0)%Z then Z.max (i + n) 0 else Z.min i n
  end.

(** [l[start:stop]] *)
Definition slice {A : Type} (l : list A) (start stop : option Z) : list A :=
  let n := Py.len l in
  let lo := clamp n start 0 in
  let hi := clamp n stop n in
  firstn (Z.to_nat (hi - lo)) (skipn (Z.to_nat lo) l).

(** [s[start:stop]] *)
Definition str_slice (s : string) (start stop : option Z) : string :=
  Py.join (slice (Py.list_of s) start stop).

(** [int(s)] on a string of decimal digits; the empty string, and a
    string with a character that is no digit, is a [ValueError]. *)
Fixpoint int_from (acc : Z) (s : string) : outcome Z :=
  match s with
  | EmptyString => Returns acc
  | String c rest =>
      d <- Py.int c 10 ;;
      int_from (10 * acc + d)%Z rest
  end.

Definition int (s : string) : outcome Z :=
  if Py.truthy s then int_from 0 s else Raises ValueError.

(** [s.lower()], [s.upper()], [s.capitalize()] *)
Definition lower (s : string) : string :=
  Py.join (map Py.lower (Py.list_of s)).

Definition upper (s : string) : string :=
  Py.join (map Py.upper (Py.list_of s)).

Definition capitalize (s : string) : string :=
  match s with
  | EmptyString => EmptyString
  | String c rest => String (Py.upper c) (lower rest)
  end.

(** [c in s] for a one-character [c] *)
Definition contains (c : ascii) (s : string) : bool :=
  existsb (Ascii.eqb c) (Py.list_of s).

(** [s.split(sep)] for a one-character separator: every separator cuts,
    empty pieces are kept. *)
Fixpoint split_on_from (sep : ascii) (cur : string) (s : string) : list string :=
  match s with
  | EmptyString => [cur]
  | String c rest =>
      if Ascii.eqb c sep then cur :: split_on_from sep EmptyString rest
      else split_on_from sep (cur ++ String c EmptyString) rest
  end.

Definition split_on (sep : ascii) (s : string) : list string :=
  split_on_from sep EmptyString s.

(** [s.split(sep, 1)]: cut at the first separator only. *)
Fixpoint split_once_from (sep : ascii) (cur : string) (s : string) : list string :=
  match s with
  | EmptyString => [cur]
  | String c rest =>
      if Ascii.eqb c sep then [cur; rest]
      else split_once_from sep (cur ++ String c EmptyString) rest
  end.

Definition split_once (sep : ascii) (s : string) : list string :=
  split_once_from sep EmptyString s.

(** [p in seen] for a set of strings, kept as the list of its members. *)
Definition member (p : string) (seen : list string) : bool :=
  existsb (String.eqb p) seen.

End PyText.

(** ** The constructor *)

(** What is printed while a [PasswordGuesser] is made: the loader's own
    messages, then one of the two messages of [__init__]. *)
Inductive notice : Type :=
| LoaderPrinted (m : message)
| RulesLoaded (count : nat) (rule_file : string)
| NoRulesWarning (rule_file : string).

(** The attributes [__init__] sets. *)
Record PasswordGuesser : Type := {
  max_guesses : Z;
  hashcat_rules : list string
}.

(** [__init__(self, max_guesses, rule_file)] *)
Definition PasswordGuesser_init (fs : filesystem) (max_guesses : Z)
    (rule_file : string) : list notice * outcome PasswordGuesser :=
  let (printed, loaded) := load_hashcat_rules fs rule_file in
  match loaded with
  | Raises e => (map LoaderPrinted printed, Raises e)
  | Returns rules =>
      (map LoaderPrinted printed
         ++ [if Py.nonempty rules
             then RulesLoaded (List.length rules) rule_file
             else NoRulesWarning rule_file],
       Returns {| max_guesses := max_guesses; hashcat_rules := rules |})
  end.

(** ** Reading one target line *)

(** The dictionary [user_info], whose five keys are fixed. *)
Record user_info : Type := {
  email : string;
  names : list string;
  account : string;
  phone : string;
  birth : string
}.

Definition empty_user_info : user_info :=
  {| email := ""; names := []; account := ""; phone := ""; birth := "" |}.

(** One turn of [for field in line.split('\t')]. *)
Definition parse_field (info : user_info) (field : string) : outcome user_info :=
  if negb (PyText.contains ":" field) then Returns info
  else
    match PyText.split_once ":" field with
    | [k; v] =>
        let k := Py.strip k in
        let v := Py.strip v in
        if (k =? "email")%string && Py.truthy v then
          Returns {| email := v; names := names info; account := account info;
                     phone := phone info; birth := birth info |}
        else if (k =? "name")%string && Py.truthy v then
          Returns {| email := email info;
                     names := map Py.strip
                                (filter (fun n => Py.truthy (Py.strip n))
                                        (PyText.split_on "|" v));
                     account := account info;
                     phone := phone info; birth := birth info |}
        else if (k =? "account")%string && Py.truthy v then
          Returns {| email := email info; names := names info; account := v;
                     phone := phone info; birth := birth info |}
        else if (k =? "phone")%string && Py.truthy v then
          Returns {| email := email info; names := names info;
                     account := account info; phone := v; birth := birth info |}
        else if (k =? "birth")%string && Py.truthy v then
          Returns {| email := email info; names := names info;
                     account := account info; phone := phone info; birth := v |}
        else Returns info
    | _ => Raises ValueError
    end.

Fixpoint parse_fields (fields : list string) (info : user_info) : outcome user_info :=
  match fields with
  | [] => Returns info
  | field :: rest =>
      info' <- parse_field info field ;;
      parse_fields rest info'
  end.

(** [parse_user_info(self, line)] *)
Definition parse_user_info (line : string) : outcome user_info :=
  parse_fields (PyText.split_on "009" line) empty_user_info.

(** ** The variants taken from a date, a phone number and an address *)

(** [extract_date_variants(self, birth)] *)
Definition extract_date_variants (birth : string) : outcome (list string) :=
  if negb (Py.truthy birth) then Returns []
  else
    let d := PyText.digits_only birth in
    if (PyText.len d =? 8)%Z then
      year <- PyText.int (PyText.str_slice d None (Some 4%Z)) ;;
      if ((1950 <=? year)%Z && (year <=? 2020)%Z) then
        let y := PyText.str_slice d None (Some 4%Z) in
        let m := PyText.str_slice d (Some 4%Z) (Some 6%Z) in
        let day := PyText.str_slice d (Some 6%Z) None in
        let yy := PyText.str_slice y (Some 2%Z) None in
        Returns [y; yy; (m ++ day)%string; d; (yy ++ m ++ day)%string]
      else Returns []
    else Returns [].

(** [extract_phone_variants(self, phone)] *)
Definition extract_phone_variants (phone : string) : list string :=
  if negb (Py.truthy phone) then []
  else
    let digits := PyText.digits_only phone in
    if (4 <=? PyText.len digits)%Z
    then [PyText.str_slice digits (Some (-4)%Z) None; digits]
    else [].

(** [extract_email_variants(self, email)] *)
Definition extract_email_variants (email : string) : outcome (list string) :=
  if Py.truthy email && PyText.contains "@" email then
    u <- Py.getitem (PyText.split_on "@" email) 0 ;;
    if (2 <? PyText.len u)%Z
    then Returns [u; PyText.lower u; PyText.capitalize u]
    else Returns []
  else Returns [].

(** ** The rule stage of [generate_combined_passwords] *)

(** [for rule in self.hashcat_rules], for one base word, threading the
    list [cand]. *)
Fixpoint rules_loop (base : string) (rules : list string) (cand : list string)
  : outcome (list string) :=
  match rules with
  | [] => Returns cand
  | rule :: rest =>
      mutated <- apply_hashcat_rule base rule ;;
      if Py.truthy mutated && negb (mutated =? base)%string
      then rules_loop base rest (Py.append cand mutated)
      else rules_loop base rest cand
  end.

(** [for base in base_words_for_rules] *)
Fixpoint bases_loop (bases : list string) (rules : list string) (cand : list string)
  : outcome (list string) :=
  match bases with
  | [] => Returns cand
  | base :: rest =>
      if Py.truthy base && (3 <? PyText.len base)%Z then
        cand' <- rules_loop base rules cand ;;
        bases_loop rest rules cand'
      else bases_loop rest rules cand
  end.

(** Step 4 of [generate_combined_passwords], from [if self.hashcat_rules:]
    on: the rules applied to the base words [base_words_for_rules], the
    results appended to the candidates [cand] gathered so far. *)
Definition apply_rules_stage (hashcat_rules bases cand : list string)
  : outcome (list string) :=
  if Py.nonempty hashcat_rules then bases_loop bases hashcat_rules cand
  else Returns cand.

(** ** The last stage of [generate_guesses] *)

(** The loop [for p in cands] of [generate_guesses], threading the set
    [seen] and the list [uniq]. *)
Fixpoint unique_loop (cands : list string) (seen uniq : list string) : list string :=
  match cands with
  | [] => uniq
  | p :: rest =>
      if Py.truthy p
         && ((6 <=? PyText.len p)%Z && (PyText.len p <=? 20)%Z)
         && negb (PyText.member p seen)
      then unique_loop rest (p :: seen) (Py.append uniq p)
      else unique_loop rest seen uniq
  end.

(** [generate_guesses], from the candidate list [cands] that
    [generate_combined_passwords] returned: ordered removal of
    duplicates with the length filter, then [uniq[:self.max_guesses]]. *)
Definition unique_guesses (max_guesses : Z) (cands : list string) : list string :=
  PyText.slice (unique_loop cands [] []) None (Some max_guesses).

(** The length window of a guess. *)
Definition length_allowed (p : string) : bool :=
  ((6 <=? String.length p) && (String.length p <=? 20))%nat.

(** A string of decimal digits only. *)
Definition all_digits (s : string) : bool :=
  forallb PyText.isdigit (Py.list_of s).

(** The opcodes that change the case of letters and nothing else. *)
Definition case_opcode (cmd : ascii) : bool :=
  existsb (Ascii.eqb cmd) (Py.list_of ":lucCtT").

(** An instruction that changes case only, and one that does nothing. *)
Definition case_instruction (part : string) : bool :=
  match part with
  | EmptyString => true
  | String cmd _ => case_opcode cmd
  end.

Definition colon_instruction (part : string) : bool :=
  match part with
  | EmptyString => true
  | String cmd _ => Ascii.eqb cmd ":"
  end.

(** A result of a rule that the generator keeps for the base word. *)
Definition kept_mutation (base m : string) : Prop := m <> "" /\ m <> base.

(** A string with no blank at either end, and a record of such. *)
Definition stripped (s : string) : Prop := Py.strip s = s.

Definition tidy (info : user_info) : Prop :=
  stripped (email info) /\ stripped (account info)
  /\ stripped (phone info) /\ stripped (birth info)
  /\ forall n, In n (names info) -> n <> "" /\ stripped n.

(** The keys that [parse_user_info] reads. *)
Definition known_keys : list string :=
  ["email"; "name"; "account"; "phone"; "birth"].

(** The names a [name] field holds: its pieces between bars, stripped,
    the empty ones left out. *)
Definition names_of (v : string) : list string :=
  map Py.strip (filter (fun n => Py.truthy (Py.strip n)) (PyText.split_on "|" v)).

(** Two words equal up to the case of their letters. *)
Definition same_letters (l1 l2 : list ascii) : Prop :=
  map Py.lower l1 = map Py.lower l2.

(** ** The engine over any character repertoire

    The same two functions, with a string as the list of its code
    points, the list [output] as a list of strings, and the string
    methods of Python taken as they come, in a record of tables: a case
    method may return a string longer than the one it is given, and
    [int] accepts the digits that Python accepts. *)

Module Uni.

Definition char : Type := N.
Definition str : Type := list char.

(** The code point of an ASCII character, and the text of a literal. *)
Definition code (c : ascii) : char := N_of_ascii c.
Definition text (s : string) : str := map code (list_ascii_of_string s).

(** The methods of Python the engine calls: [c.isspace()] behind
    [split()], [s.upper()], [s.lower()], [s.islower()], and
    [int(c, base)] on a one-character string, with no value where it
    raises [ValueError]. *)
Record tables : Type := {
  isspace : char -> bool;
  upper : str -> str;
  lower : str -> str;
  islower : str -> bool;
  int : char -> Z -> option Z
}.

Section Engine.

Variable T : tables.

(** [s.split()] *)
Fixpoint split_from (cur : str) (s : str) : list str :=
  match s with
  | [] => if Py.nonempty cur then [cur] else []
  | c :: s' =>
      if isspace T c
      then (if Py.nonempty cur then cur :: split_from [] s'
            else split_from [] s')
      else split_from (cur ++ [c]) s'
  end.

Definition split (s : str) : list str := split_from [] s.

(** [s[0]], a one-character string, named by its character. *)
Definition first (s : str) : outcome char :=
  match s with
  | [] => Raises IndexError
  | c :: _ => Returns c
  end.

(** [int(c, base)] *)
Definition py_int (c : char) (base : Z) : outcome Z :=
  match int T c base with
  | Some n => Returns n
  | None => Raises ValueError
  end.

(** [x.upper() if x.islower() else x.lower()] *)
Definition toggle (x : str) : str :=
  if islower T x then upper T x else lower T x.

(** One turn of [for part in parts]. *)
Definition exec_part (output : list str) (part : str) : outcome (list str) :=
  match part with
  | [] => Returns output
  | cmd :: arg =>
      if N.eqb cmd (code ":") then Returns output
      else if N.eqb cmd (code "l") then Returns (map (lower T) output)
      else if N.eqb cmd (code "u") then Returns (map (upper T) output)
      else if N.eqb cmd (code "c") then
        if Py.nonempty output then
          let output := map (lower T) output in
          x <- Py.getitem output 0 ;;
          Py.setitem output 0 (upper T x)
        else Returns output
      else if N.eqb cmd (code "C") then
        if Py.nonempty output then
          let output := map (upper T) output in
          x <- Py.getitem output 0 ;;
          Py.setitem output 0 (lower T x)
        else Returns output
      else if N.eqb cmd (code "t") then Returns (map toggle output)
      else if N.eqb cmd (code "r") then Returns (rev output)
      else if N.eqb cmd (code "[") then
        if Py.nonempty output then Py.pop_first output else Returns output
      else if N.eqb cmd (code "]") then
        if Py.nonempty output then Py.pop_last output else Returns output
      else if N.eqb cmd (code "$") then
        if Py.nonempty arg
        then (x <- first arg ;; Returns (Py.append output [x]))
        else Returns output
      else if N.eqb cmd (code "^") then
        if Py.nonempty arg
        then (x <- first arg ;; Returns (Py.insert output 0 [x]))
        else Returns output
      else if N.eqb cmd (code "T") then
        try_except_ValueError_IndexError
          (d <- first arg ;;
           pos <- py_int d 16 ;;
           if (pos <? Py.len output)%Z then
             x <- Py.getitem output pos ;;
             Py.setitem output pos (toggle x)
           else Returns output)
          output
      else if N.eqb cmd (code "D") then
        try_except_ValueError_IndexError
          (d <- first arg ;;
           n <- py_int d 10 ;;
           let pos := (n - 1)%Z in
           if ((0 <=? pos)%Z && (pos <? Py.len output)%Z) then
             x <- Py.getitem output pos ;;
             Returns (Py.insert output (pos + 1) x)
           else Returns output)
          output
      else if N.eqb cmd (code "+") then
        if Py.nonempty arg
        then (x <- first arg ;; Returns (Py.append output [x]))
        else Returns output
      else if N.eqb cmd (code "-") then
        if Py.nonempty arg
        then (x <- first arg ;; Returns (Py.insert output 0 [x]))
        else Returns output
      else Returns output
  end.

Fixpoint run_parts (parts : list str) (output : list str) : outcome (list str) :=
  match parts with
  | [] => Returns output
  | part :: rest =>
      output' <- exec_part output part ;;
      run_parts rest output'
  end.

(** [list(word)]: one one-character string for each character. *)
Definition items (word : str) : list str := map (fun c => [c]) word.

(** [apply_hashcat_rule(self, word, rule)] *)
Definition apply_hashcat_rule (word rule : str) : outcome str :=
  if negb (Py.nonempty word) then Returns []
  else
    let output := items word in
    let parts := split rule in
    output' <- run_parts parts output ;;
    Returns (List.concat output').

(** The three ways an instruction is malformed for the list it meets:
    its argument is missing; [int] raises on its argument where a
    number is required; the position it names is outside the list. *)
Definition argument_missing (part : str) : bool :=
  match part with
  | [cmd] => existsb (N.eqb cmd) (text "$^+-TD")
  | _ => false
  end.

Definition argument_not_numeric (part : str) : bool :=
  match part with
  | cmd :: d :: _ =>
      (N.eqb cmd (code "T")
       && match int T d 16 with None => true | Some _ => false end)
      || (N.eqb cmd (code "D")
          && match int T d 10 with None => true | Some _ => false end)
  | _ => false
  end.

Definition position_out_of_bounds (output : list str) (part : str) : bool :=
  match part with
  | cmd :: d :: _ =>
      (N.eqb cmd (code "T")
       && match int T d 16 with
          | Some n => (Py.len output <=? n)%Z
          | None => false
          end)
      || (N.eqb cmd (code "D")
          && match int T d 10 with
             | Some n => (n - 1 <? 0)%Z || (Py.len output <=? n - 1)%Z
             | None => false
             end)
  | _ => false
  end.

Definition malformed (output : list str) (part : str) : bool :=
  argument_missing part || argument_not_numeric part
  || position_out_of_bounds output part.

(** One instruction as it stands in a rule: not empty, no blank in it. *)
Definition token (part : str) : bool :=
  Py.nonempty part && forallb (fun c => negb (isspace T c)) part.

(** The tables give to the ASCII characters what Python gives them. *)
Definition agrees_on_ascii : Prop :=
  forall c : ascii,
    (N_of_ascii c < 128)%N ->
    isspace T (code c) = Py.isspace c
    /\ upper T [code c] = [code (Py.upper c)]
    /\ lower T [code c] = [code (Py.lower c)]
    /\ islower T [code c] = Py.islower c
    /\ int T (code c) 10
       = match Py.int c 10 with Returns n => Some n | Raises _ => None end
    /\ int T (code c) 16
       = match Py.int c 16 with Returns n => Some n | Raises _ => None end.

(** The instruction table of the specification read on the characters
    of the word: [TN] after a rule toggles the character at position
    [N] of the word that the rule gives, and [DN] doubles the character
    at position [N], counted from 1. *)
Definition T_toggles_the_character : Prop :=
  forall word rule current d n c result,
    apply_hashcat_rule word rule = Returns current ->
    int T d 16 = Some n -> (0 <= n)%Z ->
    nth_error current (Z.to_nat n) = Some c ->
    apply_hashcat_rule word (rule ++ text " T" ++ [d]) = Returns result ->
    result = firstn (Z.to_nat n) current ++ toggle [c]
             ++ skipn (S (Z.to_nat n)) current.

Definition D_doubles_the_character : Prop :=
  forall word rule current d n c result,
    apply_hashcat_rule word rule = Returns current ->
    int T d 10 = Some n -> (1 <= n)%Z ->
    nth_error current (Z.to_nat (n - 1)) = Some c ->
    apply_hashcat_rule word (rule ++ text " D" ++ [d]) = Returns result ->
    result = firstn (Z.to_nat n) current ++ c :: skipn (Z.to_nat n) current.

End Engine.

(** Tables for the examples: Python's tables on the ASCII characters,
    on the letter sharp s (223, whose upper case is the two letters
    [SS]) and on the Arabic-Indic digits (1632 to 1641, which [int]
    reads as 0 to 9), with Python's blanks.  Every other code point is
    left without case and without digit value; the examples use these
    tables on strings of the characters named only. *)
Definition sample_isspace (n : char) : bool :=
  if (n <? 128)%N then Py.isspace (ascii_of_N n)
  else existsb (N.eqb n)
         [133; 160; 5760; 8192; 8193; 8194; 8195; 8196; 8197; 8198; 8199;
          8200; 8201; 8202; 8232; 8233; 8239; 8287; 12288]%N.

Definition sample_upper_char (n : char) : str :=
  if (n <? 128)%N then [code (Py.upper (ascii_of_N n))]
  else if (n =? 223)%N then [83; 83]%N
  else [n].

Definition sample_lower_char (n : char) : char :=
  if (n <? 128)%N then code (Py.lower (ascii_of_N n)) else n.

Definition sample_lower_cased (n : char) : bool :=
  if (n <? 128)%N then Py.islower (ascii_of_N n) else (n =? 223)%N.

Definition sample_upper_cased (n : char) : bool :=
  if (n <? 128)%N then Py.isupper (ascii_of_N n) else false.

Definition sample_int (n : char) (base : Z) : option Z :=
  if (n <? 128)%N then
    match Py.int (ascii_of_N n) base with
    | Returns d => Some d
    | Raises _ => None
    end
  else if ((1632 <=? n) && (n <=? 1641))%N then
    if (Z.of_N n - 1632 <? base)%Z then Some (Z.of_N n - 1632)%Z else None
  else None.

Definition sample_tables : tables :=
  {| isspace := sample_isspace;
     upper := flat_map sample_upper_char;
     lower := map sample_lower_char;
     islower := fun s => existsb sample_lower_cased s
                         && negb (existsb sample_upper_cased s);
     int := sample_int |}.

End Uni.

(** An ASCII character, and the list of an ASCII word as the general
    engine holds it. *)
Definition low (c : ascii) : Prop := (N_of_ascii c < 128)%N.

Definition items_of (output : list ascii) : list Uni.str :=
  map (fun c => [Uni.code c]) output.

(** The outcome of a call, its value seen through [f]. *)
Definition lift {A B : Type} (f : A -> B) (m : outcome A) : outcome B :=
  match m with
  | Returns a => Returns (f a)
  | Raises e => Raises e
  end.

(** A string of ASCII characters. *)
Definition ascii_only (s : string) : bool :=
  forallb (fun c => (N_of_ascii c <? 128)%N) (Py.list_of s).

(** Case analysis on a character, one case per code point. *)
Ltac all_characters c :=
  let b := fresh "bit" in
  destruct c as [b b0 b1 b2 b3 b4 b5 b6];
  destruct b, b0, b1, b2, b3, b4, b5, b6.

(** Case analysis on an opcode along the chain of comparisons of
    [exec_part]. *)
Ltac split_opcode cmd :=
  repeat match goal with
         | |- context [if Ascii.eqb cmd ?x then _ else _] =>
             destruct (Ascii.eqb_spec cmd x); [subst cmd |]
         end.

(** The same along the chain of [Uni.exec_part]. *)
Ltac split_code cmd :=
  repeat match goal with
         | |- context [if N.eqb cmd ?x then _ else _] =>
             destruct (N.eqb_spec cmd x); [subst cmd |]
         end.

(** ** Running the engine on the examples of the specification *)

Example apply_u_alice : apply_hashcat_rule "alice" "u" = Returns "ALICE".
Proof. reflexivity. Qed.

Example apply_l_ALICE : apply_hashcat_rule "ALICE" "l" = Returns "alice".
Proof. reflexivity. Qed.

Example apply_c_alice : apply_hashcat_rule "alice" "c" = Returns "Alice".
Proof. reflexivity. Qed.

Example apply_C_ALICE : apply_hashcat_rule "ALICE" "C" = Returns "aLICE".
Proof. reflexivity. Qed.

Example apply_r_alice : apply_hashcat_rule "alice" "r" = Returns "ecila".
Proof. reflexivity. Qed.

Example apply_brackets : apply_hashcat_rule "alice" "[ ] t" = Returns "LIC".
Proof. reflexivity. Qed.

(** ** Facts about the primitives *)

Section Primitives.

Context {A : Type}.

Lemma resolve_index_in_range (n i : Z) :
  (0 <= i < n)%Z -> Py.resolve_index n i = Returns (Z.to_nat i).
Proof.
  intros [Hlo Hhi]. unfold Py.resolve_index.
  assert (Hneg : (i <? 0)%Z = false) by (apply Z.ltb_ge; lia).
  assert (Hge : (n <=? i)%Z = false) by (apply Z.leb_gt; lia).
  rewrite !Hneg, Hge. reflexivity.
Qed.

Lemma getitem_in_range (l : list A) (i : Z) :
  (0 <= i < Py.len l)%Z ->
  exists x, nth_error l (Z.to_nat i) = Some x /\ Py.getitem l i = Returns x.
Proof.
  intros Hi. unfold Py.getitem.
  rewrite (resolve_index_in_range _ _ Hi). simpl.
  destruct (nth_error l (Z.to_nat i)) as [x |] eqn:Hnth.
  - exists x. split; reflexivity.
  - apply nth_error_None in Hnth. unfold Py.len in Hi. lia.
Qed.

Lemma setitem_in_range (l : list A) (i : Z) (x : A) :
  (0 <= i < Py.len l)%Z ->
  Py.setitem l i x = Returns (Py.replace_nth l (Z.to_nat i) x).
Proof.
  intros Hi. unfold Py.setitem.
  rewrite (resolve_index_in_range _ _ Hi). reflexivity.
Qed.

Lemma replace_nth_split (l : list A) (j : nat) (x y : A) :
  nth_error l j = Some y ->
  Py.replace_nth l j x = firstn j l ++ x :: skipn (S j) l.
Proof.
  revert j. induction l as [| h t IH]; intros [| j] Hnth; simpl in *;
    try discriminate; try reflexivity.
  rewrite (IH j Hnth). reflexivity.
Qed.

Lemma len_nonneg (l : list A) : (0 <= Py.len l)%Z.
Proof. unfold Py.len. lia. Qed.

Lemma insert_in_range (l : list A) (i : Z) (x : A) :
  (0 <= i <= Py.len l)%Z ->
  Py.insert l i x = firstn (Z.to_nat i) l ++ x :: skipn (Z.to_nat i) l.
Proof.
  intros Hi. unfold Py.insert.
  destruct (Z.ltb_spec i 0) as [Hneg | _]; [lia |].
  rewrite Z.min_l by lia. reflexivity.
Qed.

Lemma insert_front (l : list A) (x : A) : Py.insert l 0 x = x :: l.
Proof.
  rewrite insert_in_range by (pose proof (len_nonneg l); lia). reflexivity.
Qed.

End Primitives.

Lemma upper_idempotent (c : ascii) : Py.upper (Py.upper c) = Py.upper c.
Proof. all_characters c; reflexivity. Qed.

Lemma list_of_join (l : list ascii) : Py.list_of (Py.join l) = l.
Proof. apply list_ascii_of_string_of_list_ascii. Qed.

Lemma join_list_of (s : string) : Py.join (Py.list_of s) = s.
Proof. apply string_of_list_ascii_of_string. Qed.

Lemma truthy_join (l : list ascii) : Py.truthy (Py.join l) = Py.nonempty l.
Proof. destruct l; reflexivity. Qed.

Lemma join_app (l1 l2 : list ascii) :
  Py.join (l1 ++ l2) = (Py.join l1 ++ Py.join l2)%string.
Proof. induction l1 as [| c l1 IH]; simpl; [reflexivity | now rewrite IH]. Qed.

Lemma int_16_hex_digit (c : ascii) :
  Py.int c 16 = match hex_digit c with
                | Some n => Returns (Z.of_nat n)
                | None => Raises ValueError
                end.
Proof. all_characters c; reflexivity. Qed.

Lemma int_10_decimal_digit (c : ascii) :
  Py.int c 10 = match decimal_digit c with
                | Some n => Returns (Z.of_nat n)
                | None => Raises ValueError
                end.
Proof. all_characters c; reflexivity. Qed.

(** ** The instructions with a position *)

Lemma exec_T_equation (output : list ascii) (arg : string) :
  exec_part output (String "T" arg) =
  try_except_ValueError_IndexError
    (d <- Py.str_first arg ;;
     pos <- Py.int d 16 ;;
     if (pos <? Py.len output)%Z then
       x <- Py.getitem output pos ;;
       Py.setitem output pos (toggle_case x)
     else Returns output)
    output.
Proof. reflexivity. Qed.

Lemma exec_D_equation (output : list ascii) (arg : string) :
  exec_part output (String "D" arg) =
  try_except_ValueError_IndexError
    (d <- Py.str_first arg ;;
     n <- Py.int d 10 ;;
     let pos := (n - 1)%Z in
     if ((0 <=? pos)%Z && (pos <? Py.len output)%Z) then
       x <- Py.getitem output pos ;;
       Returns (Py.insert output (pos + 1) x)
     else Returns output)
    output.
Proof. reflexivity. Qed.

Lemma exec_T_digit (output : list ascii) (d : ascii) (rest : string) :
  exec_part output (String "T" (String d rest)) =
  Returns match hex_digit d with
          | Some n =>
              match nth_error output n with
              | Some x => firstn n output ++ toggle_case x :: skipn (S n) output
              | None => output
              end
          | None => output
          end.
Proof.
  rewrite exec_T_equation. cbn [Py.str_first bind].
  rewrite int_16_hex_digit.
  destruct (hex_digit d) as [n |]; [| reflexivity].
  cbn [bind try_except_ValueError_IndexError].
  destruct (Z.ltb_spec (Z.of_nat n) (Py.len output)) as [Hlt | Hge].
  - assert (Hin : (0 <= Z.of_nat n < Py.len output)%Z) by lia.
    destruct (getitem_in_range output _ Hin) as (x & Hnth & Hget).
    rewrite Hget. cbn [bind]. rewrite (setitem_in_range _ _ _ Hin).
    rewrite Nat2Z.id in *. rewrite Hnth.
    rewrite (replace_nth_split _ _ _ _ Hnth). reflexivity.
  - assert (Hnone : nth_error output n = None).
    { apply nth_error_None. unfold Py.len in Hge. lia. }
    rewrite Hnone. reflexivity.
Qed.

Lemma exec_D_digit (output : list ascii) (d : ascii) (rest : string) :
  exec_part output (String "D" (String d rest)) =
  Returns match decimal_digit d with
          | Some (S p) =>
              match nth_error output p with
              | Some x => firstn (S p) output ++ x :: skipn (S p) output
              | None => output
              end
          | _ => output
          end.
Proof.
  rewrite exec_D_equation. cbn [Py.str_first bind].
  rewrite int_10_decimal_digit.
  destruct (decimal_digit d) as [[| p] |]; [reflexivity | | reflexivity].
  cbn [bind try_except_ValueError_IndexError]. cbv zeta.
  replace (Z.of_nat (S p) - 1)%Z with (Z.of_nat p) by lia.
  assert (H0 : (0 <=? Z.of_nat p)%Z = true) by (apply Z.leb_le; lia).
  rewrite H0. cbn [andb].
  destruct (Z.ltb_spec (Z.of_nat p) (Py.len output)) as [Hlt | Hge].
  - assert (Hin : (0 <= Z.of_nat p < Py.len output)%Z) by lia.
    destruct (getitem_in_range output _ Hin) as (x & Hnth & Hget).
    rewrite Hget. cbn [bind]. rewrite Nat2Z.id in Hnth. rewrite Hnth.
    rewrite insert_in_range by lia.
    replace (Z.to_nat (Z.of_nat p + 1)) with (S p) by lia. reflexivity.
  - assert (Hnone : nth_error output p = None).
    { apply nth_error_None. unfold Py.len in Hge. lia. }
    rewrite Hnone. reflexivity.
Qed.

Lemma exec_position_no_argument (output : list ascii) (cmd : ascii) :
  takes_position cmd = true ->
  exec_part output (String cmd EmptyString) = Returns output.
Proof.
  unfold takes_position. cbn [existsb Py.list_of list_ascii_of_string].
  rewrite orb_false_r. intros H. apply orb_true_iff in H.
  destruct H as [H | H]; apply Ascii.eqb_eq in H; subst; reflexivity.
Qed.

(** ** No instruction raises *)

Lemma exec_part_returns (output : list ascii) (part : string) :
  exists output', exec_part output part = Returns output'.
Proof.
  destruct part as [| cmd arg]; [eexists; reflexivity |].
  destruct (Ascii.eqb_spec cmd "T") as [-> | HT].
  { destruct arg as [| d rest].
    - eexists. apply exec_position_no_argument. reflexivity.
    - eexists. apply exec_T_digit. }
  destruct (Ascii.eqb_spec cmd "D") as [-> | HD].
  { destruct arg as [| d rest].
    - eexists. apply exec_position_no_argument. reflexivity.
    - eexists. apply exec_D_digit. }
  unfold exec_part. split_opcode cmd;
    try congruence;
    try (eexists; reflexivity);
    try (destruct output; eexists; reflexivity);
    try (destruct arg; eexists; reflexivity).
Qed.

Lemma run_parts_returns (parts : list string) (output : list ascii) :
  exists output', run_parts parts output = Returns output'.
Proof.
  revert output. induction parts as [| part rest IH]; intros output.
  - eexists. reflexivity.
  - destruct (exec_part_returns output part) as [o Ho].
    cbn [run_parts]. rewrite Ho. cbn [bind]. apply IH.
Qed.

Lemma apply_returns (word rule : string) :
  exists result, apply_hashcat_rule word rule = Returns result.
Proof.
  unfold apply_hashcat_rule. destruct (Py.truthy word); cbn [negb].
  - destruct (run_parts_returns (Py.split rule) (Py.list_of word)) as [o Ho].
    rewrite Ho. eexists. reflexivity.
  - eexists. reflexivity.
Qed.

Lemma apply_empty_word (rule : string) :
  apply_hashcat_rule EmptyString rule = Returns EmptyString.
Proof. reflexivity. Qed.

Lemma apply_nonempty (word rule : string) :
  Py.truthy word = true ->
  apply_hashcat_rule word rule =
  (output <- run_parts (Py.split rule) (Py.list_of word) ;; Returns (Py.join output)).
Proof. intros H. unfold apply_hashcat_rule. rewrite H. reflexivity. Qed.

Lemma truthy_iff (s : string) : Py.truthy s = true <-> s <> EmptyString.
Proof. destruct s; simpl; split; congruence. Qed.

(** ** Unknown opcodes *)

Lemma exec_part_unknown (output : list ascii) (cmd : ascii) (arg : string) :
  known_opcode cmd = false ->
  exec_part output (String cmd arg) = Returns output.
Proof.
  unfold known_opcode. cbn [existsb Py.list_of list_ascii_of_string].
  intros H.
  repeat (apply orb_false_elim in H; destruct H as [?E H]).
  unfold exec_part.
  repeat match goal with
         | E : Ascii.eqb cmd ?x = false |- _ => rewrite E; clear E
         end.
  reflexivity.
Qed.

(** ** Only the first character of an argument counts *)

Lemma exec_part_first_argument_character
    (output : list ascii) (cmd a : ascii) (rest : string) :
  exec_part output (String cmd (String a rest)) =
  exec_part output (String cmd (String a EmptyString)).
Proof.
  destruct (Ascii.eqb_spec cmd "T") as [-> | HT].
  { now rewrite !exec_T_digit. }
  destruct (Ascii.eqb_spec cmd "D") as [-> | HD].
  { now rewrite !exec_D_digit. }
  unfold exec_part. split_opcode cmd; try congruence; reflexivity.
Qed.

(** ** Splitting a rule into its instructions *)

Lemma split_from_blank (cur s1 s2 : string) (b : ascii) :
  Py.isspace b = true ->
  Py.split_from cur (s1 ++ String b s2) =
  Py.split_from cur s1 ++ Py.split s2.
Proof.
  intros Hb. revert cur. induction s1 as [| c s1 IH]; intros cur.
  - cbn [String.append Py.split_from]. rewrite Hb.
    unfold Py.split. destruct (Py.truthy cur); reflexivity.
  - cbn [String.append Py.split_from].
    destruct (Py.isspace c).
    + destruct (Py.truthy cur); rewrite IH; reflexivity.
    + apply IH.
Qed.

Lemma split_blank (s1 s2 : string) (b : ascii) :
  Py.isspace b = true ->
  Py.split (s1 ++ String b s2) = Py.split s1 ++ Py.split s2.
Proof. intros Hb. unfold Py.split at 1 2. now apply split_from_blank. Qed.

Lemma run_parts_app (parts1 parts2 : list string) (output : list ascii) :
  run_parts (parts1 ++ parts2) output =
  (output' <- run_parts parts1 output ;; run_parts parts2 output').
Proof.
  revert output. induction parts1 as [| part rest IH]; intros output.
  - reflexivity.
  - cbn [app run_parts]. destruct (exec_part output part) as [o | e].
    + cbn [bind]. apply IH.
    + reflexivity.
Qed.

(** ** The loader keeps the rule lines *)

Lemma rstrip_nonblank_head (c : ascii) (s : string) :
  Py.isspace c = false -> Py.rstrip (String c s) = String c (Py.rstrip s).
Proof. intros H. cbn [Py.rstrip]. now rewrite H. Qed.

Lemma lstrip_cases (s : string) :
  (Py.lstrip s = EmptyString /\ first_nonblank s = None /\ is_blank_line s = true)
  \/ (exists c t, Py.lstrip s = String c t /\ Py.isspace c = false
                  /\ first_nonblank s = Some c /\ is_blank_line s = false).
Proof.
  induction s as [| c s IH].
  - left. repeat split.
  - unfold is_blank_line in *.
    cbn [Py.lstrip first_nonblank Py.list_of list_ascii_of_string forallb].
    destruct (Py.isspace c) eqn:Hc.
    + exact IH.
    + right. exists c, s. repeat split. exact Hc.
Qed.

Lemma keep_line_is_rule_line (line : string) :
  Py.truthy (Py.strip line) && negb (Py.startswith (Py.strip line) "#")
  = is_rule_line line.
Proof.
  unfold is_rule_line, is_comment_line, Py.strip.
  destruct (lstrip_cases line) as [(Hl & Hf & Hb) | (c & t & Hl & Hc & Hf & Hb)];
    rewrite Hl, Hf, Hb.
  - reflexivity.
  - rewrite (rstrip_nonblank_head _ _ Hc). reflexivity.
Qed.

Lemma read_loop_filter (file_lines rules : list string) :
  read_loop file_lines rules =
  rules ++ map Py.strip (filter is_rule_line file_lines).
Proof.
  revert rules. induction file_lines as [| line rest IH]; intros rules.
  - cbn. now rewrite app_nil_r.
  - cbn [read_loop filter]. rewrite keep_line_is_rule_line.
    destruct (is_rule_line line).
    + rewrite IH. unfold Py.append. cbn [map]. now rewrite <- app_assoc.
    + apply IH.
Qed.

Lemma load_readable (fs : filesystem) (path contents : string) :
  fs path = Some (Readable contents) ->
  load_hashcat_rules fs path = ([], Returns (ruleset_of_text contents)).
Proof.
  intros H. unfold load_hashcat_rules, os_path_exists, open_lines.
  rewrite H. cbn [negb]. now rewrite read_loop_filter.
Qed.

Lemma load_returns (fs : filesystem) (path : string) :
  exists rules, snd (load_hashcat_rules fs path) = Returns rules.
Proof.
  unfold load_hashcat_rules, os_path_exists, open_lines.
  destruct (fs path) as [[| contents | delivered] |]; cbn; eexists; reflexivity.
Qed.

(** * The claims *)

(** ** The empty word *)

(** C1, as stated, fails on the code: [apply("", rule("u $1"))] is the
    empty string, not ["1"]; the guard [if not word: return ""] returns
    before any instruction is run. *)
Lemma empty_word_append_not_applied :
  apply_hashcat_rule "" "u $1" = Returns ""
  /\ apply_hashcat_rule "" "u $1" <> Returns "1".
Proof. split; [reflexivity | discriminate]. Qed.

(** C1, amended: [apply_hashcat_rule] returns a string for every word
    and every rule, the empty word included; on the empty word it
    returns the empty string whatever the rule, appends included; on a
    word that is not empty the rule [u $1] uppercases the word and
    appends ["1"]. *)
Theorem apply_total_with_empty_word_guard :
  (forall word rule, exists result, apply_hashcat_rule word rule = Returns result)
  /\ (forall rule, apply_hashcat_rule "" rule = Returns "")
  /\ (forall word, word <> "" ->
        apply_hashcat_rule word "u $1"
        = Returns (Py.join (map Py.upper (Py.list_of word)) ++ "1")%string).
Proof.
  split; [exact apply_returns |]. split; [exact apply_empty_word |].
  intros word Hword. apply truthy_iff in Hword.
  rewrite (apply_nonempty _ _ Hword).
  change (Py.split "u $1") with ["u"; "$1"].
  cbn [run_parts exec_part bind]. cbn. unfold Py.append.
  now rewrite join_app.
Qed.

Lemma apply_total_with_empty_word_guard_witness :
  apply_hashcat_rule "alice" "u $1" = Returns "ALICE1".
Proof.
  apply (proj2 (proj2 apply_total_with_empty_word_guard) "alice").
  discriminate.
Defined.

(** ** A rule file that cannot be opened *)

(** C2, as stated, fails on the code: the loader does not raise when the
    rule file cannot be opened. *)
Lemma load_does_not_raise_when_unopenable :
  ~ raises_when_unopenable load_hashcat_rules.
Proof.
  intros H. destruct (H no_files "Unicorn3k.rule" eq_refl) as [e He].
  discriminate He.
Qed.

(** C2, amended: [load_hashcat_rules] never raises; for a path that does
    not exist it returns the empty rule list and prints nothing, for a
    file that cannot be opened it prints the read-error message and
    returns the empty rule list, and for a file that reads to its end
    it returns the rules of its text, whatever the text. *)
Theorem load_never_raises :
  forall (fs : filesystem) (path : string),
    (exists rules, snd (load_hashcat_rules fs path) = Returns rules)
    /\ (fs path = None -> load_hashcat_rules fs path = ([], Returns []))
    /\ (fs path = Some Unopenable ->
        load_hashcat_rules fs path = ([ReadErrorMessage OSError], Returns []))
    /\ (forall contents, fs path = Some (Readable contents) ->
        load_hashcat_rules fs path = ([], Returns (ruleset_of_text contents))).
Proof.
  intros fs path. split; [apply load_returns |].
  repeat split.
  - intros H. unfold load_hashcat_rules, os_path_exists. now rewrite H.
  - intros H. unfold load_hashcat_rules, os_path_exists, open_lines. now rewrite H.
  - intros contents. apply load_readable.
Qed.

Lemma load_never_raises_witness :
  load_hashcat_rules no_files "Unicorn3k.rule" = ([], Returns [])
  /\ load_hashcat_rules locked_rule_file "Unicorn3k.rule"
     = ([ReadErrorMessage OSError], Returns [])
  /\ load_hashcat_rules one_rule_file "Unicorn3k.rule"
     = ([], Returns ["u $1"; "@ $X"; "T0 D1"]).
Proof.
  split; [| split].
  - apply (proj1 (proj2 (load_never_raises no_files "Unicorn3k.rule"))).
    reflexivity.
  - apply (proj1 (proj2 (proj2 (load_never_raises locked_rule_file "Unicorn3k.rule")))).
    reflexivity.
  - apply (proj2 (proj2 (proj2 (load_never_raises one_rule_file "Unicorn3k.rule")))
             sample_rules).
    reflexivity.
Defined.

(** ** Unknown opcodes *)

(** C6: an instruction whose opcode is not in the table leaves the word
    unchanged and the loop goes on with the next instruction; the rule
    [@ $X] does what the rule [$X] does, which on a word that is not
    empty appends [X]; and a rule file with the line [@ $X] loads
    without raising and holds that rule. *)
Theorem unknown_opcode_is_skipped :
  (forall output cmd arg rest,
      known_opcode cmd = false ->
      exec_part output (String cmd arg) = Returns output
      /\ run_parts (String cmd arg :: rest) output = run_parts rest output)
  /\ (forall word, apply_hashcat_rule word "@ $X" = apply_hashcat_rule word "$X")
  /\ (forall word, word <> "" ->
        apply_hashcat_rule word "@ $X" = Returns (word ++ "X")%string)
  /\ (forall fs path contents line,
        fs path = Some (Readable contents) ->
        In line (Py.lines contents) -> Py.strip line = "@ $X" ->
        exists rules,
          load_hashcat_rules fs path = ([], Returns rules) /\ In "@ $X" rules).
Proof.
  split; [| split; [| split]].
  - intros output cmd arg rest H.
    pose proof (exec_part_unknown output cmd arg H) as E.
    split; [exact E |]. cbn [run_parts]. now rewrite E.
  - intros word. unfold apply_hashcat_rule.
    destruct (Py.truthy word); reflexivity.
  - intros word Hword. apply truthy_iff in Hword.
    rewrite (apply_nonempty _ _ Hword).
    change (Py.split "@ $X") with ["@"; "$X"].
    cbn. unfold Py.append. rewrite join_app, join_list_of. reflexivity.
  - intros fs path contents line Hfs Hline Hstrip.
    exists (ruleset_of_text contents). split; [now apply load_readable |].
    unfold ruleset_of_text. rewrite <- Hstrip. apply in_map.
    apply filter_In. split; [exact Hline |].
    rewrite <- keep_line_is_rule_line, Hstrip. reflexivity.
Qed.

Lemma unknown_opcode_is_skipped_witness :
  (exec_part (Py.list_of "alice") "@" = Returns (Py.list_of "alice")
   /\ run_parts ["@"; "$X"] (Py.list_of "alice")
      = run_parts ["$X"] (Py.list_of "alice"))
  /\ apply_hashcat_rule "alice" "@ $X" = Returns "aliceX"
  /\ exists rules,
       load_hashcat_rules one_rule_file "Unicorn3k.rule" = ([], Returns rules)
       /\ In "@ $X" rules.
Proof.
  split; [| split].
  - apply (proj1 unknown_opcode_is_skipped (Py.list_of "alice") "@"%char "" ["$X"]).
    reflexivity.
  - apply (proj1 (proj2 (proj2 unknown_opcode_is_skipped)) "alice").
    discriminate.
  - apply (proj2 (proj2 (proj2 unknown_opcode_is_skipped))
             one_rule_file "Unicorn3k.rule" sample_rules
             ("@ $X" ++ String "010" "")%string).
    + reflexivity.
    + cbv. tauto.
    + reflexivity.
Defined.

(** ** Loading a rule file *)

(** C7: a rule file that reads to its end loads as one rule per line
    that is neither blank nor a comment (a comment being a line whose
    first non-blank character is [#]), in file order: the rule list is
    the list of those lines, each stripped, so it has as many rules as
    there are such lines; and loading the same contents again, from any
    path of any file system, gives the same result. *)
Theorem load_keeps_rule_lines_in_order :
  forall fs path contents,
    fs path = Some (Readable contents) ->
    load_hashcat_rules fs path
    = ([], Returns (map Py.strip (filter is_rule_line (Py.lines contents))))
    /\ (forall rules,
          snd (load_hashcat_rules fs path) = Returns rules ->
          List.length rules
          = List.length (filter is_rule_line (Py.lines contents)))
    /\ (forall fs' path',
          fs' path' = Some (Readable contents) ->
          load_hashcat_rules fs' path' = load_hashcat_rules fs path).
Proof.
  intros fs path contents Hfs.
  pose proof (load_readable fs path contents Hfs) as Hload.
  unfold ruleset_of_text in Hload.
  split; [exact Hload |]. split.
  - intros rules Hrules. rewrite Hload in Hrules. cbn in Hrules.
    inversion Hrules. apply length_map.
  - intros fs' path' Hfs'. rewrite Hload.
    apply (load_readable fs' path' contents Hfs').
Qed.

Lemma load_keeps_rule_lines_in_order_witness :
  load_hashcat_rules one_rule_file "Unicorn3k.rule"
  = ([], Returns ["u $1"; "@ $X"; "T0 D1"]).
Proof.
  apply (proj1 (load_keeps_rule_lines_in_order
                  one_rule_file "Unicorn3k.rule" sample_rules eq_refl)).
Defined.

(** ** Uppercasing twice, reversing twice *)

(** C8: for every word, the rule [u] applied to the result of the rule
    [u] gives what one application gives, and the rule [r] applied to
    the result of the rule [r] gives the word back. *)
Theorem upper_idempotent_reverse_involutive :
  forall word,
    (w <- apply_hashcat_rule word "u" ;; apply_hashcat_rule w "u")
    = apply_hashcat_rule word "u"
    /\ (w <- apply_hashcat_rule word "r" ;; apply_hashcat_rule w "r")
       = Returns word.
Proof.
  intros word. destruct word as [| c s]; [split; reflexivity |].
  assert (Hu : apply_hashcat_rule (String c s) "u"
               = Returns (Py.join (map Py.upper (Py.list_of (String c s)))))
    by reflexivity.
  assert (Hr : apply_hashcat_rule (String c s) "r"
               = Returns (Py.join (rev (Py.list_of (String c s)))))
    by reflexivity.
  split.
  - rewrite Hu. cbn [bind].
    rewrite apply_nonempty by reflexivity.
    change (Py.split "u") with ["u"]. cbn [run_parts exec_part bind].
    change (Ascii.eqb "u" ":") with false. change (Ascii.eqb "u" "l") with false.
    change (Ascii.eqb "u" "u") with true. cbn iota. cbn [bind].
    rewrite list_of_join, map_map.
    do 2 f_equal. apply map_ext. intros a. apply upper_idempotent.
  - rewrite Hr. cbn [bind].
    rewrite apply_nonempty.
    + change (Py.split "r") with ["r"]. rewrite list_of_join.
      change (run_parts ["r"] (rev (Py.list_of (String c s))))
        with (Returns (A := list ascii) (rev (rev (Py.list_of (String c s))))).
      cbn [bind]. now rewrite rev_involutive, join_list_of.
    + rewrite truthy_join.
      destruct (rev (Py.list_of (String c s))) eqn:E; [| reflexivity].
      apply (f_equal (@List.length ascii)) in E. rewrite length_rev in E.
      discriminate E.
Qed.

(** ** A long argument *)

(** C10: of an argument of more than one character only the first
    character is used: every instruction does with the argument what it
    does with its first character alone; [$] and [+] append that
    character, [^] and [-] put it in front, [T] and [D] read it as the
    position.  [$ab] appends only [a], and [T12] toggles position 1,
    also in a word that has a position 18. *)
Theorem only_first_argument_character_used :
  (forall output cmd a rest,
      exec_part output (String cmd (String a rest))
      = exec_part output (String cmd (String a "")))
  /\ (forall output a rest,
        exec_part output (String "$" (String a rest)) = Returns (output ++ [a])
        /\ exec_part output (String "+" (String a rest)) = Returns (output ++ [a])
        /\ exec_part output (String "^" (String a rest)) = Returns (a :: output)
        /\ exec_part output (String "-" (String a rest)) = Returns (a :: output))
  /\ (forall output d rest,
        exec_part output (String "T" (String d rest))
        = exec_part output (String "T" (String d ""))
        /\ exec_part output (String "D" (String d rest))
           = exec_part output (String "D" (String d "")))
  /\ apply_hashcat_rule "alice" "$ab" = Returns "alicea"
  /\ apply_hashcat_rule "alice" "T12" = Returns "aLice"
  /\ apply_hashcat_rule "abcdefghijklmnopqrstu" "T12"
     = Returns "aBcdefghijklmnopqrstu".
Proof.
  split; [exact exec_part_first_argument_character |].
  split; [| split; [| repeat split]].
  - intros output a rest. repeat split;
      cbn; unfold Py.append; rewrite ?insert_front; reflexivity.
  - intros output d rest.
    split; apply exec_part_first_argument_character.
Qed.

(** * Further properties of the engine and of the generator around it *)

(** ** Characters *)

Lemma lower_upper (c : ascii) : Py.lower (Py.upper c) = Py.lower c.
Proof. all_characters c; reflexivity. Qed.

Lemma lower_lower (c : ascii) : Py.lower (Py.lower c) = Py.lower c.
Proof. all_characters c; reflexivity. Qed.

Lemma upper_lower (c : ascii) : Py.upper (Py.lower c) = Py.upper c.
Proof. all_characters c; reflexivity. Qed.

Lemma lower_toggle_case (c : ascii) : Py.lower (toggle_case c) = Py.lower c.
Proof. all_characters c; reflexivity. Qed.

Lemma toggle_case_involutive (c : ascii) : toggle_case (toggle_case c) = c.
Proof. all_characters c; reflexivity. Qed.

Lemma length_join (l : list ascii) : String.length (Py.join l) = List.length l.
Proof. induction l as [| c l IH]; simpl; [reflexivity | now rewrite IH]. Qed.

Lemma length_list_of (s : string) : List.length (Py.list_of s) = String.length s.
Proof. induction s as [| c s IH]; simpl; [reflexivity | now rewrite IH]. Qed.

(** ** The instructions without a position, one by one *)

Lemma exec_c (output : list ascii) (arg : string) :
  exec_part output (String "c" arg)
  = Returns match output with
            | [] => []
            | a :: rest => Py.upper (Py.lower a) :: map Py.lower rest
            end.
Proof. destruct output; reflexivity. Qed.

Lemma exec_C (output : list ascii) (arg : string) :
  exec_part output (String "C" arg)
  = Returns match output with
            | [] => []
            | a :: rest => Py.lower (Py.upper a) :: map Py.upper rest
            end.
Proof. destruct output; reflexivity. Qed.

Lemma exec_drop_first (output : list ascii) (arg : string) :
  exec_part output (String "[" arg) = Returns (tl output).
Proof. destruct output; reflexivity. Qed.

Lemma exec_drop_last (output : list ascii) (arg : string) :
  exec_part output (String "]" arg) = Returns (removelast output).
Proof. destruct output; reflexivity. Qed.

Lemma exec_append (output : list ascii) (cmd : ascii) (arg : string) :
  cmd = "$"%char \/ cmd = "+"%char ->
  exec_part output (String cmd arg)
  = Returns match arg with
            | EmptyString => output
            | String a _ => output ++ [a]
            end.
Proof. intros [-> | ->]; destruct arg; reflexivity. Qed.

Lemma exec_prepend (output : list ascii) (cmd : ascii) (arg : string) :
  cmd = "^"%char \/ cmd = "-"%char ->
  exec_part output (String cmd arg)
  = Returns match arg with
            | EmptyString => output
            | String a _ => a :: output
            end.
Proof.
  intros [-> | ->]; destruct arg; cbn; rewrite ?insert_front; reflexivity.
Qed.

Lemma length_replaced (output : list ascii) (n : nat) (x y : ascii) :
  nth_error output n = Some x ->
  List.length (firstn n output ++ y :: skipn (S n) output) = List.length output.
Proof.
  intros H. assert (Hn : (n < List.length output)%nat)
    by (apply nth_error_Some; congruence).
  rewrite length_app. cbn [List.length]. rewrite length_firstn, length_skipn. lia.
Qed.

Lemma length_duplicated (output : list ascii) (p : nat) (x : ascii) :
  nth_error output p = Some x ->
  List.length (firstn (S p) output ++ x :: skipn (S p) output)
  = S (List.length output).
Proof.
  intros H. assert (Hp : (p < List.length output)%nat)
    by (apply nth_error_Some; congruence).
  rewrite length_app. cbn [List.length]. rewrite length_firstn, length_skipn. lia.
Qed.

Lemma length_removelast_le (output : list ascii) :
  (List.length (removelast output) <= List.length output
   /\ List.length output <= S (List.length (removelast output)))%nat.
Proof.
  rewrite removelast_firstn_len, length_firstn. lia.
Qed.

(** One instruction moves the length of the word by one at most. *)
Lemma exec_part_length (output output' : list ascii) (part : string) :
  exec_part output part = Returns output' ->
  (List.length output' <= S (List.length output)
   /\ List.length output <= S (List.length output'))%nat.
Proof.
  destruct part as [| cmd arg].
  { intros H. inversion H. lia. }
  destruct (Ascii.eqb_spec cmd "T") as [-> | HT].
  { destruct arg as [| d rest].
    - rewrite exec_position_no_argument by reflexivity. intros H; inversion H; lia.
    - rewrite exec_T_digit. intros H. injection H as <-.
      destruct (hex_digit d) as [n |]; [| lia].
      destruct (nth_error output n) as [x |] eqn:Hx; [| lia].
      rewrite (length_replaced _ _ _ _ Hx). lia. }
  destruct (Ascii.eqb_spec cmd "D") as [-> | HD].
  { destruct arg as [| d rest].
    - rewrite exec_position_no_argument by reflexivity. intros H; inversion H; lia.
    - rewrite exec_D_digit. intros H. injection H as <-.
      destruct (decimal_digit d) as [[| p] |]; try lia.
      destruct (nth_error output p) as [x |] eqn:Hx; [| lia].
      pose proof (length_duplicated _ _ _ Hx) as L.
      cbn [firstn skipn] in L. lia. }
  destruct (Ascii.eqb_spec cmd "c") as [-> | Hc].
  { rewrite exec_c. intros H; inversion H.
    destruct output; cbn [List.length]; rewrite ?length_map; lia. }
  destruct (Ascii.eqb_spec cmd "C") as [-> | HC].
  { rewrite exec_C. intros H; inversion H.
    destruct output; cbn [List.length]; rewrite ?length_map; lia. }
  destruct (Ascii.eqb_spec cmd "[") as [-> | Hb].
  { rewrite exec_drop_first. intros H; inversion H.
    destruct output; cbn [List.length tl]; lia. }
  destruct (Ascii.eqb_spec cmd "]") as [-> | Hb'].
  { rewrite exec_drop_last. intros H; inversion H.
    pose proof (length_removelast_le output). lia. }
  unfold exec_part. split_opcode cmd; try congruence;
    intros H;
    try (destruct arg; cbn in H);
    inversion H;
    unfold Py.append; rewrite ?insert_front;
    rewrite ?length_map, ?length_rev, ?length_app; cbn [List.length]; lia.
Qed.

Lemma run_parts_length (parts : list string) (output output' : list ascii) :
  run_parts parts output = Returns output' ->
  (List.length output' <= List.length output + List.length parts
   /\ List.length output <= List.length output' + List.length parts)%nat.
Proof.
  revert output. induction parts as [| part rest IH]; intros output H.
  - inversion H. cbn [List.length]. lia.
  - cbn [run_parts] in H.
    destruct (exec_part output part) as [o | e] eqn:E; [| discriminate].
    cbn [bind] in H. apply exec_part_length in E. apply IH in H.
    cbn [List.length]. lia.
Qed.

Lemma exec_colon (output : list ascii) (arg : string) :
  exec_part output (String ":" arg) = Returns output.
Proof. reflexivity. Qed.

Lemma exec_l (output : list ascii) (arg : string) :
  exec_part output (String "l" arg) = Returns (map Py.lower output).
Proof. reflexivity. Qed.

Lemma exec_u (output : list ascii) (arg : string) :
  exec_part output (String "u" arg) = Returns (map Py.upper output).
Proof. reflexivity. Qed.

Lemma exec_t (output : list ascii) (arg : string) :
  exec_part output (String "t" arg) = Returns (map toggle_case output).
Proof. reflexivity. Qed.

Lemma exec_r (output : list ascii) (arg : string) :
  exec_part output (String "r" arg) = Returns (rev output).
Proof. reflexivity. Qed.

Lemma split_at_nth {A : Type} (l : list A) (n : nat) (x : A) :
  nth_error l n = Some x -> l = firstn n l ++ x :: skipn (S n) l.
Proof.
  revert n. induction l as [| h t IH]; intros [| n] H; cbn in *;
    try discriminate.
  - now inversion H.
  - f_equal. now apply IH.
Qed.

Lemma parts_of_replaced {A : Type} (l1 l2 : list A) (y : A) :
  nth_error (l1 ++ y :: l2) (List.length l1) = Some y
  /\ firstn (List.length l1) (l1 ++ y :: l2) = l1
  /\ skipn (S (List.length l1)) (l1 ++ y :: l2) = l2.
Proof.
  induction l1 as [| h t (IH1 & IH2 & IH3)]; cbn.
  - repeat split.
  - repeat split; [exact IH1 | now rewrite IH2 | exact IH3].
Qed.

Lemma removelast_by_rev {A : Type} (l : list A) :
  rev (tl (rev l)) = removelast l.
Proof.
  destruct l as [| h t] using rev_ind; [reflexivity |].
  rewrite rev_app_distr, removelast_last. cbn. apply rev_involutive.
Qed.

Lemma tl_by_rev {A : Type} (l : list A) :
  rev (removelast (rev l)) = tl l.
Proof.
  destruct l as [| h t]; [reflexivity |].
  cbn [rev tl]. rewrite removelast_last. apply rev_involutive.
Qed.

(** ** Instructions that change case only *)

Lemma case_opcode_cases (cmd : ascii) :
  case_opcode cmd = true ->
  cmd = ":"%char \/ cmd = "l"%char \/ cmd = "u"%char \/ cmd = "c"%char
  \/ cmd = "C"%char \/ cmd = "t"%char \/ cmd = "T"%char.
Proof.
  unfold case_opcode. cbn [existsb Py.list_of list_ascii_of_string].
  rewrite orb_false_r. intros H.
  repeat (apply orb_true_iff in H; destruct H as [H | H]);
    apply Ascii.eqb_eq in H; auto 10.
Qed.

Lemma exec_part_same_letters (output output' : list ascii) (part : string) :
  case_instruction part = true ->
  exec_part output part = Returns output' ->
  same_letters output output'.
Proof.
  unfold same_letters. destruct part as [| cmd arg]; cbn [case_instruction].
  { intros _ H. now inversion H. }
  intros Hcase. apply case_opcode_cases in Hcase.
  destruct Hcase as [-> | [-> | [-> | [-> | [-> | [-> | ->]]]]]].
  - rewrite exec_colon. intros H. now inversion H.
  - rewrite exec_l. intros H. injection H as <-. rewrite map_map.
    apply map_ext. intros a. now rewrite lower_lower.
  - rewrite exec_u. intros H. injection H as <-. rewrite map_map.
    apply map_ext. intros a. now rewrite lower_upper.
  - rewrite exec_c. intros H. injection H as <-.
    destruct output as [| a rest]; [reflexivity |]. cbn [map].
    rewrite lower_upper, lower_lower, map_map. f_equal.
    apply map_ext. intros b. now rewrite lower_lower.
  - rewrite exec_C. intros H. injection H as <-.
    destruct output as [| a rest]; [reflexivity |]. cbn [map].
    rewrite lower_lower, lower_upper, map_map. f_equal.
    apply map_ext. intros b. now rewrite lower_upper.
  - rewrite exec_t. intros H. injection H as <-. rewrite map_map.
    apply map_ext. intros a. now rewrite lower_toggle_case.
  - destruct arg as [| d rest].
    + rewrite exec_position_no_argument by reflexivity.
      intros H. now inversion H.
    + rewrite exec_T_digit. intros H. injection H as <-.
      destruct (hex_digit d) as [n |]; [| reflexivity].
      destruct (nth_error output n) as [x |] eqn:Hx; [| reflexivity].
      rewrite (split_at_nth _ _ _ Hx) at 1.
      rewrite !map_app. cbn [map]. now rewrite lower_toggle_case.
Qed.

Lemma run_parts_same_letters (parts : list string) (output output' : list ascii) :
  (forall part, In part parts -> case_instruction part = true) ->
  run_parts parts output = Returns output' ->
  same_letters output output'.
Proof.
  revert output. induction parts as [| part rest IH]; intros output Hall H.
  - inversion H. reflexivity.
  - cbn [run_parts] in H.
    destruct (exec_part output part) as [o | e] eqn:E; [| discriminate].
    cbn [bind] in H.
    apply exec_part_same_letters in E; [| apply Hall; now left].
    apply IH in H; [| intros p Hp; apply Hall; now right].
    unfold same_letters in *. congruence.
Qed.

(** The four instructions that set the case of the whole word depend
    on the word up to case only. *)
Lemma exec_setting_case (output output' : list ascii) (cmd : ascii) (arg : string) :
  same_letters output output' ->
  cmd = "l"%char \/ cmd = "u"%char \/ cmd = "c"%char \/ cmd = "C"%char ->
  exec_part output' (String cmd arg) = exec_part output (String cmd arg).
Proof.
  unfold same_letters. intros Hsame [-> | [-> | [-> | ->]]].
  - rewrite !exec_l. now rewrite Hsame.
  - rewrite !exec_u. f_equal.
    rewrite <- (map_ext _ _ upper_lower output),
            <- (map_ext _ _ upper_lower output').
    rewrite <- !map_map with (f := Py.lower) (g := Py.upper).
    now rewrite Hsame.
  - rewrite !exec_c. f_equal.
    destruct output as [| a t], output' as [| a' t']; cbn [map] in Hsame;
      try discriminate; [reflexivity |].
    injection Hsame as Ha Ht. now rewrite Ha, Ht.
  - rewrite !exec_C. f_equal.
    destruct output as [| a t], output' as [| a' t']; cbn [map] in Hsame;
      try discriminate; [reflexivity |].
    injection Hsame as Ha Ht. rewrite !lower_upper, Ha. f_equal.
    rewrite <- (map_ext _ _ upper_lower t), <- (map_ext _ _ upper_lower t').
    rewrite <- !map_map with (f := Py.lower) (g := Py.upper).
    now rewrite Ht.
Qed.

(** ** The executor, beyond the instruction table *)

Lemma run_parts_colons (parts : list string) (output : list ascii) :
  (forall part, In part parts -> colon_instruction part = true) ->
  run_parts parts output = Returns output.
Proof.
  induction parts as [| part rest IH]; intros Hall; [reflexivity |].
  cbn [run_parts].
  assert (E : exec_part output part = Returns output).
  { specialize (Hall part (or_introl eq_refl)).
    destruct part as [| cmd arg]; [reflexivity |].
    cbn [colon_instruction] in Hall. apply Ascii.eqb_eq in Hall. subst cmd.
    apply exec_colon. }
  rewrite E. cbn [bind]. apply IH. intros p Hp. apply Hall. now right.
Qed.

(** X1: a rule whose instructions all have the opcode [:], whatever
    follows the opcode, and the rule with no instruction at all, return
    every word unchanged. *)
Theorem colon_rule_is_identity :
  forall word rule,
    (forall part, In part (Py.split rule) -> colon_instruction part = true) ->
    apply_hashcat_rule word rule = Returns word.
Proof.
  intros word rule Hall. destruct (Py.truthy word) eqn:Hword.
  - rewrite (apply_nonempty _ _ Hword), (run_parts_colons _ _ Hall).
    cbn [bind]. now rewrite join_list_of.
  - destruct word; [reflexivity | discriminate].
Qed.

Lemma colon_rule_is_identity_witness :
  apply_hashcat_rule "alice" ": :x  :" = Returns "alice".
Proof.
  apply colon_rule_is_identity.
  intros part H. cbn in H.
  destruct H as [<- | [<- | [<- | []]]]; reflexivity.
Defined.

(** In the ASCII engine a rule moves the length of a word by at most the
    number of its instructions. *)
Lemma ascii_rule_moves_length (word rule result : string) :
  apply_hashcat_rule word rule = Returns result ->
  (String.length result <= String.length word + List.length (Py.split rule)
   /\ String.length word <= String.length result + List.length (Py.split rule))%nat.
Proof.
  intros H. destruct (Py.truthy word) eqn:Hword.
  - rewrite (apply_nonempty _ _ Hword) in H.
    destruct (run_parts (Py.split rule) (Py.list_of word)) as [o | e] eqn:E;
      [| discriminate].
    cbn [bind] in H. injection H as <-.
    apply run_parts_length in E.
    rewrite length_join. rewrite length_list_of in E. exact E.
  - destruct word; [| discriminate].
    rewrite apply_empty_word in H. injection H as <-. cbn. lia.
Qed.

(** In the ASCII engine a rule of case instructions keeps the letters. *)
Lemma ascii_case_rule_keeps_letters (word rule result : string) :
  (forall part, In part (Py.split rule) -> case_instruction part = true) ->
  apply_hashcat_rule word rule = Returns result ->
  same_letters (Py.list_of word) (Py.list_of result)
  /\ String.length result = String.length word.
Proof.
  intros Hall H.
  assert (Hsame : same_letters (Py.list_of word) (Py.list_of result)).
  { destruct (Py.truthy word) eqn:Hword.
    - rewrite (apply_nonempty _ _ Hword) in H.
      destruct (run_parts (Py.split rule) (Py.list_of word)) as [o | e] eqn:E;
        [| discriminate].
      cbn [bind] in H. injection H as <-. rewrite list_of_join.
      now apply (run_parts_same_letters _ _ _ Hall).
    - destruct word; [| discriminate].
      rewrite apply_empty_word in H. injection H as <-. reflexivity. }
  split; [exact Hsame |].
  unfold same_letters in Hsame.
  apply (f_equal (@List.length ascii)) in Hsame.
  rewrite !length_map, !length_list_of in Hsame. now symmetry.
Qed.

(** X5: appending a character and then dropping the last one, or
    prepending a character and then dropping the first one, returns
    every word unchanged. *)
Theorem add_then_drop_is_identity :
  forall word a,
    Py.isspace a = false ->
    apply_hashcat_rule word (String "$" (String a " ]")) = Returns word
    /\ apply_hashcat_rule word (String "^" (String a " [")) = Returns word.
Proof.
  intros word a Ha.
  assert (S1 : Py.split (String "$" (String a " ]"))
               = [String "$" (String a ""); "]"]).
  { unfold Py.split. cbn [Py.split_from]. rewrite Ha. reflexivity. }
  assert (S2 : Py.split (String "^" (String a " ["))
               = [String "^" (String a ""); "["]).
  { unfold Py.split. cbn [Py.split_from]. rewrite Ha. reflexivity. }
  destruct (Py.truthy word) eqn:Hword.
  - rewrite !(apply_nonempty _ _ Hword), S1, S2. cbn [run_parts].
    rewrite (exec_append _ "$") by now left.
    rewrite (exec_prepend _ "^") by now left.
    cbn [bind]. rewrite exec_drop_last, exec_drop_first. cbn [bind tl].
    now rewrite removelast_last, join_list_of.
  - destruct word; [split; reflexivity | discriminate].
Qed.

Lemma add_then_drop_is_identity_witness :
  apply_hashcat_rule "alice" "$1 ]" = Returns "alice"
  /\ apply_hashcat_rule "alice" "^1 [" = Returns "alice".
Proof. apply (add_then_drop_is_identity "alice" "1"%char). reflexivity. Defined.

Lemma exec_T_twice (output : list ascii) (d : ascii) (rest rest' : string) :
  run_parts [String "T" (String d rest); String "T" (String d rest')] output
  = Returns output.
Proof.
  cbn [run_parts]. rewrite exec_T_digit.
  destruct (hex_digit d) as [n |] eqn:Hd; cbn [bind].
  2:{ rewrite exec_T_digit, Hd. reflexivity. }
  destruct (nth_error output n) as [x |] eqn:Hx.
  2:{ rewrite exec_T_digit, Hd, Hx. reflexivity. }
  rewrite exec_T_digit, Hd. cbn [bind].
  assert (Hn : List.length (firstn n output) = n).
  { apply firstn_length_le.
    assert ((n < List.length output)%nat) by (apply nth_error_Some; congruence).
    lia. }
  destruct (parts_of_replaced (firstn n output) (skipn (S n) output)
                              (toggle_case x)) as (P1 & P2 & P3).
  rewrite Hn in P1, P2, P3. rewrite P1, P2, P3, toggle_case_involutive.
  now rewrite <- (split_at_nth _ _ _ Hx).
Qed.

(** In the ASCII engine toggling twice gives the word back. *)
Lemma ascii_toggling_twice :
  forall word,
    apply_hashcat_rule word "t t" = Returns word
    /\ (forall d, Py.isspace d = false ->
          apply_hashcat_rule word
            (String "T" (String d (String " " (String "T" (String d "")))))
          = Returns word).
Proof.
  intros word. destruct (Py.truthy word) eqn:Hword.
  2:{ destruct word; [split; [| intros]; reflexivity | discriminate]. }
  split.
  - rewrite (apply_nonempty _ _ Hword).
    change (Py.split "t t") with ["t"; "t"]. cbn [run_parts].
    rewrite exec_t. cbn [bind]. rewrite exec_t. cbn [bind].
    rewrite map_map.
    rewrite (map_ext _ (fun c => c) toggle_case_involutive), map_id.
    now rewrite join_list_of.
  - intros d Hd. rewrite (apply_nonempty _ _ Hword).
    assert (S1 : Py.split (String "T" (String d (String " " (String "T" (String d "")))))
                 = [String "T" (String d ""); String "T" (String d "")]).
    { unfold Py.split. cbn [Py.split_from]. rewrite Hd. reflexivity. }
    rewrite S1, exec_T_twice. cbn [bind]. now rewrite join_list_of.
Qed.

(** In the ASCII engine a full case instruction forgets the case
    changes before it. *)
Lemma ascii_setting_case_forgets :
  forall word rule op,
    (forall part, In part (Py.split rule) -> case_instruction part = true) ->
    In op ["l"; "u"; "c"; "C"] ->
    apply_hashcat_rule word (rule ++ " " ++ op) = apply_hashcat_rule word op.
Proof.
  intros word rule op Hall Hop.
  destruct (Py.truthy word) eqn:Hword.
  2:{ destruct word; [reflexivity | discriminate]. }
  rewrite !(apply_nonempty _ _ Hword).
  change (rule ++ " " ++ op)%string with (rule ++ String " " op)%string.
  rewrite (split_blank rule op " " eq_refl), run_parts_app.
  destruct (run_parts_returns (Py.split rule) (Py.list_of word)) as [o Ho].
  rewrite Ho. cbn [bind].
  pose proof (run_parts_same_letters _ _ _ Hall Ho) as Hsame.
  assert (Hexec : exists cmd, Py.split op = [String cmd ""]
            /\ (cmd = "l" \/ cmd = "u" \/ cmd = "c" \/ cmd = "C")%char).
  { cbn in Hop. destruct Hop as [<- | [<- | [<- | [<- | []]]]];
      eexists; (split; [reflexivity | auto]). }
  destruct Hexec as (cmd & -> & Hcmd). cbn [run_parts].
  now rewrite (exec_setting_case _ _ cmd "" Hsame Hcmd).
Qed.

(** X8: between two reversals the two ends change places: [r [ r] does
    what [ ] ] does, [r ] r] what [ [ ] does, and [r ^X r] what [$X]
    does. *)
Theorem reversal_swaps_the_ends :
  forall word,
    apply_hashcat_rule word "r [ r" = apply_hashcat_rule word "]"
    /\ apply_hashcat_rule word "r ] r" = apply_hashcat_rule word "["
    /\ (forall a, Py.isspace a = false ->
          apply_hashcat_rule word (String "r" (String " " (String "^" (String a " r"))))
          = apply_hashcat_rule word (String "$" (String a ""))).
Proof.
  intros word. destruct (Py.truthy word) eqn:Hword.
  2:{ destruct word; [repeat split | discriminate]. }
  rewrite !(apply_nonempty _ _ Hword).
  change (Py.split "r [ r") with ["r"; "["; "r"].
  change (Py.split "r ] r") with ["r"; "]"; "r"].
  change (Py.split "]") with ["]"]. change (Py.split "[") with ["["].
  cbn [run_parts].
  rewrite !exec_r. cbn [bind]. rewrite !exec_drop_first, !exec_drop_last.
  cbn [bind]. rewrite !exec_r. cbn [bind].
  rewrite removelast_by_rev, tl_by_rev.
  split; [reflexivity |]. split; [reflexivity |].
  intros a Ha. rewrite !(apply_nonempty _ _ Hword).
  assert (S1 : Py.split (String "r" (String " " (String "^" (String a " r"))))
               = ["r"; String "^" (String a ""); "r"]).
  { unfold Py.split. cbn [Py.split_from]. rewrite Ha. reflexivity. }
  assert (S2 : Py.split (String "$" (String a "")) = [String "$" (String a "")]).
  { unfold Py.split. cbn [Py.split_from]. rewrite Ha. reflexivity. }
  rewrite S1, S2. cbn [run_parts].
  rewrite exec_r. cbn [bind].
  rewrite (exec_prepend _ "^") by now left. cbn [bind].
  rewrite exec_r. cbn [bind].
  rewrite (exec_append _ "$") by now left. cbn [bind rev].
  now rewrite rev_involutive.
Qed.

Lemma reversal_swaps_the_ends_witness :
  apply_hashcat_rule "alice" "r ^9 r" = apply_hashcat_rule "alice" "$9".
Proof.
  apply (proj2 (proj2 (reversal_swaps_the_ends "alice")) "9"%char). reflexivity.
Defined.

(** ** The rule stage of the generator *)

Lemma keep_test_spec (base m : string) :
  Py.truthy m && negb (m =? base)%string = true <-> kept_mutation base m.
Proof.
  unfold kept_mutation. rewrite andb_true_iff, negb_true_iff, truthy_iff.
  rewrite String.eqb_neq. reflexivity.
Qed.

Lemma rules_loop_produces (base : string) (rules cand : list string) :
  exists produced,
    rules_loop base rules cand = Returns (cand ++ produced)
    /\ forall m, In m produced <->
         exists rule, In rule rules
                      /\ apply_hashcat_rule base rule = Returns m
                      /\ kept_mutation base m.
Proof.
  revert cand. induction rules as [| rule rest IH]; intros cand.
  - exists []. split; [cbn; now rewrite app_nil_r |].
    intros m. split; [intros [] | intros (r & [] & _)].
  - cbn [rules_loop].
    destruct (apply_returns base rule) as [m0 Hm0]. rewrite Hm0. cbn [bind].
    destruct (Py.truthy m0 && negb (m0 =? base)%string) eqn:Hkeep.
    + destruct (IH (Py.append cand m0)) as (produced & Hrun & Hin).
      exists (m0 :: produced). split.
      * rewrite Hrun. unfold Py.append. now rewrite <- app_assoc.
      * intros m. cbn [In]. rewrite Hin. split.
        -- intros [<- | (r & Hr & Ha & Hk)].
           ++ exists rule. split; [now left |]. split; [exact Hm0 |].
              now apply keep_test_spec.
           ++ exists r. split; [now right |]. split; assumption.
        -- intros (r & [<- | Hr] & Ha & Hk).
           ++ left. congruence.
           ++ right. exists r. split; [assumption |]. split; assumption.
    + destruct (IH cand) as (produced & Hrun & Hin).
      exists produced. split; [exact Hrun |].
      intros m. rewrite Hin. split.
      * intros (r & Hr & Ha & Hk). exists r. split; [now right |]. split; assumption.
      * intros (r & [<- | Hr] & Ha & Hk).
        -- rewrite Hm0 in Ha. injection Ha as <-.
           apply keep_test_spec in Hk. congruence.
        -- exists r. split; [assumption |]. split; assumption.
Qed.

Lemma base_test_spec (base : string) :
  Py.truthy base && (3 <? PyText.len base)%Z = true
  <-> (3 < String.length base)%nat.
Proof.
  unfold PyText.len. rewrite andb_true_iff, Z.ltb_lt. split.
  - intros [_ H]. lia.
  - intros H. split; [destruct base; [cbn in H; lia | reflexivity] | lia].
Qed.

Lemma bases_loop_produces (bases rules cand : list string) :
  exists produced,
    bases_loop bases rules cand = Returns (cand ++ produced)
    /\ forall m, In m produced <->
         exists base rule,
           In base bases /\ In rule rules
           /\ (3 < String.length base)%nat
           /\ apply_hashcat_rule base rule = Returns m
           /\ kept_mutation base m.
Proof.
  revert cand. induction bases as [| base rest IH]; intros cand.
  - exists []. split; [cbn; now rewrite app_nil_r |].
    intros m. split; [intros [] | intros (b & r & [] & _)].
  - cbn [bases_loop].
    destruct (Py.truthy base && (3 <? PyText.len base)%Z) eqn:Hbase.
    + destruct (rules_loop_produces base rules cand) as (p1 & Hrun1 & Hin1).
      rewrite Hrun1. cbn [bind].
      destruct (IH (cand ++ p1)) as (p2 & Hrun2 & Hin2).
      exists (p1 ++ p2). split; [rewrite Hrun2; now rewrite <- app_assoc |].
      intros m. rewrite in_app_iff, Hin1, Hin2. split.
      * intros [(r & Hr & Ha & Hk) | (b & r & Hb & Hr & Hl & Ha & Hk)].
        -- exists base, r. repeat split; auto.
           ++ now left.
           ++ now apply base_test_spec.
           ++ apply Hk.
           ++ apply Hk.
        -- exists b, r. repeat split; auto; [now right | apply Hk | apply Hk].
      * intros (b & r & [<- | Hb] & Hr & Hl & Ha & Hk).
        -- left. exists r. split; [assumption |]. split; assumption.
        -- right. exists b, r. repeat (split; [assumption |]). assumption.
    + destruct (IH cand) as (p2 & Hrun2 & Hin2).
      exists p2. split; [exact Hrun2 |].
      intros m. rewrite Hin2. split.
      * intros (b & r & Hb & Hrest). exists b, r. split; [now right | exact Hrest].
      * intros (b & r & [<- | Hb] & Hr & Hl & Hrest).
        -- apply base_test_spec in Hl. congruence.
        -- exists b, r. repeat (split; [assumption |]). assumption.
Qed.

(** X9: the rule stage of [generate_combined_passwords] never raises
    and only appends to the candidates: what it appends are exactly the
    results of a loaded rule on a base word of more than 3 characters
    that are neither empty nor the base word itself. *)
Theorem rule_stage_appends_kept_mutations :
  forall hashcat_rules bases cand,
  exists produced,
    apply_rules_stage hashcat_rules bases cand = Returns (cand ++ produced)
    /\ forall m, In m produced <->
         exists base rule,
           In base bases /\ In rule hashcat_rules
           /\ (3 < String.length base)%nat
           /\ apply_hashcat_rule base rule = Returns m
           /\ m <> "" /\ m <> base.
Proof.
  intros rules bases cand. unfold apply_rules_stage.
  destruct rules as [| rule rest]; cbn [Py.nonempty].
  - exists []. split; [now rewrite app_nil_r |].
    intros m. split; [intros [] | intros (b & r & _ & [] & _)].
  - apply bases_loop_produces.
Qed.

Lemma rule_stage_appends_kept_mutations_witness :
  exists produced,
    apply_rules_stage ["u $1"; "l"] ["alice"; "bob"] ["alice123"]
    = Returns (["alice123"] ++ produced)
    /\ In "ALICE1" produced.
Proof.
  destruct (rule_stage_appends_kept_mutations
              ["u $1"; "l"] ["alice"; "bob"] ["alice123"])
    as (produced & Hrun & Hin).
  exists produced. split; [exact Hrun |].
  apply Hin. exists "alice", "u $1".
  repeat split; cbn; auto; try lia; discriminate.
Defined.

(** ** The last stage of [generate_guesses] *)

Lemma member_spec (p : string) (seen : list string) :
  PyText.member p seen = true <-> In p seen.
Proof.
  unfold PyText.member. rewrite existsb_exists. split.
  - intros (q & Hq & E). apply String.eqb_eq in E. now subst.
  - intros H. exists p. split; [exact H | apply String.eqb_refl].
Qed.

Lemma guess_test_spec (p : string) :
  Py.truthy p && ((6 <=? PyText.len p)%Z && (PyText.len p <=? 20)%Z)
  = length_allowed p.
Proof.
  unfold length_allowed, PyText.len.
  destruct p as [| c s]; [reflexivity |]. cbn [Py.truthy andb].
  destruct (Nat.leb_spec 6 (String.length (String c s))),
           (Nat.leb_spec (String.length (String c s)) 20),
           (Z.leb_spec 6 (Z.of_nat (String.length (String c s)))),
           (Z.leb_spec (Z.of_nat (String.length (String c s))) 20);
    try reflexivity; lia.
Qed.

Lemma length_allowed_spec (p : string) :
  length_allowed p = true <-> (6 <= String.length p <= 20)%nat.
Proof.
  unfold length_allowed. rewrite andb_true_iff, !Nat.leb_le. reflexivity.
Qed.

Lemma unique_loop_app (cands seen uniq : list string) :
  unique_loop cands seen uniq = uniq ++ unique_loop cands seen [].
Proof.
  revert seen uniq. induction cands as [| p rest IH]; intros seen uniq.
  - cbn. now rewrite app_nil_r.
  - cbn [unique_loop]. rewrite guess_test_spec.
    destruct (length_allowed p && negb (PyText.member p seen)).
    + rewrite (IH _ (Py.append uniq p)), (IH _ (Py.append [] p)).
      unfold Py.append. now rewrite <- app_assoc.
    + apply IH.
Qed.

Lemma unique_loop_step (p : string) (rest seen : list string) :
  unique_loop (p :: rest) seen []
  = if length_allowed p && negb (PyText.member p seen)
    then p :: unique_loop rest (p :: seen) []
    else unique_loop rest seen [].
Proof.
  cbn [unique_loop]. rewrite guess_test_spec.
  destruct (length_allowed p && negb (PyText.member p seen)); [| reflexivity].
  now rewrite unique_loop_app.
Qed.

Lemma unique_loop_in (cands seen : list string) (p : string) :
  In p (unique_loop cands seen []) <->
  In p cands /\ length_allowed p = true /\ ~ In p seen.
Proof.
  revert seen. induction cands as [| q rest IH]; intros seen.
  - cbn. tauto.
  - rewrite unique_loop_step.
    destruct (length_allowed q) eqn:Hq; cbn [andb].
    + destruct (PyText.member q seen) eqn:Hm; cbn [negb].
      * apply member_spec in Hm. rewrite IH. cbn [In]. split.
        -- intros (H1 & H2 & H3). auto.
        -- intros ([<- | H1] & H2 & H3); [contradiction | auto].
      * assert (Hn : ~ In q seen)
          by (rewrite <- member_spec; congruence).
        cbn [In]. rewrite IH. cbn [In]. split.
        -- intros [<- | (H1 & H2 & H3)]; [auto | ].
           split; [now right |]. split; [exact H2 | tauto].
        -- intros ([<- | H1] & H2 & H3); [now left |].
           destruct (string_dec q p) as [-> | Hne]; [now left |].
           right. split; [exact H1 |]. split; [exact H2 |].
           intros [E | E]; [congruence | contradiction].
    + rewrite IH. cbn [In]. split.
      * intros (H1 & H2 & H3). auto.
      * intros ([<- | H1] & H2 & H3); [congruence | auto].
Qed.

Lemma unique_loop_NoDup (cands seen : list string) :
  NoDup (unique_loop cands seen []).
Proof.
  revert seen. induction cands as [| q rest IH]; intros seen.
  - constructor.
  - rewrite unique_loop_step.
    destruct (length_allowed q && negb (PyText.member q seen)); [| apply IH].
    constructor; [| apply IH].
    rewrite unique_loop_in. intros (_ & _ & H). apply H. now left.
Qed.

Lemma unique_loop_length (cands seen : list string) :
  (List.length (unique_loop cands seen []) <= List.length cands)%nat.
Proof.
  revert seen. induction cands as [| q rest IH]; intros seen.
  - cbn. lia.
  - rewrite unique_loop_step.
    destruct (length_allowed q && negb (PyText.member q seen));
      cbn [List.length].
    + specialize (IH (q :: seen)). lia.
    + specialize (IH seen). lia.
Qed.

Lemma unique_loop_of_distinct (cands seen : list string) :
  NoDup cands -> (forall p, In p cands -> ~ In p seen) ->
  unique_loop cands seen [] = filter length_allowed cands.
Proof.
  revert seen. induction cands as [| q rest IH]; intros seen Hnd Hfresh.
  - reflexivity.
  - rewrite unique_loop_step. cbn [filter].
    inversion Hnd as [| ? ? Hq Hrest]; subst.
    assert (Hm : PyText.member q seen = false).
    { destruct (PyText.member q seen) eqn:E; [| reflexivity].
      apply member_spec in E. exfalso. apply (Hfresh q); [now left | exact E]. }
    rewrite Hm. cbn [negb]. rewrite andb_true_r.
    destruct (length_allowed q).
    + f_equal. apply IH; [exact Hrest |].
      intros p Hp [E | E]; [congruence |].
      apply (Hfresh p); [now right | exact E].
    + apply IH; [exact Hrest |].
      intros p Hp. apply Hfresh. now right.
Qed.

Lemma slice_prefix {A : Type} (l : list A) (k : Z) :
  exists m, PyText.slice l None (Some k) = firstn m l
            /\ ((0 <= k)%Z -> m = Z.to_nat k).
Proof.
  unfold PyText.slice, PyText.clamp. cbn [skipn Z.to_nat].
  rewrite Z.sub_0_r.
  destruct (Z.ltb_spec k 0) as [Hneg | Hpos].
  - eexists. split; [reflexivity | lia].
  - exists (Z.to_nat k). split; [| reflexivity].
    destruct (Z.le_ge_cases k (Py.len l)) as [Hle | Hge].
    + now rewrite Z.min_l.
    + rewrite Z.min_r by exact Hge. unfold Py.len in *.
      rewrite Nat2Z.id, !firstn_all2 by lia. reflexivity.
Qed.

Lemma in_prefix {A : Type} (m : nat) (l : list A) (x : A) :
  In x (firstn m l) -> In x l.
Proof.
  intros H. rewrite <- (firstn_skipn m l). apply in_or_app. now left.
Qed.

Lemma NoDup_firstn {A : Type} (m : nat) (l : list A) :
  NoDup l -> NoDup (firstn m l).
Proof.
  revert m. induction l as [| h t IH]; intros [| m] H; cbn; try constructor.
  - inversion H as [| ? ? Hh Ht]; subst.
    intros Hin. apply Hh. eapply in_prefix. exact Hin.
  - inversion H; subst. now apply IH.
Qed.

(** X10: the guesses that [generate_guesses] returns hold no string
    twice, every one of them is one of the candidates and has between
    6 and 20 characters, and when [max_guesses] is not negative there
    are at most [max_guesses] of them. *)
Theorem guesses_distinct_in_window_and_bounded :
  forall max_guesses cands,
    NoDup (unique_guesses max_guesses cands)
    /\ (forall p, In p (unique_guesses max_guesses cands) ->
          In p cands /\ (6 <= String.length p <= 20)%nat)
    /\ ((0 <= max_guesses)%Z ->
        (List.length (unique_guesses max_guesses cands)
         <= Z.to_nat max_guesses)%nat).
Proof.
  intros k cands. unfold unique_guesses.
  destruct (slice_prefix (unique_loop cands [] []) k) as (m & -> & Hm).
  split; [apply NoDup_firstn, unique_loop_NoDup |]. split.
  - intros p Hp. apply in_prefix, unique_loop_in in Hp.
    destruct Hp as (H1 & H2 & _). split; [exact H1 |].
    now apply length_allowed_spec.
  - intros Hk. rewrite (Hm Hk), length_firstn. lia.
Qed.

Lemma guesses_distinct_in_window_and_bounded_witness :
  (List.length (unique_guesses 2 ["abcdef"; "abc"; "abcdef"; "abcdefg"; "qwerty12"])
   <= Z.to_nat 2)%nat.
Proof.
  apply (proj2 (proj2 (guesses_distinct_in_window_and_bounded 2
           ["abcdef"; "abc"; "abcdef"; "abcdefg"; "qwerty12"]))).
  lia.
Defined.

(** X11: when [max_guesses] is at least the number of candidates, no
    candidate of 6 to 20 characters is lost; and when the candidates
    are distinct as well, the guesses are exactly the candidates of 6
    to 20 characters, in the order of the candidate list. *)
Theorem guesses_keep_every_candidate_in_window :
  forall max_guesses cands,
    (Z.of_nat (List.length cands) <= max_guesses)%Z ->
    (forall p, In p cands -> (6 <= String.length p <= 20)%nat ->
               In p (unique_guesses max_guesses cands))
    /\ (NoDup cands ->
        unique_guesses max_guesses cands = filter length_allowed cands).
Proof.
  intros k cands Hk. unfold unique_guesses.
  destruct (slice_prefix (unique_loop cands [] []) k) as (m & -> & Hm).
  rewrite Hm by lia.
  rewrite firstn_all2
    by (pose proof (unique_loop_length cands []); lia).
  split.
  - intros p Hp Hlen. apply unique_loop_in.
    split; [exact Hp |]. split; [now apply length_allowed_spec | intros []].
  - intros Hnd. apply unique_loop_of_distinct; [exact Hnd | intros p _ []].
Qed.

Lemma guesses_keep_every_candidate_in_window_witness :
  In "qwerty12" (unique_guesses 5 ["abcdef"; "abc"; "abcdef"; "qwerty12"])
  /\ unique_guesses 5 ["abcdef"; "abc"; "qwerty12"] = ["abcdef"; "qwerty12"].
Proof.
  split.
  - apply (proj1 (guesses_keep_every_candidate_in_window 5
             ["abcdef"; "abc"; "abcdef"; "qwerty12"] ltac:(cbn; lia))).
    + cbn. auto.
    + cbn. lia.
  - apply (proj2 (guesses_keep_every_candidate_in_window 5
             ["abcdef"; "abc"; "qwerty12"] ltac:(cbn; lia))).
    repeat constructor; cbn; intuition discriminate.
Defined.

(** X12: filtering the guesses again changes nothing: for a
    [max_guesses] that is not negative, the last stage of
    [generate_guesses] run on its own result returns that result. *)
Theorem guesses_stage_idempotent :
  forall max_guesses cands,
    (0 <= max_guesses)%Z ->
    unique_guesses max_guesses (unique_guesses max_guesses cands)
    = unique_guesses max_guesses cands.
Proof.
  intros k cands Hk.
  assert (Hnd : NoDup (unique_guesses k cands)).
  { unfold unique_guesses.
    destruct (slice_prefix (unique_loop cands [] []) k) as (m & -> & _).
    apply NoDup_firstn, unique_loop_NoDup. }
  assert (Hall : forall p, In p (unique_guesses k cands) -> length_allowed p = true).
  { unfold unique_guesses.
    destruct (slice_prefix (unique_loop cands [] []) k) as (m & -> & _).
    intros p Hp. apply in_prefix, unique_loop_in in Hp. tauto. }
  assert (Hlen : (List.length (unique_guesses k cands) <= Z.to_nat k)%nat).
  { unfold unique_guesses.
    destruct (slice_prefix (unique_loop cands [] []) k) as (m & -> & Hm).
    rewrite (Hm Hk), length_firstn. lia. }
  remember (unique_guesses k cands) as g eqn:Hg. clear Hg.
  unfold unique_guesses.
  destruct (slice_prefix (unique_loop g [] []) k) as (m & -> & Hm).
  rewrite (Hm Hk).
  rewrite (unique_loop_of_distinct g [] Hnd) by (intros p _ []).
  assert (Hf : filter length_allowed g = g).
  { clear Hnd Hlen. induction g as [| q t IH]; [reflexivity |].
    cbn [filter]. rewrite (Hall q) by now left.
    f_equal. apply IH. intros p Hp. apply Hall. now right. }
  rewrite Hf. apply firstn_all2. exact Hlen.
Qed.

Lemma guesses_stage_idempotent_witness :
  unique_guesses 2 (unique_guesses 2 ["abcdef"; "abc"; "abcdef"; "abcdefg"; "qwerty12"])
  = unique_guesses 2 ["abcdef"; "abc"; "abcdef"; "abcdefg"; "qwerty12"].
Proof. apply guesses_stage_idempotent. lia. Defined.

(** ** Digits *)

Lemma digits_only_all_digits (s : string) :
  all_digits (PyText.digits_only s) = true.
Proof.
  unfold all_digits. induction s as [| c s IH]; [reflexivity |].
  cbn [PyText.digits_only]. destruct (PyText.isdigit c) eqn:Hc; [| exact IH].
  cbn [Py.list_of list_ascii_of_string forallb]. rewrite Hc. exact IH.
Qed.

Lemma digits_only_of_digits (s : string) :
  all_digits s = true -> PyText.digits_only s = s.
Proof.
  unfold all_digits. induction s as [| c s IH]; [reflexivity |].
  cbn [Py.list_of list_ascii_of_string forallb PyText.digits_only].
  intros H. apply andb_true_iff in H. destruct H as [Hc Hs].
  rewrite Hc. f_equal. now apply IH.
Qed.

Lemma digits_only_idempotent (s : string) :
  PyText.digits_only (PyText.digits_only s) = PyText.digits_only s.
Proof. apply digits_only_of_digits, digits_only_all_digits. Qed.

Lemma int_of_digit (c : ascii) :
  PyText.isdigit c = true ->
  exists v, Py.int c 10 = Returns v /\ (0 <= v <= 9)%Z.
Proof.
  all_characters c; intros H; try discriminate H;
    eexists; (split; [vm_compute; reflexivity | lia]).
Qed.

(** X13: [extract_date_variants] reads the digits of the date only:
    it returns for a date what it returns for the digits of that date
    with everything else taken out, so the separators make no
    difference. *)
Theorem date_variants_ignore_separators :
  forall birth,
    extract_date_variants birth
    = extract_date_variants (PyText.digits_only birth).
Proof.
  intros birth. unfold extract_date_variants.
  rewrite digits_only_idempotent.
  destruct birth as [| c s]; [reflexivity |]. cbn [Py.truthy negb].
  destruct (PyText.digits_only (String c s)) as [| c' s'] eqn:Hd;
    reflexivity.
Qed.

(** X14: [extract_date_variants] never raises.  It returns no variant
    unless the date has exactly 8 digits; and when it returns variants,
    the digits [c1 ... c8] of the date start with a year from 1950 to
    2020 and the variants are, in this order, the year, its last two
    digits, month and day, all 8 digits, and the last 6 digits. *)
Theorem date_variants_shape :
  forall birth,
  exists variants,
    extract_date_variants birth = Returns variants
    /\ (String.length (PyText.digits_only birth) <> 8 -> variants = [])
    /\ (variants = []
        \/ exists c1 c2 c3 c4 c5 c6 c7 c8 year,
             PyText.digits_only birth = Py.join [c1; c2; c3; c4; c5; c6; c7; c8]
             /\ PyText.int (Py.join [c1; c2; c3; c4]) = Returns year
             /\ (1950 <= year <= 2020)%Z
             /\ variants = [Py.join [c1; c2; c3; c4];
                            Py.join [c3; c4];
                            Py.join [c5; c6; c7; c8];
                            Py.join [c1; c2; c3; c4; c5; c6; c7; c8];
                            Py.join [c3; c4; c5; c6; c7; c8]]).
Proof.
  intros birth. unfold extract_date_variants.
  destruct (Py.truthy birth); cbn [negb].
  2:{ exists []. repeat split; auto. }
  pose proof (digits_only_all_digits birth) as Hdigits.
  destruct (Z.eqb_spec (PyText.len (PyText.digits_only birth)) 8) as [H8 | H8].
  2:{ exists []. repeat split; auto. }
  unfold PyText.len in H8.
  destruct (PyText.digits_only birth)
    as [| c1 [| c2 [| c3 [| c4 [| c5 [| c6 [| c7 [| c8 [| c9 s]]]]]]]]];
    cbn [String.length] in H8; try lia.
  unfold all_digits in Hdigits.
  cbn [Py.list_of list_ascii_of_string forallb] in Hdigits.
  repeat (apply andb_true_iff in Hdigits;
          destruct Hdigits as [?Hc Hdigits]).
  change (PyText.str_slice
            (String c1 (String c2 (String c3 (String c4
               (String c5 (String c6 (String c7 (String c8 ""))))))))
            None (Some 4%Z))
    with (Py.join [c1; c2; c3; c4]).
  destruct (int_of_digit c1 Hc) as (v1 & E1 & R1).
  destruct (int_of_digit c2 Hc0) as (v2 & E2 & R2).
  destruct (int_of_digit c3 Hc1) as (v3 & E3 & R3).
  destruct (int_of_digit c4 Hc2) as (v4 & E4 & R4).
  assert (Hyear : PyText.int (Py.join [c1; c2; c3; c4])
                  = Returns (10 * (10 * (10 * (10 * 0 + v1) + v2) + v3) + v4)%Z).
  { unfold PyText.int.
    cbn [Py.join string_of_list_ascii Py.truthy PyText.int_from].
    rewrite E1. cbn [bind]. rewrite E2. cbn [bind].
    rewrite E3. cbn [bind]. rewrite E4. reflexivity. }
  rewrite Hyear. cbn [bind].
  set (year := (10 * (10 * (10 * (10 * 0 + v1) + v2) + v3) + v4)%Z) in *.
  destruct (Z.leb_spec 1950 year) as [Hlo | Hlo]; cbn [andb].
  2:{ exists []. repeat split; auto. }
  destruct (Z.leb_spec year 2020) as [Hhi | Hhi].
  2:{ exists []. repeat split; auto. }
  eexists. split; [reflexivity |]. split.
  - intros Hne. cbn in Hne. congruence.
  - right. exists c1, c2, c3, c4, c5, c6, c7, c8, year.
    repeat split; auto.
Qed.

Lemma date_variants_shape_witness :
  exists variants,
    extract_date_variants "199-1-2" = Returns variants /\ variants = [].
Proof.
  destruct (date_variants_shape "199-1-2") as (variants & E & Hshort & _).
  exists variants. split; [exact E |]. apply Hshort.
  vm_compute. intros H. discriminate H.
Defined.

(** ** Phone numbers *)

Lemma last_four {A : Type} (l : list A) :
  (4 <= List.length l)%nat ->
  PyText.slice l (Some (-4)%Z) None = skipn (List.length l - 4) l
  /\ List.length (skipn (List.length l - 4) l) = 4.
Proof.
  intros H. unfold PyText.slice, PyText.clamp, Py.len.
  change (-4 <? 0)%Z with true. cbv iota.
  rewrite Z.max_l by lia.
  replace (Z.to_nat (-4 + Z.of_nat (List.length l)))
    with (List.length l - 4)%nat by lia.
  assert (L : List.length (skipn (List.length l - 4) l) = 4)
    by (rewrite length_skipn; lia).
  split; [| exact L]. apply firstn_all2. lia.
Qed.

Lemma all_digits_suffix (n : nat) (l : list ascii) :
  forallb PyText.isdigit l = true ->
  forallb PyText.isdigit (skipn n l) = true.
Proof.
  rewrite !forallb_forall. intros H c Hc. apply H.
  rewrite <- (firstn_skipn n l). apply in_or_app. now right.
Qed.

(** X15: [extract_phone_variants] returns nothing for a phone
    number with fewer than 4 digits; otherwise it returns the last 4
    digits, then all the digits, of the number; what it returns holds
    digits only. *)
Theorem phone_variants_shape :
  forall phone,
    ((String.length (PyText.digits_only phone) < 4)%nat ->
     extract_phone_variants phone = [])
    /\ ((4 <= String.length (PyText.digits_only phone))%nat ->
        exists front last4,
          PyText.digits_only phone = (front ++ last4)%string
          /\ String.length last4 = 4
          /\ extract_phone_variants phone = [last4; PyText.digits_only phone])
    /\ (forall v, In v (extract_phone_variants phone) -> all_digits v = true).
Proof.
  intros phone. unfold extract_phone_variants.
  pose proof (digits_only_all_digits phone) as Hdigits.
  destruct phone as [| c s].
  { cbn. repeat split; try lia; intros v []. }
  cbn [Py.truthy negb].
  set (d := PyText.digits_only (String c s)) in *.
  unfold PyText.len.
  destruct (Z.leb_spec 4 (Z.of_nat (String.length d))) as [H4 | H4].
  - assert (Hlen : (4 <= List.length (Py.list_of d))%nat)
      by (rewrite length_list_of; lia).
    destruct (last_four (Py.list_of d) Hlen) as [Hslice Hfour].
    unfold PyText.str_slice. rewrite Hslice.
    split; [lia |]. split.
    + intros _.
      exists (Py.join (firstn (List.length (Py.list_of d) - 4) (Py.list_of d))),
             (Py.join (skipn (List.length (Py.list_of d) - 4) (Py.list_of d))).
      split; [| split; [| reflexivity]].
      * now rewrite <- join_app, firstn_skipn, join_list_of.
      * now rewrite length_join.
    + intros v [<- | [<- | []]]; [| exact Hdigits].
      unfold all_digits. rewrite list_of_join.
      now apply all_digits_suffix.
  - split; [reflexivity |]. split; [lia | intros v []].
Qed.

Lemma phone_variants_shape_witness :
  extract_phone_variants "12-3" = []
  /\ exists front last4,
       PyText.digits_only "+86 138-0013-8000" = (front ++ last4)%string
       /\ String.length last4 = 4
       /\ extract_phone_variants "+86 138-0013-8000"
          = [last4; PyText.digits_only "+86 138-0013-8000"].
Proof.
  split.
  - apply (proj1 (phone_variants_shape "12-3")). vm_compute. lia.
  - apply (proj1 (proj2 (phone_variants_shape "+86 138-0013-8000"))).
    vm_compute. lia.
Defined.

(** ** Addresses *)

Lemma contains_app (c : ascii) (s1 s2 : string) :
  PyText.contains c (s1 ++ s2) = PyText.contains c s1 || PyText.contains c s2.
Proof.
  unfold PyText.contains. induction s1 as [| a s1 IH]; [reflexivity |].
  cbn [String.append Py.list_of list_ascii_of_string existsb].
  unfold Py.list_of in IH. now rewrite IH, orb_assoc.
Qed.

Lemma contains_cons (c a : ascii) (s : string) :
  PyText.contains c (String a s) = Ascii.eqb c a || PyText.contains c s.
Proof. reflexivity. Qed.

Lemma contains_head (c : ascii) (s : string) :
  PyText.contains c (String c s) = true.
Proof.
  unfold PyText.contains.
  cbn [Py.list_of list_ascii_of_string existsb].
  now rewrite Ascii.eqb_refl.
Qed.

Lemma append_assoc (s1 s2 s3 : string) :
  ((s1 ++ s2) ++ s3 = s1 ++ (s2 ++ s3))%string.
Proof. induction s1 as [| c s1 IH]; cbn; [reflexivity | now rewrite IH]. Qed.

Lemma append_empty_r (s : string) : (s ++ "")%string = s.
Proof. induction s as [| c s IH]; cbn; [reflexivity | now rewrite IH]. Qed.

Lemma split_on_from_first (sep : ascii) (cur u rest : string) :
  PyText.contains sep u = false ->
  PyText.split_on_from sep cur (u ++ String sep rest)
  = (cur ++ u)%string :: PyText.split_on sep rest.
Proof.
  revert cur. induction u as [| a u IH]; intros cur Hu.
  - cbn [String.append PyText.split_on_from]. rewrite Ascii.eqb_refl.
    now rewrite append_empty_r.
  - unfold PyText.contains in Hu.
    cbn [Py.list_of list_ascii_of_string existsb] in Hu.
    apply orb_false_elim in Hu. destruct Hu as [Ha Hu].
    cbn [String.append PyText.split_on_from].
    rewrite Ascii.eqb_sym, Ha.
    rewrite (IH _ Hu), append_assoc. reflexivity.
Qed.

Lemma split_on_from_without (sep : ascii) (cur s : string) :
  PyText.contains sep s = false ->
  PyText.split_on_from sep cur s = [(cur ++ s)%string].
Proof.
  revert cur. induction s as [| a s IH]; intros cur Hs.
  - cbn. now rewrite append_empty_r.
  - unfold PyText.contains in Hs.
    cbn [Py.list_of list_ascii_of_string existsb] in Hs.
    apply orb_false_elim in Hs. destruct Hs as [Ha Hs].
    cbn [PyText.split_on_from]. rewrite Ascii.eqb_sym, Ha.
    rewrite (IH _ Hs), append_assoc. reflexivity.
Qed.

Lemma lower_keeps_at (c : ascii) :
  Ascii.eqb "@" (Py.lower c) = Ascii.eqb "@" c.
Proof. all_characters c; reflexivity. Qed.

Lemma upper_keeps_at (c : ascii) :
  Ascii.eqb "@" (Py.upper c) = Ascii.eqb "@" c.
Proof. all_characters c; reflexivity. Qed.

Lemma contains_at_lower (s : string) :
  PyText.contains "@" (PyText.lower s) = PyText.contains "@" s.
Proof.
  unfold PyText.contains, PyText.lower. rewrite list_of_join.
  induction (Py.list_of s) as [| c l IH]; [reflexivity |].
  cbn [map existsb]. now rewrite lower_keeps_at, IH.
Qed.

Lemma length_lower (s : string) :
  String.length (PyText.lower s) = String.length s.
Proof.
  unfold PyText.lower. now rewrite length_join, length_map, length_list_of.
Qed.

(** X16: [extract_email_variants] never raises.  For an address
    without [@] it returns nothing; for an address [u@rest], [u] of
    ASCII characters without [@], it returns [u], [u] in lower case and
    [u] capitalized when [u] has more than 2 characters, and nothing
    otherwise; none of the variants holds an [@], and all have the
    length of [u]. *)
Theorem email_variants_shape :
  (forall email,
      PyText.contains "@" email = false ->
      extract_email_variants email = Returns [])
  /\ (forall u rest,
        ascii_only u = true ->
        PyText.contains "@" u = false ->
        extract_email_variants (u ++ "@" ++ rest)
        = Returns (if (2 <? String.length u)%nat
                   then [u; PyText.lower u; PyText.capitalize u]
                   else [])
        /\ PyText.contains "@" (PyText.lower u) = false
        /\ PyText.contains "@" (PyText.capitalize u) = false
        /\ String.length (PyText.lower u) = String.length u
        /\ String.length (PyText.capitalize u) = String.length u).
Proof.
  split.
  - intros email H. unfold extract_email_variants.
    rewrite H, andb_false_r. reflexivity.
  - intros u rest _ Hu. split; [| split; [| split; [| split]]].
    + unfold extract_email_variants.
      change (u ++ "@" ++ rest)%string with (u ++ String "@" rest)%string.
      rewrite contains_app, contains_head, orb_true_r, andb_true_r.
      assert (Ht : Py.truthy (u ++ String "@" rest) = true)
        by (destruct u; reflexivity).
      rewrite Ht. unfold PyText.split_on.
      rewrite (split_on_from_first _ _ _ _ Hu).
      cbn [String.append].
      assert (Hget : forall t : list string, Py.getitem (u :: t) 0 = Returns u).
      { intros t.
        destruct (getitem_in_range (u :: t) 0) as (x & Hx & ->).
        - unfold Py.len. cbn [List.length]. lia.
        - cbn in Hx. congruence. }
      rewrite Hget. cbn [bind]. unfold PyText.len.
      destruct (Z.ltb_spec 2 (Z.of_nat (String.length u))),
               (Nat.ltb_spec 2 (String.length u)); try reflexivity; lia.
    + now rewrite contains_at_lower.
    + destruct u as [| a u]; [reflexivity |].
      rewrite contains_cons in Hu.
      apply orb_false_elim in Hu. destruct Hu as [Ha Hu].
      cbn [PyText.capitalize].
      now rewrite contains_cons, upper_keeps_at, Ha, contains_at_lower, Hu.
    + apply length_lower.
    + destruct u as [| a u]; [reflexivity |].
      cbn [PyText.capitalize String.length]. now rewrite length_lower.
Qed.

Lemma email_variants_shape_witness :
  extract_email_variants "nobody" = Returns []
  /\ extract_email_variants ("Bob.smith" ++ "@" ++ "example.com")
     = Returns ["Bob.smith"; "bob.smith"; "Bob.smith"].
Proof.
  split.
  - apply (proj1 email_variants_shape). reflexivity.
  - apply (proj1 (proj2 email_variants_shape "Bob.smith" "example.com"
                    eq_refl eq_refl)).
Defined.

(** ** Reading a target line *)

Lemma rstrip_idempotent (s : string) : Py.rstrip (Py.rstrip s) = Py.rstrip s.
Proof.
  induction s as [| c s IH]; [reflexivity |].
  cbn [Py.rstrip].
  destruct (Py.isspace c && negb (Py.truthy (Py.rstrip s))) eqn:E;
    [reflexivity |].
  cbn [Py.rstrip]. now rewrite IH, E.
Qed.

Lemma strip_cases (s : string) :
  Py.strip s = "" \/
  exists c t, Py.strip s = String c t /\ Py.isspace c = false.
Proof.
  unfold Py.strip.
  destruct (lstrip_cases s) as [(Hl & _) | (c & t & Hl & Hc & _)]; rewrite Hl.
  - now left.
  - right. exists c, (Py.rstrip t). split; [| exact Hc].
    now apply rstrip_nonblank_head.
Qed.

Lemma strip_idempotent (s : string) : stripped (Py.strip s).
Proof.
  unfold stripped.
  destruct (strip_cases s) as [E | (c & t & E & Hc)].
  - rewrite E. reflexivity.
  - unfold Py.strip at 1. rewrite E. cbn [Py.lstrip]. rewrite Hc.
    rewrite <- E. unfold Py.strip. apply rstrip_idempotent.
Qed.

Lemma split_once_from_first (sep : ascii) (cur k v : string) :
  PyText.contains sep k = false ->
  PyText.split_once_from sep cur (k ++ String sep v) = [(cur ++ k)%string; v].
Proof.
  revert cur. induction k as [| a k IH]; intros cur Hk.
  - cbn [String.append PyText.split_once_from]. rewrite Ascii.eqb_refl.
    now rewrite append_empty_r.
  - rewrite contains_cons in Hk. apply orb_false_elim in Hk.
    destruct Hk as [Ha Hk].
    cbn [String.append PyText.split_once_from].
    rewrite Ascii.eqb_sym, Ha, (IH _ Hk), append_assoc. reflexivity.
Qed.

Lemma first_separator (sep : ascii) (s : string) :
  PyText.contains sep s = true ->
  exists k v, s = (k ++ String sep v)%string /\ PyText.contains sep k = false.
Proof.
  induction s as [| a s IH]; [discriminate |].
  rewrite contains_cons. destruct (Ascii.eqb_spec sep a) as [<- | Hne].
  - intros _. exists "", s. split; reflexivity.
  - cbn [orb]. intros H. destruct (IH H) as (k & v & -> & Hk).
    exists (String a k), v. split; [reflexivity |].
    rewrite contains_cons, Hk.
    destruct (Ascii.eqb_spec sep a); [contradiction | reflexivity].
Qed.

(** What a field [k:v] does, [k] without colon. *)
Lemma parse_field_key (info : user_info) (k v : string) :
  PyText.contains ":" k = false ->
  parse_field info (k ++ String ":" v)
  = let k := Py.strip k in
    let v := Py.strip v in
    if (k =? "email")%string && Py.truthy v then
      Returns {| email := v; names := names info; account := account info;
                 phone := phone info; birth := birth info |}
    else if (k =? "name")%string && Py.truthy v then
      Returns {| email := email info; names := names_of v;
                 account := account info;
                 phone := phone info; birth := birth info |}
    else if (k =? "account")%string && Py.truthy v then
      Returns {| email := email info; names := names info; account := v;
                 phone := phone info; birth := birth info |}
    else if (k =? "phone")%string && Py.truthy v then
      Returns {| email := email info; names := names info;
                 account := account info; phone := v; birth := birth info |}
    else if (k =? "birth")%string && Py.truthy v then
      Returns {| email := email info; names := names info;
                 account := account info; phone := phone info; birth := v |}
    else Returns info.
Proof.
  intros Hk. unfold parse_field.
  rewrite contains_app, contains_head, orb_true_r. cbn [negb].
  unfold PyText.split_once. rewrite (split_once_from_first _ _ _ _ Hk).
  reflexivity.
Qed.

Lemma names_of_tidy (v n : string) :
  In n (names_of v) -> n <> "" /\ stripped n.
Proof.
  unfold names_of. rewrite in_map_iff. intros (m & <- & Hm).
  apply filter_In in Hm. destruct Hm as [_ Hm].
  split; [now apply truthy_iff | apply strip_idempotent].
Qed.

Lemma parse_field_tidy (info : user_info) (field : string) :
  tidy info ->
  exists info', parse_field info field = Returns info' /\ tidy info'.
Proof.
  intros Ht. destruct (PyText.contains ":" field) eqn:Hc.
  2:{ exists info. unfold parse_field. rewrite Hc. now split. }
  destruct (first_separator _ _ Hc) as (k & v & -> & Hk).
  rewrite (parse_field_key _ _ _ Hk). cbv zeta.
  destruct Ht as (T1 & T2 & T3 & T4 & T5).
  pose proof (strip_idempotent v) as Hv.
  repeat match goal with
         | |- context [if ?b then _ else _] => destruct b
         end;
    eexists; (split; [reflexivity |]);
    unfold tidy; cbn [email names account phone birth];
    refine (conj _ (conj _ (conj _ (conj _ _)))); auto;
    intros n Hn; first [apply (names_of_tidy _ _ Hn) | apply (T5 _ Hn)].
Qed.

Lemma parse_fields_tidy (fields : list string) (info : user_info) :
  tidy info ->
  exists info', parse_fields fields info = Returns info' /\ tidy info'.
Proof.
  revert info. induction fields as [| field rest IH]; intros info Ht.
  - exists info. now split.
  - cbn [parse_fields].
    destruct (parse_field_tidy info field Ht) as (i1 & E1 & T1).
    rewrite E1. cbn [bind]. now apply IH.
Qed.

Lemma empty_user_info_tidy : tidy empty_user_info.
Proof.
  unfold tidy. cbn [empty_user_info email names account phone birth].
  refine (conj _ (conj _ (conj _ (conj _ _)))); try reflexivity.
  intros n [].
Qed.

(** X17: [parse_user_info] never raises, whatever the line; in the
    record it returns no value has a blank at either end, and no name
    is empty. *)
Theorem parse_user_info_returns_tidy_record :
  forall line,
  exists info,
    parse_user_info line = Returns info
    /\ Py.strip (email info) = email info
    /\ Py.strip (account info) = account info
    /\ Py.strip (phone info) = phone info
    /\ Py.strip (birth info) = birth info
    /\ (forall n, In n (names info) -> n <> "" /\ Py.strip n = n).
Proof.
  intros line. unfold parse_user_info.
  destruct (parse_fields_tidy (PyText.split_on "009" line) empty_user_info
                              empty_user_info_tidy) as (info & E & T).
  exists info. split; [exact E | exact T].
Qed.

Lemma parse_user_info_returns_tidy_record_witness :
  exists info,
    parse_user_info ("name: Zhang San | |Li " ++ String "009" "phone: 138 ")
    = Returns info
    /\ "Li" <> "" /\ Py.strip "Li" = "Li".
Proof.
  destruct (parse_user_info_returns_tidy_record
              ("name: Zhang San | |Li " ++ String "009" "phone: 138 "))
    as (info & E & _ & _ & _ & _ & Hn).
  exists info. split; [exact E |]. apply Hn.
  vm_compute in E. injection E as <-. cbn. auto.
Defined.

Lemma split_on_from_app (sep : ascii) (cur a b : string) :
  PyText.split_on_from sep cur (a ++ String sep b)
  = PyText.split_on_from sep cur a ++ PyText.split_on sep b.
Proof.
  revert cur. induction a as [| c a IH]; intros cur.
  - cbn [String.append PyText.split_on_from app].
    now rewrite Ascii.eqb_refl.
  - cbn [String.append PyText.split_on_from].
    destruct (Ascii.eqb c sep); [cbn [app]; f_equal |]; apply IH.
Qed.

Lemma split_on_from_pieces (c sep : ascii) (cur s : string) :
  PyText.contains c cur = false -> PyText.contains c s = false ->
  Forall (fun piece => PyText.contains c piece = false)
         (PyText.split_on_from sep cur s).
Proof.
  revert cur. induction s as [| a s IH]; intros cur Hcur Hs.
  - cbn. constructor; [exact Hcur | constructor].
  - rewrite contains_cons in Hs. apply orb_false_elim in Hs.
    destruct Hs as [Ha Hs]. cbn [PyText.split_on_from].
    destruct (Ascii.eqb a sep).
    + constructor; [exact Hcur | now apply IH].
    + apply IH; [| exact Hs].
      rewrite contains_app, Hcur, contains_cons, Ha. reflexivity.
Qed.

Lemma parse_fields_app (f1 f2 : list string) (info : user_info) :
  parse_fields (f1 ++ f2) info
  = (info' <- parse_fields f1 info ;; parse_fields f2 info').
Proof.
  revert info. induction f1 as [| field rest IH]; intros info;
    [reflexivity |].
  cbn [app parse_fields].
  destruct (parse_field info field) as [i | e]; [apply IH | reflexivity].
Qed.

Lemma parse_fields_without_colon (fields : list string) (info : user_info) :
  Forall (fun piece => PyText.contains ":" piece = false) fields ->
  parse_fields fields info = Returns info.
Proof.
  induction 1 as [| field rest Hf _ IH]; [reflexivity |].
  cbn [parse_fields]. unfold parse_field. rewrite Hf. exact IH.
Qed.

Lemma parse_user_info_app (line tail : string) :
  parse_user_info (line ++ String "009" tail)
  = (info <- parse_user_info line ;;
     parse_fields (PyText.split_on "009" tail) info).
Proof.
  unfold parse_user_info, PyText.split_on at 1.
  now rewrite split_on_from_app, parse_fields_app.
Qed.

Lemma bind_returns {A : Type} (m : outcome A) : (x <- m ;; Returns x) = m.
Proof. destruct m; reflexivity. Qed.

(** X18: [parse_user_info] passes over what it cannot use: text
    without a colon added after a tab at the end of a line, even with
    tabs of its own, changes nothing, and no more does a field [k:v]
    whose key is not one of the five keys or whose value is blank. *)
Theorem parse_user_info_ignores_unusable_fields :
  forall line,
    (forall junk,
        PyText.contains ":" junk = false ->
        parse_user_info (line ++ String "009" junk) = parse_user_info line)
    /\ (forall k v,
          PyText.contains ":" k = false ->
          PyText.contains "009" k = false ->
          PyText.contains "009" v = false ->
          ~ In (Py.strip k) known_keys \/ Py.strip v = "" ->
          parse_user_info (line ++ String "009" (k ++ String ":" v))
          = parse_user_info line).
Proof.
  intros line. split.
  - intros junk Hjunk. rewrite parse_user_info_app.
    rewrite <- (bind_returns (parse_user_info line)) at 2.
    destruct (parse_user_info line) as [info | e]; [| reflexivity].
    cbn [bind]. apply parse_fields_without_colon.
    now apply split_on_from_pieces.
  - intros k v Hk Hkt Hvt Hbad. rewrite parse_user_info_app.
    rewrite <- (bind_returns (parse_user_info line)) at 2.
    destruct (parse_user_info line) as [info | e]; [| reflexivity].
    cbn [bind]. unfold PyText.split_on.
    rewrite split_on_from_without
      by (rewrite contains_app, Hkt, contains_cons, Hvt; reflexivity).
    cbn [String.append parse_fields].
    rewrite (parse_field_key _ _ _ Hk). cbv zeta.
    destruct Hbad as [Hkey | Hval].
    + unfold known_keys in Hkey. cbn [In] in Hkey.
      repeat match goal with
             | |- context [(Py.strip k =? ?key)%string] =>
                 destruct (String.eqb_spec (Py.strip k) key);
                 [exfalso; apply Hkey; auto 10 |]
             end.
      reflexivity.
    + rewrite Hval. cbn [Py.truthy]. rewrite !andb_false_r. reflexivity.
Qed.

Lemma parse_user_info_ignores_unusable_fields_witness :
  parse_user_info ("email:a@b.cd" ++ String "009" "no colon here")
  = parse_user_info "email:a@b.cd"
  /\ parse_user_info ("email:a@b.cd" ++ String "009" ("email" ++ String ":" "  "))
     = parse_user_info "email:a@b.cd".
Proof.
  split.
  - apply (proj1 (parse_user_info_ignores_unusable_fields "email:a@b.cd")).
    reflexivity.
  - apply (proj2 (parse_user_info_ignores_unusable_fields "email:a@b.cd"));
      try reflexivity.
    right. reflexivity.
Defined.

(** X19: in [parse_user_info] a later field overrides the earlier
    ones: a field [key:v] added after a tab at the end of a line, [v]
    without tab and not blank, sets the entry of that key to [v]
    stripped (for [name], to the names of [v]) and leaves every other
    entry as the line before it gave it. *)
Theorem parse_user_info_last_field_wins :
  forall line info v,
    parse_user_info line = Returns info ->
    PyText.contains "009" v = false ->
    Py.strip v <> "" ->
    parse_user_info (line ++ String "009" ("email:" ++ v))
    = Returns {| email := Py.strip v; names := names info;
                 account := account info; phone := phone info;
                 birth := birth info |}
    /\ parse_user_info (line ++ String "009" ("name:" ++ v))
       = Returns {| email := email info; names := names_of (Py.strip v);
                    account := account info; phone := phone info;
                    birth := birth info |}
    /\ parse_user_info (line ++ String "009" ("account:" ++ v))
       = Returns {| email := email info; names := names info;
                    account := Py.strip v; phone := phone info;
                    birth := birth info |}
    /\ parse_user_info (line ++ String "009" ("phone:" ++ v))
       = Returns {| email := email info; names := names info;
                    account := account info; phone := Py.strip v;
                    birth := birth info |}
    /\ parse_user_info (line ++ String "009" ("birth:" ++ v))
       = Returns {| email := email info; names := names info;
                    account := account info; phone := phone info;
                    birth := Py.strip v |}.
Proof.
  intros line info v Hline Hvt Hv. apply truthy_iff in Hv.
  assert (Hfield : forall key,
             PyText.contains ":" key = false ->
             PyText.contains "009" key = false ->
             parse_user_info (line ++ String "009" (key ++ String ":" v))
             = parse_field info (key ++ String ":" v)).
  { intros key Hk Hkt. rewrite parse_user_info_app, Hline. cbn [bind].
    unfold PyText.split_on.
    rewrite split_on_from_without
      by (rewrite contains_app, Hkt, contains_cons, Hvt; reflexivity).
    cbn [String.append parse_fields]. apply bind_returns. }
  repeat split.
  - change ("email:" ++ v)%string with ("email" ++ String ":" v)%string.
    rewrite (Hfield "email" eq_refl eq_refl), (parse_field_key _ "email" _ eq_refl).
    cbv zeta. rewrite Hv. reflexivity.
  - change ("name:" ++ v)%string with ("name" ++ String ":" v)%string.
    rewrite (Hfield "name" eq_refl eq_refl), (parse_field_key _ "name" _ eq_refl).
    cbv zeta. rewrite Hv. reflexivity.
  - change ("account:" ++ v)%string with ("account" ++ String ":" v)%string.
    rewrite (Hfield "account" eq_refl eq_refl), (parse_field_key _ "account" _ eq_refl).
    cbv zeta. rewrite Hv. reflexivity.
  - change ("phone:" ++ v)%string with ("phone" ++ String ":" v)%string.
    rewrite (Hfield "phone" eq_refl eq_refl), (parse_field_key _ "phone" _ eq_refl).
    cbv zeta. rewrite Hv. reflexivity.
  - change ("birth:" ++ v)%string with ("birth" ++ String ":" v)%string.
    rewrite (Hfield "birth" eq_refl eq_refl), (parse_field_key _ "birth" _ eq_refl).
    cbv zeta. rewrite Hv. reflexivity.
Qed.

Lemma parse_user_info_last_field_wins_witness :
  parse_user_info ("phone:111" ++ String "009" "email:a@b.cd"
                   ++ String "009" ("phone:" ++ " 138 "))
  = Returns {| email := "a@b.cd"; names := []; account := "";
               phone := "138"; birth := "" |}.
Proof.
  apply (proj1 (proj2 (proj2 (proj2
           (parse_user_info_last_field_wins
              ("phone:111" ++ String "009" "email:a@b.cd")
              {| email := "a@b.cd"; names := []; account := "";
                 phone := "111"; birth := "" |}
              " 138 " eq_refl eq_refl ltac:(discriminate)))))).
Defined.

(** ** The loaded rules and the constructor *)

Lemma load_unopenable_empty (fs : filesystem) (path : string) :
  open_lines fs path = Raises OSError ->
  snd (load_hashcat_rules fs path) = Returns [].
Proof.
  unfold load_hashcat_rules, os_path_exists, open_lines.
  destruct (fs path) as [[| contents | delivered] |]; cbn;
    try discriminate; reflexivity.
Qed.

Lemma split_from_nonempty (cur s : string) :
  Py.truthy cur = true -> Py.split_from cur s <> [].
Proof.
  revert cur. induction s as [| c s IH]; intros cur Hcur.
  - cbn. rewrite Hcur. discriminate.
  - cbn [Py.split_from]. destruct (Py.isspace c).
    + rewrite Hcur. discriminate.
    + apply IH. destruct cur; reflexivity.
Qed.

Lemma rule_line_gives_rule (line : string) :
  is_rule_line line = true ->
  Py.strip line <> "" /\ stripped (Py.strip line)
  /\ Py.startswith (Py.strip line) "#" = false
  /\ Py.split (Py.strip line) <> [].
Proof.
  rewrite <- keep_line_is_rule_line. intros H.
  apply andb_true_iff in H. destruct H as [Ht Hc].
  apply negb_true_iff in Hc.
  split; [now apply truthy_iff |]. split; [apply strip_idempotent |].
  split; [exact Hc |].
  destruct (strip_cases line) as [E | (c & t & E & Hb)].
  - rewrite E in Ht. discriminate.
  - rewrite E. unfold Py.split. cbn [Py.split_from]. rewrite Hb.
    now apply split_from_nonempty.
Qed.

(** X20: every rule that [load_hashcat_rules] returns, from a file read
    to its end or only in part, is not empty, has no blank at either
    end, does not start with [#], and holds at least one instruction. *)
Theorem loaded_rules_are_well_formed :
  forall fs path rules,
    snd (load_hashcat_rules fs path) = Returns rules ->
    forall rule, In rule rules ->
      rule <> "" /\ Py.strip rule = rule
      /\ Py.startswith rule "#" = false
      /\ Py.split rule <> [].
Proof.
  intros fs path rules H rule Hin.
  assert (Hsrc : rules = [] \/ exists file_lines,
             rules = map Py.strip (filter is_rule_line file_lines)).
  { unfold load_hashcat_rules, os_path_exists, open_lines in H.
    destruct (fs path) as [[| contents | delivered] |]; cbn in H;
      injection H as <-; auto; right; eexists;
      rewrite read_loop_filter; reflexivity. }
  destruct Hsrc as [-> | (file_lines & ->)]; [destruct Hin |].
  apply in_map_iff in Hin. destruct Hin as (line & <- & Hline).
  apply filter_In in Hline. now apply rule_line_gives_rule.
Qed.

Lemma loaded_rules_are_well_formed_witness :
  "T0 D1" <> "" /\ Py.strip "T0 D1" = "T0 D1"
  /\ Py.startswith "T0 D1" "#" = false
  /\ Py.split "T0 D1" <> [].
Proof.
  apply (loaded_rules_are_well_formed one_rule_file "Unicorn3k.rule"
           ["u $1"; "@ $X"; "T0 D1"] eq_refl).
  cbn. auto.
Defined.

(** X21: making a [PasswordGuesser] never raises, whatever lies behind
    the path of the rule file; the warning that no rule was loaded is
    printed exactly when the rule list is empty; and when the file is
    missing or cannot be opened the rule list is empty and the rule
    stage of the generator leaves the candidates as they are. *)
Theorem constructor_survives_missing_rule_file :
  forall fs k path,
  exists printed guesser,
    PasswordGuesser_init fs k path = (printed, Returns guesser)
    /\ max_guesses guesser = k
    /\ (In (NoRulesWarning path) printed <-> hashcat_rules guesser = [])
    /\ (open_lines fs path = Raises OSError ->
        hashcat_rules guesser = []
        /\ forall bases cand,
             apply_rules_stage (hashcat_rules guesser) bases cand = Returns cand).
Proof.
  intros fs k path. unfold PasswordGuesser_init.
  destruct (load_returns fs path) as [rules Hrules].
  pose proof (load_unopenable_empty fs path) as Hopen.
  destruct (load_hashcat_rules fs path) as [printed loaded].
  cbn [snd] in Hrules, Hopen. subst loaded.
  eexists. eexists. split; [reflexivity |].
  cbn [max_guesses hashcat_rules]. split; [reflexivity |]. split.
  - rewrite in_app_iff. split.
    + intros [H | H].
      * apply in_map_iff in H. destruct H as (m & Hm & _). discriminate Hm.
      * cbn [In] in H. destruct H as [H | []].
        destruct rules; [reflexivity | discriminate H].
    + intros ->. right. now left.
  - intros Hfail. specialize (Hopen Hfail). injection Hopen as ->.
    split; [reflexivity |]. intros bases cand. reflexivity.
Qed.

Lemma constructor_survives_missing_rule_file_witness :
  exists printed guesser,
    PasswordGuesser_init no_files 10000 "Unicorn3k.rule"
    = (printed, Returns guesser)
    /\ hashcat_rules guesser = [].
Proof.
  destruct (constructor_survives_missing_rule_file no_files 10000 "Unicorn3k.rule")
    as (printed & guesser & E & _ & _ & H).
  exists printed, guesser. split; [exact E |].
  apply (proj1 (H eq_refl)).
Defined.

(** * The engine over any character repertoire *)

Section UniEngine.

Variable T : Uni.tables.

Lemma uni_exec_T_equation (output : list Uni.str) (arg : Uni.str) :
  Uni.exec_part T output (Uni.code "T" :: arg) =
  try_except_ValueError_IndexError
    (d <- Uni.first arg ;;
     pos <- Uni.py_int T d 16 ;;
     if (pos <? Py.len output)%Z then
       x <- Py.getitem output pos ;;
       Py.setitem output pos (Uni.toggle T x)
     else Returns output)
    output.
Proof. reflexivity. Qed.

Lemma uni_exec_D_equation (output : list Uni.str) (arg : Uni.str) :
  Uni.exec_part T output (Uni.code "D" :: arg) =
  try_except_ValueError_IndexError
    (d <- Uni.first arg ;;
     n <- Uni.py_int T d 10 ;;
     let pos := (n - 1)%Z in
     if ((0 <=? pos)%Z && (pos <? Py.len output)%Z) then
       x <- Py.getitem output pos ;;
       Returns (Py.insert output (pos + 1) x)
     else Returns output)
    output.
Proof. reflexivity. Qed.

Lemma uni_exec_T_not_numeric (output : list Uni.str) (d : Uni.char) (rest : Uni.str) :
  Uni.int T d 16 = None ->
  Uni.exec_part T output (Uni.code "T" :: d :: rest) = Returns output.
Proof.
  intros H. rewrite uni_exec_T_equation. unfold Uni.py_int.
  cbn [Uni.first bind]. now rewrite H.
Qed.

Lemma uni_exec_T_beyond (output : list Uni.str) (d : Uni.char) (rest : Uni.str) (n : Z) :
  Uni.int T d 16 = Some n -> (Py.len output <= n)%Z ->
  Uni.exec_part T output (Uni.code "T" :: d :: rest) = Returns output.
Proof.
  intros H Hn. rewrite uni_exec_T_equation. unfold Uni.py_int.
  cbn [Uni.first bind]. rewrite H. cbn [bind].
  destruct (Z.ltb_spec n (Py.len output)); [lia | reflexivity].
Qed.

Lemma uni_exec_T_at (output : list Uni.str) (d : Uni.char) (rest : Uni.str)
    (n : Z) (x : Uni.str) :
  Uni.int T d 16 = Some n -> (0 <= n)%Z ->
  nth_error output (Z.to_nat n) = Some x ->
  Uni.exec_part T output (Uni.code "T" :: d :: rest)
  = Returns (firstn (Z.to_nat n) output
             ++ Uni.toggle T x :: skipn (S (Z.to_nat n)) output).
Proof.
  intros H Hn Hx. rewrite uni_exec_T_equation. unfold Uni.py_int.
  cbn [Uni.first bind]. rewrite H. cbn [bind].
  assert (Hin : (0 <= n < Py.len output)%Z).
  { split; [exact Hn |]. unfold Py.len.
    assert ((Z.to_nat n < List.length output)%nat)
      by (apply nth_error_Some; congruence).
    lia. }
  destruct (Z.ltb_spec n (Py.len output)); [| lia].
  destruct (getitem_in_range output n Hin) as (y & Hy & Hget).
  rewrite Hget. cbn [bind]. rewrite (setitem_in_range _ _ _ Hin).
  assert (y = x) by congruence. subst y.
  now rewrite (replace_nth_split _ _ _ _ Hx).
Qed.

Lemma uni_exec_D_not_numeric (output : list Uni.str) (d : Uni.char) (rest : Uni.str) :
  Uni.int T d 10 = None ->
  Uni.exec_part T output (Uni.code "D" :: d :: rest) = Returns output.
Proof.
  intros H. rewrite uni_exec_D_equation. unfold Uni.py_int.
  cbn [Uni.first bind]. now rewrite H.
Qed.

Lemma uni_exec_D_outside (output : list Uni.str) (d : Uni.char) (rest : Uni.str) (n : Z) :
  Uni.int T d 10 = Some n ->
  (n - 1 < 0 \/ Py.len output <= n - 1)%Z ->
  Uni.exec_part T output (Uni.code "D" :: d :: rest) = Returns output.
Proof.
  intros H Hn. rewrite uni_exec_D_equation. unfold Uni.py_int.
  cbn [Uni.first bind]. rewrite H. cbn [bind]. cbv zeta.
  destruct (Z.leb_spec 0 (n - 1)), (Z.ltb_spec (n - 1) (Py.len output));
    cbn [andb]; try reflexivity; lia.
Qed.

Lemma uni_exec_D_at (output : list Uni.str) (d : Uni.char) (rest : Uni.str)
    (n : Z) (x : Uni.str) :
  Uni.int T d 10 = Some n -> (1 <= n)%Z ->
  nth_error output (Z.to_nat (n - 1)) = Some x ->
  Uni.exec_part T output (Uni.code "D" :: d :: rest)
  = Returns (firstn (Z.to_nat n) output ++ x :: skipn (Z.to_nat n) output).
Proof.
  intros H Hn Hx. rewrite uni_exec_D_equation. unfold Uni.py_int.
  cbn [Uni.first bind]. rewrite H. cbn [bind]. cbv zeta.
  assert (Hin : (0 <= n - 1 < Py.len output)%Z).
  { split; [lia |]. unfold Py.len.
    assert ((Z.to_nat (n - 1) < List.length output)%nat)
      by (apply nth_error_Some; congruence).
    lia. }
  destruct (Z.leb_spec 0 (n - 1)); [| lia].
  destruct (Z.ltb_spec (n - 1) (Py.len output)); [| lia]. cbn [andb].
  destruct (getitem_in_range output (n - 1) Hin) as (y & Hy & Hget).
  rewrite Hget. cbn [bind]. assert (y = x) by congruence. subst y.
  rewrite insert_in_range by lia.
  replace (n - 1 + 1)%Z with n by lia. reflexivity.
Qed.

(** Whatever [int] gives, the two instructions with a position
    return: what the subscripts raise is caught. *)
Lemma getitem_raises {A : Type} (l : list A) (i : Z) (e : exn) :
  Py.getitem l i = Raises e -> e = IndexError.
Proof.
  unfold Py.getitem, Py.resolve_index.
  destruct (_ || _)%bool; cbn [bind]; [congruence |].
  destruct (nth_error l _); congruence.
Qed.

Lemma setitem_raises {A : Type} (l : list A) (i : Z) (x : A) (e : exn) :
  Py.setitem l i x = Raises e -> e = IndexError.
Proof.
  unfold Py.setitem, Py.resolve_index.
  destruct (_ || _)%bool; cbn [bind]; congruence.
Qed.

Lemma uni_exec_T_returns (output : list Uni.str) (arg : Uni.str) :
  exists output', Uni.exec_part T output (Uni.code "T" :: arg) = Returns output'.
Proof.
  rewrite uni_exec_T_equation. destruct arg as [| d rest].
  { eexists. reflexivity. }
  cbn [Uni.first bind]. unfold Uni.py_int.
  destruct (Uni.int T d 16) as [n |]; cbn [bind]; [| eexists; reflexivity].
  destruct (n <? Py.len output)%Z; [| eexists; reflexivity].
  destruct (Py.getitem output n) as [x | e] eqn:Hget; cbn [bind].
  - destruct (Py.setitem output n (Uni.toggle T x)) as [o | e] eqn:Hset.
    + eexists. reflexivity.
    + apply setitem_raises in Hset. subst e. eexists. reflexivity.
  - apply getitem_raises in Hget. subst e. eexists. reflexivity.
Qed.

Lemma uni_exec_D_returns (output : list Uni.str) (arg : Uni.str) :
  exists output', Uni.exec_part T output (Uni.code "D" :: arg) = Returns output'.
Proof.
  rewrite uni_exec_D_equation. destruct arg as [| d rest].
  { eexists. reflexivity. }
  cbn [Uni.first bind]. unfold Uni.py_int.
  destruct (Uni.int T d 10) as [n |]; cbn [bind]; [| eexists; reflexivity].
  cbv zeta. destruct (_ && _)%bool; [| eexists; reflexivity].
  destruct (Py.getitem output (n - 1)) as [x | e] eqn:Hget; cbn [bind].
  - eexists. reflexivity.
  - apply getitem_raises in Hget. subst e. eexists. reflexivity.
Qed.

Lemma uni_exec_part_returns (output : list Uni.str) (part : Uni.str) :
  exists output', Uni.exec_part T output part = Returns output'.
Proof.
  destruct part as [| cmd arg]; [eexists; reflexivity |].
  destruct (N.eqb_spec cmd (Uni.code "T")) as [-> | HT].
  { apply uni_exec_T_returns. }
  destruct (N.eqb_spec cmd (Uni.code "D")) as [-> | HD].
  { apply uni_exec_D_returns. }
  unfold Uni.exec_part. split_code cmd;
    try congruence;
    try (eexists; reflexivity);
    try (destruct output; eexists; reflexivity);
    try (destruct arg; eexists; reflexivity).
Qed.

Lemma uni_run_parts_returns (parts : list Uni.str) (output : list Uni.str) :
  exists output', Uni.run_parts T parts output = Returns output'.
Proof.
  revert output. induction parts as [| part rest IH]; intros output.
  - eexists. reflexivity.
  - destruct (uni_exec_part_returns output part) as [o Ho].
    cbn [Uni.run_parts]. rewrite Ho. cbn [bind]. apply IH.
Qed.

Lemma uni_apply_returns (word rule : Uni.str) :
  exists result, Uni.apply_hashcat_rule T word rule = Returns result.
Proof.
  unfold Uni.apply_hashcat_rule. destruct (Py.nonempty word); cbn [negb].
  - destruct (uni_run_parts_returns (Uni.split T rule) (Uni.items word)) as [o Ho].
    rewrite Ho. eexists. reflexivity.
  - eexists. reflexivity.
Qed.

Lemma uni_exec_part_malformed (output : list Uni.str) (part : Uni.str) :
  Uni.malformed T output part = true ->
  Uni.exec_part T output part = Returns output.
Proof.
  unfold Uni.malformed. intros H.
  apply orb_true_iff in H. destruct H as [H | H];
    [apply orb_true_iff in H; destruct H as [H | H] |].
  - destruct part as [| cmd [| d rest]]; try discriminate.
    cbn [Uni.argument_missing Uni.text list_ascii_of_string map existsb] in H.
    rewrite orb_false_r in H.
    repeat (apply orb_true_iff in H; destruct H as [H | H]);
      apply N.eqb_eq in H; subst cmd; reflexivity.
  - destruct part as [| cmd [| d rest]]; try discriminate.
    cbn [Uni.argument_not_numeric] in H.
    apply orb_true_iff in H. destruct H as [H | H];
      apply andb_true_iff in H; destruct H as [Hcmd H];
      apply N.eqb_eq in Hcmd; subst cmd.
    + apply uni_exec_T_not_numeric. destruct (Uni.int T d 16); congruence.
    + apply uni_exec_D_not_numeric. destruct (Uni.int T d 10); congruence.
  - destruct part as [| cmd [| d rest]]; try discriminate.
    cbn [Uni.position_out_of_bounds] in H.
    apply orb_true_iff in H. destruct H as [H | H];
      apply andb_true_iff in H; destruct H as [Hcmd H];
      apply N.eqb_eq in Hcmd; subst cmd.
    + destruct (Uni.int T d 16) as [n |] eqn:Hn; [| discriminate].
      apply Z.leb_le in H. now apply (uni_exec_T_beyond _ _ _ n).
    + destruct (Uni.int T d 10) as [n |] eqn:Hn; [| discriminate].
      apply (uni_exec_D_outside _ _ _ n Hn).
      apply orb_true_iff in H. destruct H as [H | H];
        [apply Z.ltb_lt in H | apply Z.leb_le in H]; lia.
Qed.

End UniEngine.

Section UniRules.

Variable T : Uni.tables.

Lemma uni_split_from_blank (cur s1 s2 : Uni.str) (b : Uni.char) :
  Uni.isspace T b = true ->
  Uni.split_from T cur (s1 ++ b :: s2)
  = Uni.split_from T cur s1 ++ Uni.split T s2.
Proof.
  intros Hb. revert cur. induction s1 as [| c s1 IH]; intros cur.
  - cbn [app Uni.split_from]. rewrite Hb.
    unfold Uni.split. destruct (Py.nonempty cur); reflexivity.
  - cbn [app Uni.split_from].
    destruct (Uni.isspace T c).
    + destruct (Py.nonempty cur); rewrite IH; reflexivity.
    + apply IH.
Qed.

Lemma uni_split_from_token (cur tok : Uni.str) :
  forallb (fun c => negb (Uni.isspace T c)) tok = true ->
  Uni.split_from T cur tok
  = if Py.nonempty (cur ++ tok) then [cur ++ tok] else [].
Proof.
  revert cur. induction tok as [| c tok IH]; intros cur H.
  - cbn [Uni.split_from]. now rewrite app_nil_r.
  - cbn [forallb] in H. apply andb_true_iff in H. destruct H as [Hc H].
    apply negb_true_iff in Hc. cbn [Uni.split_from]. rewrite Hc.
    rewrite (IH _ H), <- app_assoc. reflexivity.
Qed.

Lemma uni_split_token (tok : Uni.str) :
  Uni.token T tok = true -> Uni.split T tok = [tok].
Proof.
  unfold Uni.token. intros H. apply andb_true_iff in H.
  destruct H as [Hne H]. unfold Uni.split.
  rewrite (uni_split_from_token _ _ H). cbn [app]. now rewrite Hne.
Qed.

Lemma uni_run_parts_app (parts1 parts2 : list Uni.str) (output : list Uni.str) :
  Uni.run_parts T (parts1 ++ parts2) output
  = (output' <- Uni.run_parts T parts1 output ;;
     Uni.run_parts T parts2 output').
Proof.
  revert output. induction parts1 as [| part rest IH]; intros output.
  - reflexivity.
  - cbn [app Uni.run_parts]. destruct (Uni.exec_part T output part) as [o | e].
    + cbn [bind]. apply IH.
    + reflexivity.
Qed.

Lemma concat_items (word : Uni.str) : List.concat (Uni.items word) = word.
Proof.
  unfold Uni.items. induction word as [| c w IH]; [reflexivity |].
  cbn. now rewrite IH.
Qed.

Lemma uni_apply_nonempty (word rule : Uni.str) :
  word <> [] ->
  Uni.apply_hashcat_rule T word rule
  = (output <- Uni.run_parts T (Uni.split T rule) (Uni.items word) ;;
     Returns (List.concat output)).
Proof.
  intros H. unfold Uni.apply_hashcat_rule.
  destruct word; [congruence | reflexivity].
Qed.

Lemma uni_apply_token (word tok : Uni.str) :
  word <> [] -> Uni.token T tok = true ->
  Uni.apply_hashcat_rule T word tok
  = (output <- Uni.exec_part T (Uni.items word) tok ;;
     Returns (List.concat output)).
Proof.
  intros Hw Ht. rewrite (uni_apply_nonempty _ _ Hw), (uni_split_token _ Ht).
  cbn [Uni.run_parts]. destruct (Uni.exec_part T (Uni.items word) tok); reflexivity.
Qed.

End UniRules.

(** ** On ASCII text the general engine is the ASCII engine *)

Lemma code_eqb (c d : ascii) :
  N.eqb (Uni.code c) (Uni.code d) = Ascii.eqb c d.
Proof.
  unfold Uni.code. destruct (Ascii.eqb_spec c d) as [-> | Hne].
  - apply N.eqb_refl.
  - apply N.eqb_neq. intros E. apply Hne.
    rewrite <- (ascii_N_embedding c), <- (ascii_N_embedding d). now rewrite E.
Qed.

Lemma text_cons (c : ascii) (s : string) :
  Uni.text (String c s) = Uni.code c :: Uni.text s.
Proof. reflexivity. Qed.

Lemma text_app (s1 s2 : string) :
  Uni.text (s1 ++ s2) = Uni.text s1 ++ Uni.text s2.
Proof.
  induction s1 as [| c s1 IH]; [reflexivity |].
  cbn [String.append]. rewrite !text_cons, IH. reflexivity.
Qed.

Lemma text_join (l : list ascii) : Uni.text (Py.join l) = map Uni.code l.
Proof.
  unfold Uni.text. change (list_ascii_of_string (Py.join l))
    with (Py.list_of (Py.join l)).
  now rewrite list_of_join.
Qed.

Lemma concat_items_of (l : list ascii) :
  List.concat (items_of l) = Uni.text (Py.join l).
Proof.
  rewrite text_join. unfold items_of.
  induction l as [| c l IH]; [reflexivity |]. cbn. now rewrite IH.
Qed.

Lemma items_text (s : string) :
  Uni.items (Uni.text s) = items_of (Py.list_of s).
Proof. unfold Uni.items, Uni.text, items_of. now rewrite map_map. Qed.

Lemma ascii_only_spec (s : string) :
  ascii_only s = true <-> Forall low (Py.list_of s).
Proof.
  unfold ascii_only. rewrite forallb_forall, Forall_forall.
  split; intros H c Hc; specialize (H c Hc); [now apply N.ltb_lt |].
  now apply N.ltb_lt.
Qed.

Lemma low_upper (c : ascii) : low c -> low (Py.upper c).
Proof.
  all_characters c; intros H; vm_compute in H |- *;
    (reflexivity || discriminate H).
Qed.

Lemma low_lower (c : ascii) : low c -> low (Py.lower c).
Proof.
  all_characters c; intros H; vm_compute in H |- *;
    (reflexivity || discriminate H).
Qed.

Lemma low_toggle_case (c : ascii) : low c -> low (toggle_case c).
Proof.
  all_characters c; intros H; vm_compute in H |- *;
    (reflexivity || discriminate H).
Qed.

Lemma Forall_low_map (g : ascii -> ascii) (l : list ascii) :
  (forall c, low c -> low (g c)) -> Forall low l -> Forall low (map g l).
Proof.
  intros Hg H. induction H as [| c l Hc _ IH]; cbn; constructor; auto.
Qed.

Section Bridge.

Variable T : Uni.tables.
Hypothesis agrees : Uni.agrees_on_ascii T.

Lemma agrees_isspace (c : ascii) : low c -> Uni.isspace T (Uni.code c) = Py.isspace c.
Proof. intros H. apply (agrees c H). Qed.

Lemma agrees_upper (c : ascii) :
  low c -> Uni.upper T [Uni.code c] = [Uni.code (Py.upper c)].
Proof. intros H. apply (agrees c H). Qed.

Lemma agrees_lower (c : ascii) :
  low c -> Uni.lower T [Uni.code c] = [Uni.code (Py.lower c)].
Proof. intros H. apply (agrees c H). Qed.

Lemma agrees_toggle (c : ascii) :
  low c -> Uni.toggle T [Uni.code c] = [Uni.code (toggle_case c)].
Proof.
  intros H. unfold Uni.toggle, toggle_case.
  destruct (agrees c H) as (_ & Hu & Hl & Hi & _). rewrite Hi.
  destruct (Py.islower c); assumption.
Qed.

Lemma agrees_int_16 (d : ascii) :
  low d ->
  Uni.int T (Uni.code d) 16 = option_map Z.of_nat (hex_digit d).
Proof.
  intros H. destruct (agrees d H) as (_ & _ & _ & _ & _ & H16).
  rewrite H16, int_16_hex_digit. destruct (hex_digit d); reflexivity.
Qed.

Lemma agrees_int_10 (d : ascii) :
  low d ->
  Uni.int T (Uni.code d) 10 = option_map Z.of_nat (decimal_digit d).
Proof.
  intros H. destruct (agrees d H) as (_ & _ & _ & _ & H10 & _).
  rewrite H10, int_10_decimal_digit. destruct (decimal_digit d); reflexivity.
Qed.

Lemma map_items_of (f : Uni.str -> Uni.str) (g : ascii -> ascii) (l : list ascii) :
  (forall c, low c -> f [Uni.code c] = [Uni.code (g c)]) ->
  Forall low l -> map f (items_of l) = items_of (map g l).
Proof.
  intros Hfg H. unfold items_of.
  induction H as [| c l Hc _ IH]; cbn [map]; [reflexivity |].
  now rewrite (Hfg c Hc), IH.
Qed.

End Bridge.

Section UniInstructions.

Variable T : Uni.tables.

Lemma uni_exec_colon (output : list Uni.str) (arg : Uni.str) :
  Uni.exec_part T output (Uni.code ":" :: arg) = Returns output.
Proof. reflexivity. Qed.

Lemma uni_exec_l (output : list Uni.str) (arg : Uni.str) :
  Uni.exec_part T output (Uni.code "l" :: arg)
  = Returns (map (Uni.lower T) output).
Proof. reflexivity. Qed.

Lemma uni_exec_u (output : list Uni.str) (arg : Uni.str) :
  Uni.exec_part T output (Uni.code "u" :: arg)
  = Returns (map (Uni.upper T) output).
Proof. reflexivity. Qed.

Lemma uni_exec_t (output : list Uni.str) (arg : Uni.str) :
  Uni.exec_part T output (Uni.code "t" :: arg)
  = Returns (map (Uni.toggle T) output).
Proof. reflexivity. Qed.

Lemma uni_exec_r (output : list Uni.str) (arg : Uni.str) :
  Uni.exec_part T output (Uni.code "r" :: arg) = Returns (rev output).
Proof. reflexivity. Qed.

Lemma uni_exec_c (output : list Uni.str) (arg : Uni.str) :
  Uni.exec_part T output (Uni.code "c" :: arg)
  = Returns match output with
            | [] => []
            | a :: rest =>
                Uni.upper T (Uni.lower T a) :: map (Uni.lower T) rest
            end.
Proof. destruct output; reflexivity. Qed.

Lemma uni_exec_C (output : list Uni.str) (arg : Uni.str) :
  Uni.exec_part T output (Uni.code "C" :: arg)
  = Returns match output with
            | [] => []
            | a :: rest =>
                Uni.lower T (Uni.upper T a) :: map (Uni.upper T) rest
            end.
Proof. destruct output; reflexivity. Qed.

Lemma uni_exec_drop_first (output : list Uni.str) (arg : Uni.str) :
  Uni.exec_part T output (Uni.code "[" :: arg) = Returns (tl output).
Proof. destruct output; reflexivity. Qed.

Lemma uni_exec_drop_last (output : list Uni.str) (arg : Uni.str) :
  Uni.exec_part T output (Uni.code "]" :: arg) = Returns (removelast output).
Proof. destruct output; reflexivity. Qed.

Lemma uni_exec_append (output : list Uni.str) (cmd : ascii) (arg : Uni.str) :
  cmd = "$"%char \/ cmd = "+"%char ->
  Uni.exec_part T output (Uni.code cmd :: arg)
  = Returns match arg with
            | [] => output
            | a :: _ => output ++ [[a]]
            end.
Proof. intros [-> | ->]; destruct arg; reflexivity. Qed.

Lemma uni_exec_prepend (output : list Uni.str) (cmd : ascii) (arg : Uni.str) :
  cmd = "^"%char \/ cmd = "-"%char ->
  Uni.exec_part T output (Uni.code cmd :: arg)
  = Returns match arg with
            | [] => output
            | a :: _ => [a] :: output
            end.
Proof.
  intros [-> | ->]; destruct arg; cbn; rewrite ?insert_front; reflexivity.
Qed.

Lemma uni_exec_unknown (output : list Uni.str) (cmd : ascii) (arg : Uni.str) :
  known_opcode cmd = false ->
  Uni.exec_part T output (Uni.code cmd :: arg) = Returns output.
Proof.
  unfold known_opcode. cbn [existsb Py.list_of list_ascii_of_string].
  intros H.
  repeat (apply orb_false_elim in H; destruct H as [?E H]).
  unfold Uni.exec_part. rewrite !code_eqb.
  repeat match goal with
         | E : Ascii.eqb cmd ?x = false |- _ => rewrite E; clear E
         end.
  reflexivity.
Qed.

End UniInstructions.

Lemma map_tl {A B : Type} (f : A -> B) (l : list A) : map f (tl l) = tl (map f l).
Proof. destruct l; reflexivity. Qed.

Lemma map_removelast {A B : Type} (f : A -> B) (l : list A) :
  map f (removelast l) = removelast (map f l).
Proof.
  induction l as [| a [| b l] IH]; try reflexivity.
  change (removelast (a :: b :: l)) with (a :: removelast (b :: l)).
  cbn [map]. change (removelast (f a :: f b :: map f l))
    with (f a :: removelast (f b :: map f l)).
  f_equal. exact IH.
Qed.

Lemma in_suffix {A : Type} (m : nat) (l : list A) (x : A) :
  In x (skipn m l) -> In x l.
Proof.
  intros H. rewrite <- (firstn_skipn m l). apply in_or_app. now right.
Qed.

Lemma Forall_prefix {A : Type} (P : A -> Prop) (m : nat) (l : list A) :
  Forall P l -> Forall P (firstn m l).
Proof.
  rewrite !Forall_forall. intros H x Hx. apply H. now apply in_prefix in Hx.
Qed.

Lemma Forall_suffix {A : Type} (P : A -> Prop) (m : nat) (l : list A) :
  Forall P l -> Forall P (skipn m l).
Proof.
  rewrite !Forall_forall. intros H x Hx. apply H. now apply in_suffix in Hx.
Qed.

Lemma Forall_removelast {A : Type} (P : A -> Prop) (l : list A) :
  Forall P l -> Forall P (removelast l).
Proof. rewrite removelast_firstn_len. apply Forall_prefix. Qed.

Lemma opcode_known_or_not (cmd : ascii) :
  known_opcode cmd = false
  \/ In cmd (Py.list_of ":lucCtr[]$^TD+-").
Proof.
  unfold known_opcode.
  destruct (existsb (Ascii.eqb cmd) (Py.list_of ":lucCtr[]$^TD+-")) eqn:E;
    [right | now left].
  apply existsb_exists in E. destruct E as (x & Hx & Heq).
  apply Ascii.eqb_eq in Heq. now subst.
Qed.

Section BridgeInstructions.

Variable T : Uni.tables.
Hypothesis agrees : Uni.agrees_on_ascii T.

Lemma items_of_replaced (output : list ascii) (n : nat) (x : ascii) :
  low x ->
  firstn n (items_of output) ++ Uni.toggle T [Uni.code x]
    :: skipn (S n) (items_of output)
  = items_of (firstn n output ++ toggle_case x :: skipn (S n) output).
Proof.
  intros Hx. unfold items_of.
  rewrite map_app, firstn_map, skipn_map. cbn [map].
  now rewrite (agrees_toggle T agrees x Hx).
Qed.

Lemma items_of_duplicated (output : list ascii) (n : nat) (x : ascii) :
  firstn n (items_of output) ++ [Uni.code x] :: skipn n (items_of output)
  = items_of (firstn n output ++ x :: skipn n output).
Proof.
  unfold items_of. now rewrite map_app, firstn_map, skipn_map.
Qed.

Lemma len_items_of (output : list ascii) :
  Py.len (items_of output) = Py.len output.
Proof. unfold Py.len, items_of. now rewrite length_map. Qed.

Lemma nth_error_items_of (output : list ascii) (n : nat) (x : ascii) :
  nth_error output n = Some x ->
  nth_error (items_of output) n = Some [Uni.code x].
Proof.
  intros H. unfold items_of.
  exact (map_nth_error (fun c => [Uni.code c]) n output H).
Qed.

Lemma bridge_exec_T (output : list ascii) (arg : string) :
  Forall low output -> Forall low (Py.list_of arg) ->
  exists o,
    exec_part output (String "T" arg) = Returns o
    /\ Forall low o
    /\ Uni.exec_part T (items_of output) (Uni.code "T" :: Uni.text arg)
       = Returns (items_of o).
Proof.
  intros Hout Harg. destruct arg as [| d rest].
  { exists output. repeat split; auto. }
  inversion Harg as [| ? ? Hd _]; subst. rewrite text_cons.
  rewrite exec_T_digit.
  pose proof (agrees_int_16 T agrees d Hd) as Hint.
  destruct (hex_digit d) as [n |]; cbn [option_map] in Hint.
  2:{ exists output. repeat split; auto. now apply uni_exec_T_not_numeric. }
  destruct (nth_error output n) as [x |] eqn:Hx.
  - assert (Hlx : low x).
    { rewrite Forall_forall in Hout. apply Hout. eapply nth_error_In; eauto. }
    eexists. split; [reflexivity |]. split.
    + apply Forall_app. split; [now apply Forall_prefix |].
      constructor; [now apply low_toggle_case | now apply Forall_suffix].
    + rewrite (uni_exec_T_at T _ _ _ (Z.of_nat n) [Uni.code x] Hint);
        [| lia | rewrite Nat2Z.id; now apply nth_error_items_of].
      rewrite Nat2Z.id. now rewrite items_of_replaced.
  - exists output. split; [reflexivity |]. split; [exact Hout |].
    apply (uni_exec_T_beyond T _ _ _ (Z.of_nat n) Hint).
    rewrite len_items_of. unfold Py.len.
    apply nth_error_None in Hx. lia.
Qed.

Lemma bridge_exec_D (output : list ascii) (arg : string) :
  Forall low output -> Forall low (Py.list_of arg) ->
  exists o,
    exec_part output (String "D" arg) = Returns o
    /\ Forall low o
    /\ Uni.exec_part T (items_of output) (Uni.code "D" :: Uni.text arg)
       = Returns (items_of o).
Proof.
  intros Hout Harg. destruct arg as [| d rest].
  { exists output. repeat split; auto. }
  inversion Harg as [| ? ? Hd _]; subst. rewrite text_cons.
  rewrite exec_D_digit.
  pose proof (agrees_int_10 T agrees d Hd) as Hint.
  destruct (decimal_digit d) as [[| p] |]; cbn [option_map] in Hint.
  3:{ exists output. repeat split; auto. now apply uni_exec_D_not_numeric. }
  { exists output. repeat split; auto.
    apply (uni_exec_D_outside T _ _ _ _ Hint). lia. }
  destruct (nth_error output p) as [x |] eqn:Hx.
  - assert (Hlx : low x).
    { rewrite Forall_forall in Hout. apply Hout. eapply nth_error_In; eauto. }
    eexists. split; [reflexivity |]. split.
    + apply Forall_app. split; [now apply Forall_prefix |].
      constructor; [exact Hlx | now apply Forall_suffix].
    + rewrite (uni_exec_D_at T _ _ _ (Z.of_nat (S p)) [Uni.code x] Hint);
        [| lia
         | replace (Z.to_nat (Z.of_nat (S p) - 1)) with p by lia;
           now apply nth_error_items_of].
      rewrite Nat2Z.id. now rewrite items_of_duplicated.
  - exists output. split; [reflexivity |]. split; [exact Hout |].
    apply (uni_exec_D_outside T _ _ _ _ Hint). right.
    rewrite len_items_of. unfold Py.len.
    apply nth_error_None in Hx. lia.
Qed.

End BridgeInstructions.

Section BridgeEngine.

Variable T : Uni.tables.
Hypothesis agrees : Uni.agrees_on_ascii T.

Lemma bridge_exec_part (output : list ascii) (part : string) :
  Forall low output -> Forall low (Py.list_of part) ->
  exists o,
    exec_part output part = Returns o
    /\ Forall low o
    /\ Uni.exec_part T (items_of output) (Uni.text part) = Returns (items_of o).
Proof.
  intros Hout Hpart. destruct part as [| cmd arg].
  { exists output. repeat split; auto. }
  inversion Hpart as [| ? ? Hcmd Harg]; subst. rewrite text_cons.
  destruct (opcode_known_or_not cmd) as [Hunk | Hin].
  { exists output. split; [now apply exec_part_unknown |].
    split; [exact Hout | now apply uni_exec_unknown]. }
  cbn [In Py.list_of list_ascii_of_string] in Hin.
  destruct Hin as [<- | [<- | [<- | [<- | [<- | [<- | [<- | [<- | [<- |
                  [<- | [<- | [<- | [<- | [<- | [<- | []]]]]]]]]]]]]]]].
  - (* : *) exists output. repeat split; auto.
  - (* l *) exists (map Py.lower output). split; [apply exec_l |]. split.
    + apply Forall_low_map; [apply low_lower | exact Hout].
    + rewrite uni_exec_l. f_equal.
      apply map_items_of; [apply (agrees_lower T agrees) | exact Hout].
  - (* u *) exists (map Py.upper output). split; [apply exec_u |]. split.
    + apply Forall_low_map; [apply low_upper | exact Hout].
    + rewrite uni_exec_u. f_equal.
      apply map_items_of; [apply (agrees_upper T agrees) | exact Hout].
  - (* c *) eexists. split; [apply exec_c |].
    destruct Hout as [| a rest Ha Hrest]; [repeat split; constructor |].
    split.
    + constructor; [apply low_upper, low_lower, Ha |].
      apply Forall_low_map; [apply low_lower | exact Hrest].
    + rewrite uni_exec_c. cbn [items_of map]. f_equal.
      rewrite (agrees_lower T agrees a Ha).
      rewrite (agrees_upper T agrees _ (low_lower a Ha)). f_equal.
      apply (map_items_of (Uni.lower T) Py.lower);
        [apply (agrees_lower T agrees) | exact Hrest].
  - (* C *) eexists. split; [apply exec_C |].
    destruct Hout as [| a rest Ha Hrest]; [repeat split; constructor |].
    split.
    + constructor; [apply low_lower, low_upper, Ha |].
      apply Forall_low_map; [apply low_upper | exact Hrest].
    + rewrite uni_exec_C. cbn [items_of map]. f_equal.
      rewrite (agrees_upper T agrees a Ha).
      rewrite (agrees_lower T agrees _ (low_upper a Ha)). f_equal.
      apply (map_items_of (Uni.upper T) Py.upper);
        [apply (agrees_upper T agrees) | exact Hrest].
  - (* t *) exists (map toggle_case output). split; [apply exec_t |]. split.
    + apply Forall_low_map; [apply low_toggle_case | exact Hout].
    + rewrite uni_exec_t. f_equal.
      apply map_items_of; [apply (agrees_toggle T agrees) | exact Hout].
  - (* r *) exists (rev output). split; [apply exec_r |]. split.
    + now apply Forall_rev.
    + rewrite uni_exec_r. unfold items_of. now rewrite map_rev.
  - (* [ *) exists (tl output). split; [apply exec_drop_first |]. split.
    + destruct Hout; [constructor | assumption].
    + rewrite uni_exec_drop_first. unfold items_of. now rewrite map_tl.
  - (* ] *) exists (removelast output). split; [apply exec_drop_last |]. split.
    + now apply Forall_removelast.
    + rewrite uni_exec_drop_last. unfold items_of. now rewrite map_removelast.
  - (* $ *) eexists. split; [apply (exec_append _ "$"); now left |].
    rewrite (uni_exec_append T _ "$") by now left.
    destruct arg as [| a rest]; [repeat split; auto |].
    inversion Harg; subst. rewrite text_cons. split.
    + apply Forall_app. split; [exact Hout | now constructor].
    + unfold items_of. now rewrite map_app.
  - (* ^ *) eexists. split; [apply (exec_prepend _ "^"); now left |].
    rewrite (uni_exec_prepend T _ "^") by now left.
    destruct arg as [| a rest]; [repeat split; auto |].
    inversion Harg; subst. rewrite text_cons. split.
    + now constructor.
    + reflexivity.
  - (* T *) now apply bridge_exec_T.
  - (* D *) now apply bridge_exec_D.
  - (* + *) eexists. split; [apply (exec_append _ "+"); now right |].
    rewrite (uni_exec_append T _ "+") by now right.
    destruct arg as [| a rest]; [repeat split; auto |].
    inversion Harg; subst. rewrite text_cons. split.
    + apply Forall_app. split; [exact Hout | now constructor].
    + unfold items_of. now rewrite map_app.
  - (* - *) eexists. split; [apply (exec_prepend _ "-"); now right |].
    rewrite (uni_exec_prepend T _ "-") by now right.
    destruct arg as [| a rest]; [repeat split; auto |].
    inversion Harg; subst. rewrite text_cons. split.
    + now constructor.
    + reflexivity.
Qed.

Lemma bridge_run_parts (parts : list string) (output : list ascii) :
  Forall low output ->
  Forall (fun part => Forall low (Py.list_of part)) parts ->
  exists o,
    run_parts parts output = Returns o
    /\ Forall low o
    /\ Uni.run_parts T (map Uni.text parts) (items_of output)
       = Returns (items_of o).
Proof.
  intros Hout Hparts. revert output Hout.
  induction Hparts as [| part rest Hpart _ IH]; intros output Hout.
  - exists output. repeat split; auto.
  - destruct (bridge_exec_part output part Hout Hpart) as (o1 & E1 & L1 & U1).
    destruct (IH o1 L1) as (o2 & E2 & L2 & U2).
    exists o2. cbn [run_parts map Uni.run_parts].
    rewrite E1, U1. cbn [bind]. auto.
Qed.

Lemma text_snoc (cur : string) (c : ascii) :
  Uni.text (cur ++ String c "") = Uni.text cur ++ [Uni.code c].
Proof. now rewrite text_app. Qed.

Lemma nonempty_text (s : string) : Py.nonempty (Uni.text s) = Py.truthy s.
Proof. destruct s; reflexivity. Qed.

Lemma Forall_low_snoc (cur : string) (c : ascii) :
  Forall low (Py.list_of cur) -> low c ->
  Forall low (Py.list_of (cur ++ String c "")).
Proof.
  intros Hcur Hc. induction cur as [| a cur IH]; cbn.
  - now constructor.
  - inversion Hcur; subst. constructor; [assumption | now apply IH].
Qed.

Lemma bridge_split_from (cur s : string) :
  Forall low (Py.list_of cur) -> Forall low (Py.list_of s) ->
  Uni.split_from T (Uni.text cur) (Uni.text s)
  = map Uni.text (Py.split_from cur s)
  /\ Forall (fun part => Forall low (Py.list_of part)) (Py.split_from cur s).
Proof.
  revert cur. induction s as [| c s IH]; intros cur Hcur Hs.
  - cbn [Uni.text list_ascii_of_string map Uni.split_from Py.split_from].
    change (map Uni.code (list_ascii_of_string cur)) with (Uni.text cur).
    rewrite nonempty_text.
    destruct (Py.truthy cur); split; try reflexivity; repeat constructor; auto.
  - inversion Hs as [| ? ? Hc Hs']; subst.
    rewrite text_cons. cbn [Uni.split_from Py.split_from].
    rewrite (agrees_isspace T agrees c Hc), nonempty_text.
    destruct (Py.isspace c).
    + destruct (IH "" (Forall_nil _) Hs') as [E F].
      change (Uni.text "") with (@nil Uni.char) in E.
      destruct (Py.truthy cur); cbn [map]; rewrite E; split; auto.
    + rewrite <- text_snoc. apply IH; [now apply Forall_low_snoc | exact Hs'].
Qed.

Lemma bridge_apply (word rule : string) :
  ascii_only word = true -> ascii_only rule = true ->
  Uni.apply_hashcat_rule T (Uni.text word) (Uni.text rule)
  = lift Uni.text (apply_hashcat_rule word rule).
Proof.
  intros Hword Hrule.
  apply ascii_only_spec in Hword. apply ascii_only_spec in Hrule.
  unfold Uni.apply_hashcat_rule, apply_hashcat_rule.
  rewrite nonempty_text. destruct (Py.truthy word); [| reflexivity].
  cbn [negb]. rewrite items_text.
  destruct (bridge_split_from "" rule (Forall_nil _) Hrule) as [Es Fs].
  change (Uni.text "") with (@nil Uni.char) in Es.
  unfold Uni.split, Py.split. rewrite Es.
  destruct (bridge_run_parts _ _ Hword Fs) as (o & E & _ & U).
  rewrite E, U. cbn [bind lift]. now rewrite concat_items_of.
Qed.

End BridgeEngine.

Lemma sample_tables_agree : Uni.agrees_on_ascii Uni.sample_tables.
Proof.
  intros c H. all_characters c; vm_compute in H; try discriminate H;
    repeat split; vm_compute; reflexivity.
Qed.

(** ** The fail-soft policy *)

Lemma uni_continue_with_append (T : Uni.tables) (word part : Uni.str) (a : Uni.char) :
  Uni.isspace T (Uni.code " ") = true ->
  Uni.isspace T (Uni.code "$") = false ->
  word <> [] -> Uni.token T part = true ->
  Uni.malformed T (Uni.items word) part = true ->
  Uni.isspace T a = false ->
  Uni.apply_hashcat_rule T word (part ++ Uni.text " $" ++ [a])
  = Returns (word ++ [a]).
Proof.
  intros Hsp Hdollar Hword Htok Hmal Ha.
  rewrite (uni_apply_nonempty T _ _ Hword).
  change (part ++ Uni.text " $" ++ [a])
    with (part ++ Uni.code " " :: [Uni.code "$"; a]).
  unfold Uni.split at 1.
  rewrite (uni_split_from_blank T _ _ _ _ Hsp).
  change (Uni.split_from T [] part) with (Uni.split T part).
  rewrite (uni_split_token T _ Htok).
  assert (Htok2 : Uni.token T [Uni.code "$"; a] = true).
  { unfold Uni.token. cbn [Py.nonempty forallb andb]. now rewrite Hdollar, Ha. }
  rewrite (uni_split_token T _ Htok2). cbn [app Uni.run_parts].
  rewrite (uni_exec_part_malformed T _ _ Hmal). cbn [bind].
  rewrite (uni_exec_append T _ "$") by now left. cbn [bind].
  now rewrite concat_app, concat_items.
Qed.

(** C3: for every word and every rule [apply_hashcat_rule] returns, it
    never raises, whatever the tables of the string methods and of
    [int] are.  An instruction whose argument is missing, on whose
    argument [int] raises where a number is required, or that names a
    position outside the list that holds the current word, returns that
    list unchanged, and the loop goes on with the next instruction: a
    rule made of such an instruction and of [$X] returns the word with
    [X] appended, so [T9 $1], [Tz $1], [D0 $1], [D9 $1], [T $1] and
    [$ $1] all turn "alice" into "alice1". *)
Theorem fail_soft_policy :
  forall T : Uni.tables,
    (forall word rule,
        exists result, Uni.apply_hashcat_rule T word rule = Returns result)
    /\ (forall output part rest,
          Uni.malformed T output part = true ->
          Uni.exec_part T output part = Returns output
          /\ Uni.run_parts T (part :: rest) output = Uni.run_parts T rest output)
    /\ (Uni.agrees_on_ascii T ->
        (forall word part a,
            word <> [] -> Uni.token T part = true ->
            Uni.malformed T (Uni.items word) part = true ->
            Uni.isspace T a = false ->
            Uni.apply_hashcat_rule T word (part ++ Uni.text " $" ++ [a])
            = Returns (word ++ [a]))
        /\ Forall (fun rule =>
                     Uni.apply_hashcat_rule T (Uni.text "alice") (Uni.text rule)
                     = Returns (Uni.text "alice1"))
                  ["T9 $1"; "Tz $1"; "D0 $1"; "D9 $1"; "T $1"; "$ $1"; "D $1"]).
Proof.
  intros T. split; [apply uni_apply_returns |]. split.
  - intros output part rest H. apply (uni_exec_part_malformed T) in H.
    split; [exact H |]. cbn [Uni.run_parts]. now rewrite H.
  - intros Hagree. split.
    + intros word part a. apply uni_continue_with_append.
      * now rewrite (agrees_isspace T Hagree " "%char eq_refl).
      * now rewrite (agrees_isspace T Hagree "$"%char eq_refl).
    + repeat (apply Forall_cons;
              [match goal with
               | |- Uni.apply_hashcat_rule T _ (Uni.text ?r) = _ =>
                   rewrite (bridge_apply T Hagree "alice" r eq_refl eq_refl)
               end; reflexivity |]).
      apply Forall_nil.
Qed.

Lemma fail_soft_policy_witness :
  (Uni.exec_part Uni.sample_tables [[97]; [98]]%N (Uni.text "T9")
   = Returns [[97]; [98]]%N
   /\ Uni.run_parts Uni.sample_tables [Uni.text "T9"; Uni.text "$1"] [[97]; [98]]%N
      = Uni.run_parts Uni.sample_tables [Uni.text "$1"] [[97]; [98]]%N)
  /\ Uni.apply_hashcat_rule Uni.sample_tables [223; 97]%N
       (Uni.text "D5" ++ Uni.text " $" ++ [1635]%N)
     = Returns ([223; 97] ++ [1635])%N.
Proof.
  split.
  - apply (proj1 (proj2 (fail_soft_policy Uni.sample_tables))). reflexivity.
  - apply (proj1 (proj2 (proj2 (fail_soft_policy Uni.sample_tables))
                    sample_tables_agree));
      [discriminate | reflexivity | reflexivity | reflexivity].
Defined.


(** *** After a rule, on ASCII text *)

Lemma list_of_app (s1 s2 : string) :
  Py.list_of (s1 ++ s2) = Py.list_of s1 ++ Py.list_of s2.
Proof.
  unfold Py.list_of.
  induction s1 as [| a s1 IH]; cbn; [reflexivity | now rewrite IH].
Qed.

Lemma ascii_only_app (s1 s2 : string) :
  ascii_only (s1 ++ s2) = ascii_only s1 && ascii_only s2.
Proof. unfold ascii_only. now rewrite list_of_app, forallb_app. Qed.

Lemma apply_keeps_ascii (word rule result : string) :
  ascii_only word = true -> ascii_only rule = true ->
  apply_hashcat_rule word rule = Returns result ->
  ascii_only result = true.
Proof.
  intros Hword Hrule H. apply ascii_only_spec.
  apply ascii_only_spec in Hword. apply ascii_only_spec in Hrule.
  unfold apply_hashcat_rule in H.
  destruct (Py.truthy word); cbn [negb] in H;
    [| injection H as <-; constructor].
  destruct (bridge_split_from Uni.sample_tables sample_tables_agree
              "" rule (Forall_nil _) Hrule) as [_ Fs].
  destruct (bridge_run_parts Uni.sample_tables sample_tables_agree
              _ _ Hword Fs) as (o & E & L & _).
  unfold Py.split in H. rewrite E in H. cbn [bind] in H.
  injection H as <-. now rewrite list_of_join.
Qed.

Lemma hex_digit_not_blank (d : ascii) (n : nat) :
  hex_digit d = Some n -> Py.isspace d = false.
Proof. all_characters d; intros H; (reflexivity || discriminate H). Qed.

Lemma decimal_digit_not_blank (d : ascii) (n : nat) :
  decimal_digit d = Some n -> Py.isspace d = false.
Proof. all_characters d; intros H; (reflexivity || discriminate H). Qed.

Lemma ascii_instruction_after_rule (word rule r1 : string) (cmd d : ascii) :
  apply_hashcat_rule word rule = Returns r1 -> r1 <> "" ->
  Py.isspace cmd = false -> Py.isspace d = false ->
  apply_hashcat_rule word (rule ++ String " " (String cmd (String d "")))
  = (output <- exec_part (Py.list_of r1) (String cmd (String d "")) ;;
     Returns (Py.join output)).
Proof.
  intros H1 Hr1 Hcmd Hd.
  destruct (Py.truthy word) eqn:Hword.
  2:{ destruct word; [| discriminate].
      rewrite apply_empty_word in H1. injection H1 as <-. congruence. }
  rewrite (apply_nonempty _ _ Hword) in H1.
  rewrite (apply_nonempty _ _ Hword).
  rewrite (split_blank rule _ " " eq_refl), run_parts_app.
  destruct (run_parts (Py.split rule) (Py.list_of word)) as [o | e];
    [| discriminate].
  cbn [bind] in *. injection H1 as <-. rewrite list_of_join.
  unfold Py.split. cbn [Py.split_from]. rewrite Hcmd, Hd.
  cbn [Py.truthy String.append run_parts].
  destruct (exec_part o (String cmd (String d ""))); reflexivity.
Qed.

Section AfterRule.

Variable T : Uni.tables.
Hypothesis agrees : Uni.agrees_on_ascii T.

Lemma bridge_instruction_after_rule
    (word rule : string) (cmd d : ascii) (current result : Uni.str) :
  ascii_only word = true -> ascii_only rule = true -> low cmd -> low d ->
  Py.isspace cmd = false -> Py.isspace d = false ->
  Uni.apply_hashcat_rule T (Uni.text word) (Uni.text rule) = Returns current ->
  current <> [] ->
  Uni.apply_hashcat_rule T (Uni.text word)
    (Uni.text rule ++ Uni.text (String " " (String cmd "")) ++ [Uni.code d])
  = Returns result ->
  exists r1 o,
    current = Uni.text r1 /\ ascii_only r1 = true
    /\ exec_part (Py.list_of r1) (String cmd (String d "")) = Returns o
    /\ result = map Uni.code o.
Proof.
  intros Hword Hrule Hcmd Hd Hbc Hbd H1 Hne H2.
  rewrite (bridge_apply T agrees _ _ Hword Hrule) in H1.
  destruct (apply_hashcat_rule word rule) as [r1 | e] eqn:E1; [| discriminate].
  cbn [lift] in H1. injection H1 as <-.
  assert (Hr1 : r1 <> "") by (intros ->; now apply Hne).
  assert (Hlow : ascii_only (rule ++ String " " (String cmd (String d ""))) = true).
  { rewrite ascii_only_app, Hrule. unfold ascii_only.
    cbn [Py.list_of list_ascii_of_string forallb andb].
    apply N.ltb_lt in Hcmd. apply N.ltb_lt in Hd. now rewrite Hcmd, Hd. }
  change (Uni.text rule ++ Uni.text (String " " (String cmd "")) ++ [Uni.code d])
    with (Uni.text rule ++ Uni.text (String " " (String cmd (String d "")))) in H2.
  rewrite <- text_app, (bridge_apply T agrees _ _ Hword Hlow) in H2.
  rewrite (ascii_instruction_after_rule _ _ _ _ _ E1 Hr1 Hbc Hbd) in H2.
  destruct (exec_part (Py.list_of r1) (String cmd (String d ""))) as [o | e]
    eqn:Eo; [| discriminate].
  cbn [bind lift] in H2. injection H2 as <-.
  exists r1, o. split; [reflexivity |].
  split; [exact (apply_keeps_ascii _ _ _ Hword Hrule E1) |].
  split; [exact Eo | apply text_join].
Qed.

Lemma T_toggles_the_character_on_ascii
    (word rule : string) (d : ascii) (current result : Uni.str)
    (n : Z) (c : Uni.char) :
  ascii_only word = true -> ascii_only rule = true -> low d ->
  Uni.apply_hashcat_rule T (Uni.text word) (Uni.text rule) = Returns current ->
  Uni.int T (Uni.code d) 16 = Some n ->
  nth_error current (Z.to_nat n) = Some c ->
  Uni.apply_hashcat_rule T (Uni.text word)
    (Uni.text rule ++ Uni.text " T" ++ [Uni.code d]) = Returns result ->
  result = firstn (Z.to_nat n) current ++ Uni.toggle T [c]
           ++ skipn (S (Z.to_nat n)) current.
Proof.
  intros Hword Hrule Hd H1 Hint Hc H2.
  rewrite (agrees_int_16 T agrees d Hd) in Hint.
  destruct (hex_digit d) as [m |] eqn:Hm; [| discriminate].
  cbn [option_map] in Hint. injection Hint as <-. rewrite Nat2Z.id in *.
  assert (Hne : current <> []) by (destruct current; [destruct m |]; discriminate).
  destruct (bridge_instruction_after_rule word rule "T" d current result
              Hword Hrule eq_refl Hd eq_refl (hex_digit_not_blank _ _ Hm)
              H1 Hne H2) as (r1 & o & -> & Hr1 & Eo & ->).
  unfold Uni.text in Hc. change (list_ascii_of_string r1) with (Py.list_of r1) in Hc.
  rewrite nth_error_map in Hc.
  destruct (nth_error (Py.list_of r1) m) as [x |] eqn:Hx; [| discriminate].
  cbn [option_map] in Hc. injection Hc as <-.
  rewrite exec_T_digit, Hm, Hx in Eo. injection Eo as <-.
  apply ascii_only_spec in Hr1.
  assert (Hlx : low x).
  { rewrite Forall_forall in Hr1. apply Hr1. eapply nth_error_In; eauto. }
  rewrite (agrees_toggle T agrees x Hlx).
  unfold Uni.text. change (list_ascii_of_string r1) with (Py.list_of r1).
  now rewrite map_app, firstn_map, skipn_map.
Qed.

Lemma D_doubles_the_character_on_ascii
    (word rule : string) (d : ascii) (current result : Uni.str)
    (n : Z) (c : Uni.char) :
  ascii_only word = true -> ascii_only rule = true -> low d ->
  Uni.apply_hashcat_rule T (Uni.text word) (Uni.text rule) = Returns current ->
  Uni.int T (Uni.code d) 10 = Some n -> (1 <= n)%Z ->
  nth_error current (Z.to_nat (n - 1)) = Some c ->
  Uni.apply_hashcat_rule T (Uni.text word)
    (Uni.text rule ++ Uni.text " D" ++ [Uni.code d]) = Returns result ->
  result = firstn (Z.to_nat n) current ++ c :: skipn (Z.to_nat n) current.
Proof.
  intros Hword Hrule Hd H1 Hint Hn Hc H2.
  rewrite (agrees_int_10 T agrees d Hd) in Hint.
  destruct (decimal_digit d) as [m |] eqn:Hm; [| discriminate].
  cbn [option_map] in Hint. injection Hint as <-.
  destruct m as [| p]; [lia |].
  replace (Z.to_nat (Z.of_nat (S p) - 1)) with p in Hc by lia.
  rewrite Nat2Z.id.
  assert (Hne : current <> []) by (destruct current; [destruct p |]; discriminate).
  destruct (bridge_instruction_after_rule word rule "D" d current result
              Hword Hrule eq_refl Hd eq_refl (decimal_digit_not_blank _ _ Hm)
              H1 Hne H2) as (r1 & o & -> & Hr1 & Eo & ->).
  unfold Uni.text in Hc. change (list_ascii_of_string r1) with (Py.list_of r1) in Hc.
  rewrite nth_error_map in Hc.
  destruct (nth_error (Py.list_of r1) p) as [x |] eqn:Hx; [| discriminate].
  cbn [option_map] in Hc. injection Hc as <-.
  rewrite exec_D_digit, Hm, Hx in Eo. injection Eo as <-.
  unfold Uni.text. change (list_ascii_of_string r1) with (Py.list_of r1).
  now rewrite map_app, firstn_map, skipn_map.
Qed.

End AfterRule.

(** ** Toggle and duplicate at a position *)

Lemma concat_around (word : Uni.str) (n m : nat) (x : Uni.str) :
  List.concat (firstn n (Uni.items word) ++ x :: skipn m (Uni.items word))
  = firstn n word ++ x ++ skipn m word.
Proof.
  unfold Uni.items. rewrite firstn_map, skipn_map, concat_app. cbn [List.concat].
  change (map (fun c : Uni.char => [c])) with Uni.items.
  now rewrite !concat_items.
Qed.

Lemma nth_error_items (word : Uni.str) (n : nat) (c : Uni.char) :
  nth_error word n = Some c -> nth_error (Uni.items word) n = Some [c].
Proof. intros H. exact (map_nth_error (fun c => [c]) n word H). Qed.

(** C4, as stated, fails on the code.  The position that [TN] names is
    a position in the list [output], whose items are strings, not a
    position in the word: after [u] has turned the sharp s of the word
    into the item [SS], [T1] toggles the item after it, and the rule
    [u T1] turns the word of the two characters 223 and [a] into [SSa],
    where toggling the character at position 1 of [SSA] gives [SsA].
    And [N] is read by [int], which takes the Arabic-Indic digit three
    (1635), no hexadecimal digit, for 3: [T] with that argument turns
    "alice" into "aliCe". *)
Lemma T_does_not_toggle_the_character :
  ~ Uni.T_toggles_the_character Uni.sample_tables
  /\ Uni.apply_hashcat_rule Uni.sample_tables (Uni.text "alice")
       (Uni.code "T" :: [1635]%N)
     = Returns (Uni.text "aliCe").
Proof.
  split; [| reflexivity].
  intros H.
  specialize (H [223; 97]%N (Uni.text "u") (Uni.text "SSA")
                (Uni.code "1") 1%Z (Uni.code "S") (Uni.text "SSa")
                eq_refl eq_refl ltac:(lia) eq_refl eq_refl).
  vm_compute in H. discriminate H.
Qed.

(** C4, amended: [TN] reads the first character of its argument with
    [int(., 16)] and toggles the case of the item at the zero-based
    position [N] of the list that holds the word; when [int] raises,
    when the argument is missing or when [N] is at least the length of
    the list, the list is unchanged.  At the start of a rule the items
    are the characters of the word, so a rule [TN] alone toggles the
    character at position [N] of the word: [T0] turns "alice" into
    "Alice" and [T9] leaves it as it is.  On a word and a rule of ASCII
    characters the items stay the characters of the word, and [TN]
    after any rule toggles the character at position [N] of the word
    that the rule gives. *)
Theorem toggle_at_item_position :
  forall T : Uni.tables,
    (forall output d rest n x,
        Uni.int T d 16 = Some n -> (0 <= n)%Z ->
        nth_error output (Z.to_nat n) = Some x ->
        Uni.exec_part T output (Uni.code "T" :: d :: rest)
        = Returns (firstn (Z.to_nat n) output
                   ++ Uni.toggle T x :: skipn (S (Z.to_nat n)) output))
    /\ (forall output d rest,
          Uni.int T d 16 = None ->
          Uni.exec_part T output (Uni.code "T" :: d :: rest) = Returns output)
    /\ (forall output, Uni.exec_part T output [Uni.code "T"] = Returns output)
    /\ (forall output d rest n,
          Uni.int T d 16 = Some n -> (Py.len output <= n)%Z ->
          Uni.exec_part T output (Uni.code "T" :: d :: rest) = Returns output)
    /\ (Uni.agrees_on_ascii T ->
        (forall word d n c,
            Uni.int T d 16 = Some n -> (0 <= n)%Z ->
            nth_error word (Z.to_nat n) = Some c ->
            Uni.isspace T d = false ->
            Uni.apply_hashcat_rule T word [Uni.code "T"; d]
            = Returns (firstn (Z.to_nat n) word ++ Uni.toggle T [c]
                       ++ skipn (S (Z.to_nat n)) word))
        /\ Uni.apply_hashcat_rule T (Uni.text "alice") (Uni.text "T0")
           = Returns (Uni.text "Alice")
        /\ Uni.apply_hashcat_rule T (Uni.text "alice") (Uni.text "T9")
           = Returns (Uni.text "alice")
        /\ (forall (word rule : string) (d : ascii) current n c result,
              ascii_only word = true -> ascii_only rule = true -> low d ->
              Uni.apply_hashcat_rule T (Uni.text word) (Uni.text rule)
              = Returns current ->
              Uni.int T (Uni.code d) 16 = Some n ->
              nth_error current (Z.to_nat n) = Some c ->
              Uni.apply_hashcat_rule T (Uni.text word)
                (Uni.text rule ++ Uni.text " T" ++ [Uni.code d])
              = Returns result ->
              result = firstn (Z.to_nat n) current ++ Uni.toggle T [c]
                       ++ skipn (S (Z.to_nat n)) current)).
Proof.
  intros T.
  split; [intros; now apply uni_exec_T_at |].
  split; [intros; now apply uni_exec_T_not_numeric |].
  split; [reflexivity |].
  split; [intros; now apply (uni_exec_T_beyond T _ _ _ n) |].
  intros Hagree. split; [| split; [| split]].
  4:{ intros word rule d current n c result.
      apply (T_toggles_the_character_on_ascii T Hagree). }
  - intros word d n c Hint Hn Hc Hd.
    assert (Hword : word <> []) by (destruct word; [destruct (Z.to_nat n) |]; discriminate).
    assert (Htok : Uni.token T [Uni.code "T"; d] = true).
    { unfold Uni.token. cbn [Py.nonempty forallb andb].
      now rewrite (agrees_isspace T Hagree "T"%char eq_refl), Hd. }
    rewrite (uni_apply_token T _ _ Hword Htok).
    rewrite (uni_exec_T_at T _ _ _ n [c] Hint Hn (nth_error_items _ _ _ Hc)).
    cbn [bind]. now rewrite concat_around.
  - now rewrite (bridge_apply T Hagree "alice" "T0" eq_refl eq_refl).
  - now rewrite (bridge_apply T Hagree "alice" "T9" eq_refl eq_refl).
Qed.

Lemma toggle_at_item_position_witness :
  Uni.exec_part Uni.sample_tables (Uni.items (Uni.text "SSA"))
    (Uni.code "T" :: [1633]%N)
  = Returns [[83]; [115]; [65]]%N
  /\ Uni.exec_part Uni.sample_tables (Uni.items (Uni.text "alice")) (Uni.text "Tg")
     = Returns (Uni.items (Uni.text "alice"))
  /\ Uni.exec_part Uni.sample_tables (Uni.items (Uni.text "alice")) (Uni.text "Tb")
     = Returns (Uni.items (Uni.text "alice"))
  /\ Uni.apply_hashcat_rule Uni.sample_tables [97; 223]%N (Uni.text "T1")
     = Returns [97; 83; 83]%N.
Proof.
  split; [| split; [| split]].
  - apply (proj1 (toggle_at_item_position Uni.sample_tables)
             (Uni.items (Uni.text "SSA")) 1633%N [] 1%Z [83%N]);
      [reflexivity | lia | reflexivity].
  - apply (proj1 (proj2 (toggle_at_item_position Uni.sample_tables))).
    reflexivity.
  - apply (proj1 (proj2 (proj2 (proj2 (toggle_at_item_position Uni.sample_tables))))
             _ _ _ 11%Z); [reflexivity | vm_compute; discriminate].
  - apply (proj1 (proj2 (proj2 (proj2 (proj2
             (toggle_at_item_position Uni.sample_tables))))
             sample_tables_agree)
             [97; 223]%N (Uni.code "1") 1%Z 223%N);
      [reflexivity | lia | reflexivity | reflexivity].
Defined.

(** C5, as stated, fails on the code.  The position that [DN] names is
    a position in the list [output], whose items are strings: after [u]
    has turned the sharp s of the word into the item [SS], [D1] doubles
    that item, and the rule [u D1] turns the word of the two characters
    223 and [a] into [SSSSA], where doubling the character at position
    1 of [SSA] gives [SSSA].  And [N] is read by [int], which takes the
    Arabic-Indic digit three (1635) for 3: [D] with that argument turns
    "alice" into "aliice". *)
Lemma D_does_not_double_the_character :
  ~ Uni.D_doubles_the_character Uni.sample_tables
  /\ Uni.apply_hashcat_rule Uni.sample_tables (Uni.text "alice")
       (Uni.code "D" :: [1635]%N)
     = Returns (Uni.text "aliice").
Proof.
  split; [| reflexivity].
  intros H.
  specialize (H [223; 97]%N (Uni.text "u") (Uni.text "SSA")
                (Uni.code "1") 1%Z (Uni.code "S") (Uni.text "SSSSA")
                eq_refl eq_refl ltac:(lia) eq_refl eq_refl).
  vm_compute in H. discriminate H.
Qed.

(** C5, amended: [DN] reads the first character of its argument with
    [int(.)] and inserts a copy of the item at the one-based position
    [N] of the list that holds the word right after that item; when
    [int] raises, when the argument is missing, when [N] is 0 or when
    [N] exceeds the length of the list, the list is unchanged.  At the
    start of a rule the items are the characters of the word, so a rule
    [DN] alone doubles the character at position [N] of the word: [D1]
    turns "alice" into "aalice".  On a word and a rule of ASCII
    characters the items stay the characters of the word, and [DN]
    after any rule doubles the character at position [N] of the word
    that the rule gives. *)
Theorem duplicate_at_item_position :
  forall T : Uni.tables,
    (forall output d rest n x,
        Uni.int T d 10 = Some n -> (1 <= n)%Z ->
        nth_error output (Z.to_nat (n - 1)) = Some x ->
        Uni.exec_part T output (Uni.code "D" :: d :: rest)
        = Returns (firstn (Z.to_nat n) output ++ x :: skipn (Z.to_nat n) output))
    /\ (forall output d rest,
          Uni.int T d 10 = None ->
          Uni.exec_part T output (Uni.code "D" :: d :: rest) = Returns output)
    /\ (forall output, Uni.exec_part T output [Uni.code "D"] = Returns output)
    /\ (forall output d rest n,
          Uni.int T d 10 = Some n -> (n <= 0 \/ Py.len output < n)%Z ->
          Uni.exec_part T output (Uni.code "D" :: d :: rest) = Returns output)
    /\ (Uni.agrees_on_ascii T ->
        (forall word d n c,
            Uni.int T d 10 = Some n -> (1 <= n)%Z ->
            nth_error word (Z.to_nat (n - 1)) = Some c ->
            Uni.isspace T d = false ->
            Uni.apply_hashcat_rule T word [Uni.code "D"; d]
            = Returns (firstn (Z.to_nat n) word ++ c :: skipn (Z.to_nat n) word))
        /\ Uni.apply_hashcat_rule T (Uni.text "alice") (Uni.text "D1")
           = Returns (Uni.text "aalice")
        /\ (forall (word rule : string) (d : ascii) current n c result,
              ascii_only word = true -> ascii_only rule = true -> low d ->
              Uni.apply_hashcat_rule T (Uni.text word) (Uni.text rule)
              = Returns current ->
              Uni.int T (Uni.code d) 10 = Some n -> (1 <= n)%Z ->
              nth_error current (Z.to_nat (n - 1)) = Some c ->
              Uni.apply_hashcat_rule T (Uni.text word)
                (Uni.text rule ++ Uni.text " D" ++ [Uni.code d])
              = Returns result ->
              result = firstn (Z.to_nat n) current
                       ++ c :: skipn (Z.to_nat n) current)).
Proof.
  intros T.
  split; [intros; now apply uni_exec_D_at |].
  split; [intros; now apply uni_exec_D_not_numeric |].
  split; [reflexivity |].
  split.
  { intros output d rest n Hint Hn.
    apply (uni_exec_D_outside T _ _ _ n Hint). lia. }
  intros Hagree. split; [| split].
  3:{ intros word rule d current n c result.
      apply (D_doubles_the_character_on_ascii T Hagree). }
  - intros word d n c Hint Hn Hc Hd.
    assert (Hword : word <> [])
      by (destruct word; [destruct (Z.to_nat (n - 1)) |]; discriminate).
    assert (Htok : Uni.token T [Uni.code "D"; d] = true).
    { unfold Uni.token. cbn [Py.nonempty forallb andb].
      now rewrite (agrees_isspace T Hagree "D"%char eq_refl), Hd. }
    rewrite (uni_apply_token T _ _ Hword Htok).
    rewrite (uni_exec_D_at T _ _ _ n [c] Hint Hn (nth_error_items _ _ _ Hc)).
    cbn [bind]. now rewrite concat_around.
  - now rewrite (bridge_apply T Hagree "alice" "D1" eq_refl eq_refl).
Qed.

Lemma duplicate_at_item_position_witness :
  Uni.exec_part Uni.sample_tables (Uni.items (Uni.text "alice"))
    (Uni.code "D" :: [1635]%N)
  = Returns (Uni.items (Uni.text "aliice"))
  /\ Uni.exec_part Uni.sample_tables (Uni.items (Uni.text "alice")) (Uni.text "Dx")
     = Returns (Uni.items (Uni.text "alice"))
  /\ Uni.exec_part Uni.sample_tables (Uni.items (Uni.text "alice")) (Uni.text "D0")
     = Returns (Uni.items (Uni.text "alice"))
  /\ Uni.apply_hashcat_rule Uni.sample_tables [223; 97]%N (Uni.text "D1")
     = Returns [223; 223; 97]%N.
Proof.
  split; [| split; [| split]].
  - apply (proj1 (duplicate_at_item_position Uni.sample_tables)
             (Uni.items (Uni.text "alice")) 1635%N [] 3%Z (Uni.text "i"));
      [reflexivity | lia | reflexivity].
  - apply (proj1 (proj2 (duplicate_at_item_position Uni.sample_tables))).
    reflexivity.
  - apply (proj1 (proj2 (proj2 (proj2 (duplicate_at_item_position Uni.sample_tables))))
             _ _ _ 0%Z); [reflexivity | lia].
  - apply (proj1 (proj2 (proj2 (proj2 (proj2
             (duplicate_at_item_position Uni.sample_tables))))
             sample_tables_agree)
             [223; 97]%N (Uni.code "1") 1%Z 223%N);
      [reflexivity | lia | reflexivity | reflexivity].
Defined.

(** ** Instructions run left to right *)

(** C9: the instructions of a rule run from left to right, each on the
    output of the one before, in the engine over ASCII text and in the
    engine over any repertoire alike: running a list of instructions
    followed by another is running the first list, then the second on
    its output; a rule [r1 r2] applied to a word that is not empty runs
    the instructions of [r1] on the list of the word, then the
    instructions of [r2] on the list that [r1] left, and joins the
    result.  The rule [$1 $2 $3] turns "alice" into "alice123" and [^9]
    turns it into "9alice". *)
Theorem instructions_run_left_to_right :
  (forall parts1 parts2 output,
      run_parts (parts1 ++ parts2) output
      = (output' <- run_parts parts1 output ;; run_parts parts2 output'))
  /\ (forall word rule1 rule2,
        word <> "" ->
        apply_hashcat_rule word (rule1 ++ " " ++ rule2)
        = (output1 <- run_parts (Py.split rule1) (Py.list_of word) ;;
           output2 <- run_parts (Py.split rule2) output1 ;;
           Returns (Py.join output2)))
  /\ apply_hashcat_rule "alice" "$1 $2 $3" = Returns "alice123"
  /\ apply_hashcat_rule "alice" "^9" = Returns "9alice"
  /\ (forall (T : Uni.tables) parts1 parts2 output,
        Uni.run_parts T (parts1 ++ parts2) output
        = (output' <- Uni.run_parts T parts1 output ;;
           Uni.run_parts T parts2 output'))
  /\ (forall (T : Uni.tables) word rule1 rule2,
        Uni.isspace T (Uni.code " ") = true ->
        word <> [] ->
        Uni.apply_hashcat_rule T word (rule1 ++ Uni.text " " ++ rule2)
        = (output1 <- Uni.run_parts T (Uni.split T rule1) (Uni.items word) ;;
           output2 <- Uni.run_parts T (Uni.split T rule2) output1 ;;
           Returns (List.concat output2)))
  /\ (forall T : Uni.tables,
        Uni.agrees_on_ascii T ->
        Uni.apply_hashcat_rule T (Uni.text "alice") (Uni.text "$1 $2 $3")
        = Returns (Uni.text "alice123")
        /\ Uni.apply_hashcat_rule T (Uni.text "alice") (Uni.text "^9")
           = Returns (Uni.text "9alice")).
Proof.
  split; [exact run_parts_app |].
  split; [| split; [reflexivity | split; [reflexivity |]]].
  - intros word rule1 rule2 Hword. apply truthy_iff in Hword.
    rewrite (apply_nonempty _ _ Hword).
    change (rule1 ++ " " ++ rule2)%string
      with (rule1 ++ String " " rule2)%string.
    rewrite (split_blank rule1 rule2 " " eq_refl), run_parts_app.
    destruct (run_parts (Py.split rule1) (Py.list_of word)); reflexivity.
  - split; [exact uni_run_parts_app |]. split.
    + intros T word rule1 rule2 Hsp Hword.
      rewrite (uni_apply_nonempty T _ _ Hword).
      change (rule1 ++ Uni.text " " ++ rule2)
        with (rule1 ++ Uni.code " " :: rule2).
      unfold Uni.split at 1.
      rewrite (uni_split_from_blank T _ _ _ _ Hsp), uni_run_parts_app.
      change (Uni.split_from T [] rule1) with (Uni.split T rule1).
      destruct (Uni.run_parts T (Uni.split T rule1) (Uni.items word));
        reflexivity.
    + intros T Hagree. split.
      * now rewrite (bridge_apply T Hagree "alice" "$1 $2 $3" eq_refl eq_refl).
      * now rewrite (bridge_apply T Hagree "alice" "^9" eq_refl eq_refl).
Qed.

Lemma instructions_run_left_to_right_witness :
  apply_hashcat_rule "alice" ("$1 [" ++ " " ++ "D1 r")
  = (output1 <- run_parts (Py.split "$1 [") (Py.list_of "alice") ;;
     output2 <- run_parts (Py.split "D1 r") output1 ;;
     Returns (Py.join output2))
  /\ Uni.apply_hashcat_rule Uni.sample_tables [223; 97]%N
       (Uni.text "u" ++ Uni.text " " ++ Uni.text "T1")
     = (output1 <- Uni.run_parts Uni.sample_tables
                     (Uni.split Uni.sample_tables (Uni.text "u"))
                     (Uni.items [223; 97]%N) ;;
        output2 <- Uni.run_parts Uni.sample_tables
                     (Uni.split Uni.sample_tables (Uni.text "T1")) output1 ;;
        Returns (List.concat output2))
  /\ Uni.apply_hashcat_rule Uni.sample_tables (Uni.text "alice") (Uni.text "^9")
     = Returns (Uni.text "9alice").
Proof.
  split; [| split].
  - apply (proj1 (proj2 instructions_run_left_to_right) "alice" "$1 [" "D1 r").
    discriminate.
  - apply (proj1 (proj2 (proj2 (proj2 (proj2 (proj2
             instructions_run_left_to_right)))))
             Uni.sample_tables [223; 97]%N (Uni.text "u") (Uni.text "T1"));
      [reflexivity | discriminate].
  - apply (proj2 (proj2 (proj2 (proj2 (proj2 (proj2 (proj2
             instructions_run_left_to_right)))))
             Uni.sample_tables sample_tables_agree)).
Defined.

(** ** The engine on ASCII words and rules *)

Lemma length_text (s : string) : List.length (Uni.text s) = String.length s.
Proof. unfold Uni.text. rewrite length_map. apply length_list_of. Qed.

Lemma bridge_split (T : Uni.tables) (rule : string) :
  Uni.agrees_on_ascii T -> ascii_only rule = true ->
  Uni.split T (Uni.text rule) = map Uni.text (Py.split rule).
Proof.
  intros Hagree Hrule. apply ascii_only_spec in Hrule.
  destruct (bridge_split_from T Hagree "" rule (Forall_nil _) Hrule) as [E _].
  exact E.
Qed.

(** X2: on a word and a rule of ASCII characters, a rule moves the
    length of the word by at most the number of its instructions, up or
    down, whatever the tables do outside ASCII. *)
Theorem rule_moves_length_by_instruction_count :
  forall T : Uni.tables,
    Uni.agrees_on_ascii T ->
    forall word rule result,
      ascii_only word = true -> ascii_only rule = true ->
      Uni.apply_hashcat_rule T (Uni.text word) (Uni.text rule) = Returns result ->
      (List.length result
       <= List.length (Uni.text word) + List.length (Uni.split T (Uni.text rule))
       /\ List.length (Uni.text word)
          <= List.length result + List.length (Uni.split T (Uni.text rule)))%nat.
Proof.
  intros T Hagree word rule result Hword Hrule H.
  rewrite (bridge_apply T Hagree _ _ Hword Hrule) in H.
  destruct (apply_hashcat_rule word rule) as [r | e] eqn:E; [| discriminate].
  cbn [lift] in H. injection H as <-.
  rewrite (bridge_split T rule Hagree Hrule), length_map, !length_text.
  now apply ascii_rule_moves_length.
Qed.

Lemma rule_moves_length_by_instruction_count_witness :
  (List.length (Uni.text "llice1")
   <= List.length (Uni.text "alice")
      + List.length (Uni.split Uni.sample_tables (Uni.text "$1 [ D1"))
   /\ List.length (Uni.text "alice")
      <= List.length (Uni.text "llice1")
         + List.length (Uni.split Uni.sample_tables (Uni.text "$1 [ D1")))%nat.
Proof.
  apply (rule_moves_length_by_instruction_count Uni.sample_tables
           sample_tables_agree "alice" "$1 [ D1" (Uni.text "llice1"));
    reflexivity.
Defined.

(** X3: on a word and a rule of ASCII characters, a rule made of the
    instructions [:], [l], [u], [c], [C], [t] and [TN] only returns a
    word of the same length with the same letters in the same places,
    changed in case at most. *)
Theorem case_rule_keeps_letters :
  forall T : Uni.tables,
    Uni.agrees_on_ascii T ->
    forall word rule result,
      ascii_only word = true -> ascii_only rule = true ->
      (forall part, In part (Py.split rule) -> case_instruction part = true) ->
      Uni.apply_hashcat_rule T (Uni.text word) (Uni.text rule) = Returns result ->
      exists r,
        result = Uni.text r
        /\ same_letters (Py.list_of word) (Py.list_of r)
        /\ List.length result = List.length (Uni.text word).
Proof.
  intros T Hagree word rule result Hword Hrule Hall H.
  rewrite (bridge_apply T Hagree _ _ Hword Hrule) in H.
  destruct (apply_hashcat_rule word rule) as [r | e] eqn:E; [| discriminate].
  cbn [lift] in H. injection H as <-.
  destruct (ascii_case_rule_keeps_letters word rule r Hall E) as [Hs Hl].
  exists r. split; [reflexivity |]. split; [exact Hs |].
  now rewrite !length_text.
Qed.

Lemma case_rule_keeps_letters_witness :
  exists r,
    Uni.text "ALiCE" = Uni.text r
    /\ same_letters (Py.list_of "alice") (Py.list_of r)
    /\ List.length (Uni.text "ALiCE") = List.length (Uni.text "alice").
Proof.
  apply (case_rule_keeps_letters Uni.sample_tables sample_tables_agree
           "alice" "c t T0 T2 :" (Uni.text "ALiCE") eq_refl eq_refl).
  - intros part H. cbn in H.
    destruct H as [<- | [<- | [<- | [<- | [<- | []]]]]]; reflexivity.
  - reflexivity.
Defined.

(** X6: on a word of ASCII characters toggling is undone by toggling
    again: the rule [t t] returns the word unchanged, and so do two
    [TN] with the same ASCII character [N], a position in range or
    not. *)
Theorem toggling_twice_is_identity :
  forall T : Uni.tables,
    Uni.agrees_on_ascii T ->
    forall word,
      ascii_only word = true ->
      Uni.apply_hashcat_rule T (Uni.text word) (Uni.text "t t")
      = Returns (Uni.text word)
      /\ (forall d, low d -> Py.isspace d = false ->
            Uni.apply_hashcat_rule T (Uni.text word)
              (Uni.text (String "T" (String d (String " " (String "T" (String d ""))))))
            = Returns (Uni.text word)).
Proof.
  intros T Hagree word Hword.
  destruct (ascii_toggling_twice word) as [Ht HT]. split.
  - now rewrite (bridge_apply T Hagree word "t t" Hword eq_refl), Ht.
  - intros d Hd Hsp.
    rewrite (bridge_apply T Hagree _ _ Hword).
    + now rewrite (HT d Hsp).
    + unfold ascii_only.
      cbn [Py.list_of list_ascii_of_string forallb].
      apply N.ltb_lt in Hd. now rewrite Hd.
Qed.

Lemma toggling_twice_is_identity_witness :
  Uni.apply_hashcat_rule Uni.sample_tables (Uni.text "alice") (Uni.text "t t")
  = Returns (Uni.text "alice")
  /\ Uni.apply_hashcat_rule Uni.sample_tables (Uni.text "alice") (Uni.text "T3 T3")
     = Returns (Uni.text "alice").
Proof.
  destruct (toggling_twice_is_identity Uni.sample_tables sample_tables_agree
              "alice" eq_refl) as [Ht HT].
  split; [exact Ht |].
  apply (HT "3"%char); reflexivity.
Defined.

(** X7: on a word and a rule of ASCII characters, after any rule that
    changes case only, an instruction that sets the case of the whole
    word ([l], [u], [c] or [C]) gives what it gives on the word itself:
    the case changes before it are forgotten. *)
Theorem setting_case_forgets_earlier_case_changes :
  forall T : Uni.tables,
    Uni.agrees_on_ascii T ->
    forall word rule op,
      ascii_only word = true -> ascii_only rule = true ->
      (forall part, In part (Py.split rule) -> case_instruction part = true) ->
      In op ["l"; "u"; "c"; "C"] ->
      Uni.apply_hashcat_rule T (Uni.text word) (Uni.text (rule ++ " " ++ op))
      = Uni.apply_hashcat_rule T (Uni.text word) (Uni.text op).
Proof.
  intros T Hagree word rule op Hword Hrule Hall Hop.
  assert (Hlow_op : ascii_only op = true).
  { cbn in Hop. destruct Hop as [<- | [<- | [<- | [<- | []]]]]; reflexivity. }
  assert (Hlow : ascii_only (rule ++ " " ++ op) = true).
  { apply ascii_only_spec. apply ascii_only_spec in Hrule, Hlow_op.
    rewrite Forall_forall in *. intros c Hc.
    unfold Py.list_of in *.
    assert (Happ : forall s1 s2 : string,
               list_ascii_of_string (s1 ++ s2)
               = list_ascii_of_string s1 ++ list_ascii_of_string s2).
    { intros s1 s2. induction s1 as [| a s1 IH]; cbn; [reflexivity | now rewrite IH]. }
    rewrite !Happ in Hc. apply in_app_or in Hc. destruct Hc as [Hc | Hc];
      [now apply Hrule |].
    apply in_app_or in Hc. destruct Hc as [Hc | Hc]; [| now apply Hlow_op].
    cbn in Hc. destruct Hc as [<- | []]. reflexivity. }
  rewrite (bridge_apply T Hagree _ _ Hword Hlow).
  rewrite (bridge_apply T Hagree _ _ Hword Hlow_op).
  now rewrite (ascii_setting_case_forgets word rule op Hall Hop).
Qed.

Lemma setting_case_forgets_earlier_case_changes_witness :
  Uni.apply_hashcat_rule Uni.sample_tables (Uni.text "aLice")
    (Uni.text ("t T0 u" ++ " " ++ "c"))
  = Uni.apply_hashcat_rule Uni.sample_tables (Uni.text "aLice") (Uni.text "c").
Proof.
  apply (setting_case_forgets_earlier_case_changes Uni.sample_tables
           sample_tables_agree "aLice" "t T0 u" "c" eq_refl eq_refl).
  - intros part H. cbn in H.
    destruct H as [<- | [<- | [<- | []]]]; reflexivity.
  - cbn. auto.
Defined.
